(** * Compliance Sentinel (finance-bot): the streaming alert pipeline of [app.py]

    A shallow embedding of [src/app.py]: the user-defined functions
    ([safe_float], [make_meta_str], the [meta_get_*] family,
    [rule_based_explanation]) and the table pipeline built from them
    (typed stream, sliding window reduction, average, unpacking, watchlist
    join, alert filter, final projection), and the guarded variant of the
    functions in [src/copy_backup.py], followed by the properties the
    specification states about them and further properties of the code.

    Python floats are IEEE 754 binary64 values: they are modelled by Rocq's
    primitive floats, decimal formatting and parsing by exact integer
    arithmetic on the mantissa and exponent.  Python exceptions are modelled
    by an explicit result type. *)

From Stdlib Require Import ZArith NArith Uint63 Floats String Ascii List Bool Lia FinFun
  Permutation.
Import ListNotations.

Set Warnings "-inexact-float".

Local Open Scope string_scope.
Local Open Scope Z_scope.

(* ================================================================== *)
(** * Python values, exceptions and builtins *)
(* ================================================================== *)

Module Py.

(** The exceptions the modelled code can raise. *)
Inductive exn : Type :=
| TypeError
| ValueError
| IndexError
| AttributeError
| OverflowError
| ZeroDivisionError.

(** Outcome of evaluating a Python expression: a value or a raised exception. *)
Inductive result (A : Type) : Type :=
| Ok (a : A)
| Raise (e : exn).

Arguments Ok {A} a.
Arguments Raise {A} e.

Definition bind {A B} (c : result A) (k : A -> result B) : result B :=
  match c with
  | Ok a => k a
  | Raise e => Raise e
  end.

(** [try: body / except: handler] (a bare [except] and [except Exception]
    coincide on the exceptions above). *)
Definition try_except {A} (body : result A) (handler : result A) : result A :=
  match body with
  | Ok a => Ok a
  | Raise _ => handler
  end.

(** The values a column or a UDF argument may hold. *)
Inductive value : Type :=
| VNone
| VStr (s : string)
| VInt (z : Z)
| VFloat (f : float).

(** Truthiness of an optional string ([None] and [""] are falsy). *)
Definition truthy (s : option string) : bool :=
  match s with
  | None => false
  | Some "" => false
  | Some _ => true
  end.

(** [s or d] for an optional string [s]. *)
Definition or_default (s : option string) (d : string) : string :=
  match s with
  | None => d
  | Some "" => d
  | Some x => x
  end.

(** ** Strings: [strip], [split], [join] *)

(** A character is a code point below 256.  The ones [str.isspace]
    accepts, which [str.strip()] removes: the C whitespace, the separators
    28 to 31, NEL and the no-break space. *)
Definition is_space (c : ascii) : bool :=
  let n := N_of_ascii c in
  (((9 <=? n) && (n <=? 13)) || ((28 <=? n) && (n <=? 32))
   || (n =? 133) || (n =? 160))%N.

(** The characters [float] ignores around a numeral: the C whitespace, and
    the spaces beyond ASCII, which it turns into " " before it parses; the
    separators 28 to 31 are not among them. *)
Definition is_float_space (c : ascii) : bool :=
  let n := N_of_ascii c in
  (((9 <=? n) && (n <=? 13)) || (n =? 32) || (n =? 133) || (n =? 160))%N.

Fixpoint lstrip_chars (sp : ascii -> bool) (s : string) : string :=
  match s with
  | String c s' => if sp c then lstrip_chars sp s' else s
  | EmptyString => EmptyString
  end.

Fixpoint rstrip_chars (sp : ascii -> bool) (s : string) : string :=
  match s with
  | String c s' =>
      match rstrip_chars sp s' with
      | EmptyString => if sp c then EmptyString else String c EmptyString
      | r => String c r
      end
  | EmptyString => EmptyString
  end.

Definition strip_chars (sp : ascii -> bool) (s : string) : string :=
  rstrip_chars sp (lstrip_chars sp s).

(** [s.strip()]. *)
Definition strip (s : string) : string := strip_chars is_space s.

(** [s.partition(sep)] for a one-character separator: the text before the
    first [sep] and the text after it, when [sep] occurs. *)
Fixpoint cut (sep : ascii) (s : string) : option (string * string) :=
  match s with
  | EmptyString => None
  | String c s' =>
      if Ascii.eqb c sep then Some (EmptyString, s')
      else match cut sep s' with
           | Some (a, b) => Some (String c a, b)
           | None => None
           end
  end.

(** [s.split(sep, maxsplit)]: at most [maxsplit] cuts, from the left. *)
Fixpoint split (sep : ascii) (maxsplit : nat) (s : string) : list string :=
  match maxsplit with
  | O => [s]
  | S k =>
      match cut sep s with
      | Some (a, b) => a :: split sep k b
      | None => [s]
      end
  end.

(** [l[i]]: raises [IndexError] out of range. *)
Definition index {A} (l : list A) (i : nat) : result A :=
  match nth_error l i with
  | Some a => Ok a
  | None => Raise IndexError
  end.

(** [" ".join(l)]. *)
Definition join (sep : string) (l : list string) : string := String.concat sep l.

(** Whether a character occurs in a string. *)
Fixpoint contains (c : ascii) (s : string) : bool :=
  match s with
  | EmptyString => false
  | String d s' => Ascii.eqb d c || contains c s'
  end.

(** ** Decimal digits *)

Definition digit_char (d : N) : ascii := ascii_of_N (48 + d).

Definition is_digit (c : ascii) : bool :=
  let n := N_of_ascii c in ((48 <=? n) && (n <=? 57))%N.

Definition digit_val (c : ascii) : N := (N_of_ascii c - 48)%N.

(** The [k] low decimal digits of [n], most significant first. *)
Fixpoint fixed_digits (k : nat) (n : N) : string :=
  match k with
  | O => EmptyString
  | S k' => String (digit_char ((n / 10 ^ N.of_nat k') mod 10)%N) (fixed_digits k' n)
  end.

(** Number of decimal digits of [n] (1 for 0); [fuel] bounds the loop. *)
Fixpoint ndigits_fuel (fuel : nat) (n : N) : nat :=
  match fuel with
  | O => 1%nat
  | S f => if (n <? 10)%N then 1%nat else S (ndigits_fuel f (n / 10)%N)
  end.

Definition ndigits (n : N) : nat := ndigits_fuel (N.to_nat (N.size n)) n.

(** [str(n)] for a natural number. *)
Definition str_of_N (n : N) : string := fixed_digits (ndigits n) n.

(** [str(z)] for an integer. *)
Definition str_of_Z (z : Z) : string :=
  match z with
  | Zneg p => String "-" (str_of_N (Npos p))
  | _ => str_of_N (Z.to_N z)
  end.

(** The longest integer [str] converts to text: the default of
    [sys.set_int_max_str_digits]. *)
Definition int_max_str_digits : nat := 4300.

(** [str(z)] for an integer as Python runs it: a [ValueError] when [z] has
    more digits than the limit. *)
Definition str_of_int (z : Z) : result string :=
  if (int_max_str_digits <? ndigits (Z.abs_N z))%nat then Raise ValueError
  else Ok (str_of_Z z).

(** ** Floats: correctly rounded conversion, formatting, parsing *)

(** Smallest exponent of a binary64 mantissa (subnormal numbers). *)
Definition emin : Z := 3 - emax - prec.

(** [n / d] rounded to the nearest integer, ties to even ([0 <= n], [0 < d]). *)
Definition div_half_even (n d : Z) : Z :=
  let q := n / d in
  let r := n mod d in
  if (d <? 2 * r) || ((d =? 2 * r) && Z.odd q) then q + 1 else q.

(** [floor (log2 (n / d))] for positive [n] and [d]. *)
Definition log2_ratio (n d : Z) : Z :=
  let l := Z.log2 n - Z.log2 d in
  if d * 2 ^ Z.max l 0 <=? n * 2 ^ Z.max (- l) 0 then l else l - 1.

(** The binary64 value nearest to the rational [n / d] (ties to even), with
    the sign [neg]: what the C library's [strtod], hence Python's [float],
    returns for a decimal numeral of that value. *)
Definition nearest_binary64 (neg : bool) (n d : Z) : spec_float :=
  if n <=? 0 then S754_zero neg
  else
    let e := Z.max (log2_ratio n d - (prec - 1)) emin in
    let m := div_half_even (n * 2 ^ Z.max (- e) 0) (d * 2 ^ Z.max e 0) in
    let '(m, e) := if m =? 2 ^ prec then (2 ^ (prec - 1), e + 1) else (m, e) in
    match m with
    | Zpos p => if emax - prec <? e then S754_infinity neg else S754_finite neg p e
    | _ => S754_zero neg
    end.

(** The sign of a numeral. *)
Definition sign_str (neg : bool) : string := if neg then "-" else "".

(** The decimal numeral of [n / 10^p] with exactly [p] fractional digits. *)
Definition fixed_str (p : nat) (n : N) : string :=
  let ip := str_of_N (n / 10 ^ N.of_nat p)%N in
  match p with
  | O => ip
  | S _ => ip ++ String "." (fixed_digits p n)
  end.

(** [|x| * 10^p] rounded to the nearest integer (ties to even), for the
    finite float of mantissa [m] and exponent [e]. *)
Definition scaled (p : nat) (m : positive) (e : Z) : N :=
  Z.to_N (div_half_even (Zpos m * 10 ^ Z.of_nat p * 2 ^ Z.max e 0) (2 ^ Z.max (- e) 0)).

(** [format(x, ".<p>f")], the [f"{x:.<p>f}"] of the source: the exact value
    of [x] correctly rounded to [p] decimals. *)
Definition format_f (p : nat) (x : float) : string :=
  match Prim2SF x with
  | S754_nan => "nan"
  | S754_infinity s => sign_str s ++ "inf"
  | S754_zero s => sign_str s ++ fixed_str p 0
  | S754_finite s m e => sign_str s ++ fixed_str p (scaled p m e)
  end.

(** [c.lower()] for an ASCII character. *)
Definition lower (c : ascii) : ascii :=
  let n := N_of_ascii c in
  if ((65 <=? n) && (n <=? 90))%N then ascii_of_N (n + 32) else c.

(** [s.lower()]. *)
Fixpoint lower_str (s : string) : string :=
  match s with
  | EmptyString => EmptyString
  | String c s' => String (lower c) (lower_str s')
  end.

(** The tail of a [digitpart ::= digit (["_"] digit)*]: [acc] is the value
    read so far and [cnt] the number of digits. *)
Fixpoint digits_loop (s : string) (acc : N) (cnt : nat) : N * nat * string :=
  match s with
  | String c s' =>
      if is_digit c then digits_loop s' (10 * acc + digit_val c)%N (S cnt)
      else if Ascii.eqb c "_" then
        match s' with
        | String d s'' =>
            if is_digit d then digits_loop s'' (10 * acc + digit_val d)%N (S cnt)
            else (acc, cnt, s)
        | EmptyString => (acc, cnt, s)
        end
      else (acc, cnt, s)
  | EmptyString => (acc, cnt, s)
  end.

(** A [digitpart] at the head of [s], when [s] starts with a digit: the
    value [acc] extended by its digits, their number added to [cnt], and the
    rest of [s]. *)
Definition digitpart (s : string) (acc : N) (cnt : nat) : N * nat * string :=
  match s with
  | String c s' =>
      if is_digit c then digits_loop s' (10 * acc + digit_val c)%N (S cnt)
      else (acc, cnt, s)
  | EmptyString => (acc, cnt, s)
  end.

(** An optional sign at the head of [s]: whether it is ["-"], and the rest. *)
Definition split_sign (s : string) : bool * string :=
  match s with
  | String "+" r => (false, r)
  | String "-" r => (true, r)
  | _ => (false, s)
  end.

(** [exponent ::= ("e" | "E") [sign] digitpart], after the letter. *)
Definition parse_exponent (s : string) : option Z :=
  let '(neg, s1) := split_sign s in
  match digitpart s1 0 0 with
  | (v, S _, EmptyString) => Some (if neg then - Z.of_N v else Z.of_N v)
  | _ => None
  end.

(** [floatnumber ::= number [exponent]] with
    [number ::= [digitpart] "." digitpart | digitpart ["."]]: the decimal
    mantissa and the power of ten it is scaled by. *)
Definition parse_number (s : string) : option (N * Z) :=
  let '(ip, n1, r1) := digitpart s 0 0 in
  let '(m, n2, r2) :=
    match r1 with
    | String "." r => digitpart r ip 0
    | _ => (ip, O, r1)
    end in
  if (n1 + n2 =? 0)%nat then None
  else
    match r2 with
    | EmptyString => Some (m, - Z.of_nat n2)
    | String c r3 =>
        if Ascii.eqb (lower c) "e" then
          match parse_exponent r3 with
          | Some x => Some (m, x - Z.of_nat n2)
          | None => None
          end
        else None
    end.

(** [float(s)] for a string: surrounding whitespace is ignored, then
    [[sign] (floatnumber | "inf" | "infinity" | "nan")], letters in either
    case; anything else raises [ValueError]. *)
Definition float_of_string (s : string) : result float :=
  let '(neg, body) := split_sign (strip_chars is_float_space s) in
  let lb := lower_str body in
  if String.eqb lb "inf" || String.eqb lb "infinity" then
    Ok (if neg then neg_infinity else infinity)
  else if String.eqb lb "nan" then Ok nan
  else
    match parse_number body with
    | Some (m, e) =>
        Ok (SF2Prim (nearest_binary64 neg (Z.of_N m * 10 ^ Z.max e 0) (10 ^ Z.max (- e) 0)))
    | None => Raise ValueError
    end.

(** [float(x)]: a float is returned as it is, an integer is converted
    ([OverflowError] beyond the binary64 range), a string is parsed and
    [None] is a [TypeError]. *)
Definition float_of_value (x : value) : result float :=
  match x with
  | VNone => Raise TypeError
  | VStr s => float_of_string s
  | VInt z =>
      match nearest_binary64 (z <? 0) (Z.abs z) 1 with
      | S754_infinity _ => Raise OverflowError
      | f => Ok (SF2Prim f)
      end
  | VFloat f => Ok f
  end.

(** [float(str(x).strip())].  For a float [x], [str(x)] is the shortest
    numeral that [float] reads back as [x] (and "nan", "inf", "-inf" for the
    special values), so the composition returns [x]; the numeral itself is
    not modelled. *)
Definition float_of_str_strip (x : value) : result float :=
  match x with
  | VNone => float_of_string (strip "None")
  | VStr s => float_of_string (strip s)
  | VInt z => bind (str_of_int z) (fun s => float_of_string (strip s))
  | VFloat f => Ok f
  end.

(** [x > c] for an optional float: comparing [None] with a number is a
    [TypeError]. *)
Definition gt (x : option float) (c : float) : result bool :=
  match x with
  | Some f => Ok (PrimFloat.ltb c f)
  | None => Raise TypeError
  end.

(** [int(c)] for an optional integer. *)
Definition int_of (c : option Z) : result Z :=
  match c with
  | Some z => Ok z
  | None => Raise TypeError
  end.

(** [f"{x:.<p>f}"] for an optional float. *)
Definition format_opt (p : nat) (x : option float) : result string :=
  match x with
  | Some f => Ok (format_f p f)
  | None => Raise TypeError
  end.

End Py.

Notation "x <- c1 ;; c2" := (Py.bind c1 (fun x => c2))
  (at level 61, c1 at next level, right associativity).

(** Applying a fallible function to every row of a table. *)
Fixpoint mapM {A B} (f : A -> Py.result B) (l : list A) : Py.result (list B) :=
  match l with
  | [] => Py.Ok []
  | a :: l' => b <- f a ;; bs <- mapM f l' ;; Py.Ok (b :: bs)
  end.

(* ================================================================== *)
(** * The table operators of the streaming engine *)
(* ================================================================== *)

(** The operators [app.py] calls on tables, on the final state of a table
    (all input rows read): the table windowed by sliding windows, its
    grouping by a column, the sum, count and max reducers, the left join,
    and arithmetic on columns.  Times are seconds since the epoch. *)
Module Pw.

(** [range(a, b)]. *)
Definition range (a b : Z) : list Z :=
  map (fun i => a + Z.of_nat i) (seq 0 (Z.to_nat (b - a))).

(** The origin windows are aligned to when [sliding] is given none:
    1973-01-01T00:00:00, a Monday. *)
Definition default_origin : Z := 94694400.

(** [pw.temporal.sliding(duration, hop)]: the windows [(start, end)] a key
    belongs to.  The candidates are the windows starting a multiple of
    [hop] after [origin] around the key, kept when [start <= key < end]. *)
Definition assign_windows (origin hop duration key : Z) : list (Z * Z) :=
  let last_k := (key - origin) / hop + 1 in
  let first_k := last_k - duration / hop - 1 - 1 in
  let candidate_windows :=
    map (fun k => (k * hop + origin, k * hop + duration + origin))
        (range first_k last_k) in
  filter (fun w => (fst w <=? key) && (key <? snd w)) candidate_windows.

(** [pw.reducers.sum] over a float column, the rows added in their order. *)
Definition reducers_sum (l : list float) : float :=
  fold_left PrimFloat.add l 0%float.

(** [pw.reducers.count]. *)
Definition reducers_count {A} (l : list A) : Z := Z.of_nat (length l).

(** The larger of two strings, the first when they are equal. *)
Definition str_max (a b : string) : string :=
  if String.ltb a b then b else a.

(** [pw.reducers.max] over a string column (byte-wise lexicographic order);
    a group is never empty. *)
Definition reducers_max (l : list string) : string :=
  match l with
  | [] => ""
  | x :: r => fold_left str_max r x
  end.

(** The cast of an integer column (64-bit, signed) to a float column, as
    in [int_column + 1e-9]. *)
Definition float_of_int (z : Z) : float :=
  if z <? 0 then (- of_uint63 (Uint63.of_Z (- z)))%float
  else of_uint63 (Uint63.of_Z z).

(** [column.is_none()]. *)
Definition is_none {A} (x : option A) : bool :=
  match x with
  | None => true
  | Some _ => false
  end.

(** Float division of two columns; a zero divisor is an error. *)
Definition div (a b : float) : Py.result float :=
  if PrimFloat.eqb b 0 then Py.Raise Py.ZeroDivisionError
  else Py.Ok (a / b)%float.

(** [left.join(right, left.k == right.k, how=LEFT)]: every left row is
    paired with each right row of the same key, and with no row ([None])
    when there is none. *)
Definition join_left {L R} (lkey : L -> string) (rkey : R -> string)
    (left : list L) (right : list R) : list (L * option R) :=
  flat_map
    (fun l =>
       match filter (fun r => String.eqb (lkey l) (rkey r)) right with
       | [] => [(l, None)]
       | ms => map (fun r => (l, Some r)) ms
       end)
    left.

(** [t.windowby(time, window=sliding(duration, hop))]: the windowed table,
    every row once for each window it belongs to, with the bounds of that
    window (the columns [_pw_window_start] and [_pw_window_end]). *)
Definition windowby {A} (time : A -> Z) (origin hop duration : Z) (t : list A)
  : list (Z * Z * A) :=
  flat_map
    (fun r => map (fun w => (fst w, snd w, r))
                  (assign_windows origin hop duration (time r)))
    t.

(** [t.groupby(key)]: the values of the key, one group and one output row
    for each. *)
Definition group_keys {A} (key : A -> string) (t : list A) : list string :=
  nodup string_dec (map key t).

(** The rows of one group, in the order of the table. *)
Definition group {A} (key : A -> string) (t : list A) (k : string) : list A :=
  filter (fun r => String.eqb (key r) k) t.

End Pw.

(* ================================================================== *)
(** * The user-defined functions of [app.py] *)
(* ================================================================== *)

Import Py.

(** [safe_float(x)]. *)
Definition safe_float (x : value) : result float :=
  try_except
    (match x with
     | VNone => Ok 0%float
     | _ => float_of_str_strip x
     end)
    (Ok 0%float).

(** [make_meta_str(t, amt, loc, merch, stat)]. *)
Definition make_meta_str (t : option string) (amt : value)
    (loc merch stat : option string) : result string :=
  amt2 <- try_except (f <- float_of_value amt ;; Ok (format_f 6 f)) (Ok "0.0") ;;
  Ok (or_default t "" ++ "|" ++ amt2 ++ "|" ++ or_default loc "" ++ "|"
      ++ or_default merch "" ++ "|" ++ or_default stat "").

(** [m.split("|", 4)]: [None] has no [split]. *)
Definition meta_split (m : option string) : result (list string) :=
  match m with
  | Some s => Ok (split "|" 4 s)
  | None => Raise AttributeError
  end.

(** [meta_get_time(m)]. *)
Definition meta_get_time (m : option string) : result string :=
  if truthy m then parts <- meta_split m ;; index parts 0 else Ok "".

(** [meta_get_amount(m)]. *)
Definition meta_get_amount (m : option string) : result float :=
  try_except
    (parts <- meta_split m ;; p <- index parts 1 ;; float_of_string p)
    (Ok 0%float).

(** [meta_get_location(m)]. *)
Definition meta_get_location (m : option string) : result string :=
  try_except (parts <- meta_split m ;; index parts 2) (Ok "").

(** [meta_get_merchant(m)]. *)
Definition meta_get_merchant (m : option string) : result string :=
  try_except (parts <- meta_split m ;; index parts 3) (Ok "").

(** [meta_get_status(m)]. *)
Definition meta_get_status (m : option string) : result string :=
  try_except (parts <- meta_split m ;; index parts 4) (Ok "").

(** [risk not in (None, "", "None")]. *)
Definition risk_flagged (risk : option string) : bool :=
  match risk with
  | None => false
  | Some r => negb (String.eqb r "") && negb (String.eqb r "None")
  end.

(** [str(risk)] inside an f-string. *)
Definition str_of_opt (s : option string) : string :=
  match s with
  | None => "None"
  | Some x => x
  end.

(** [reasons.append(x)]. *)
Definition append (reasons : list string) (x : string) : list string :=
  List.app reasons [x].

(** [if c: reasons.append(x)]. *)
Definition append_if (c : bool) (reasons : list string) (x : string) : list string :=
  if c then append reasons x else reasons.

(** [rule_based_explanation(amount, vel, cnt, risk, notes, merchant, location)]. *)
Definition rule_based_explanation (amount vel : option float) (cnt : option Z)
    (risk notes merchant location : option string) : result string :=
  c1 <- gt amount 2000 ;;
  c <- (if c1 then Ok true
        else c2 <- gt vel 5000 ;; Ok (if c2 then true else risk_flagged risk)) ;;
  let short := if c then "SUSPICIOUS" else "OK" in
  let reasons := [] in
  a <- gt amount 2000 ;;
  reasons <- (if a then s <- format_opt 2 amount ;;
                        Ok (append reasons ("Single transaction $" ++ s ++ " exceeded threshold."))
              else Ok reasons) ;;
  v <- gt vel 5000 ;;
  reasons <- (if v then s <- format_opt 2 vel ;; n <- int_of cnt ;;
                        Ok (append reasons ("1h velocity $" ++ s ++ " exceeded threshold across "
                                            ++ str_of_Z n ++ " txns."))
              else Ok reasons) ;;
  let reasons :=
    append_if (risk_flagged risk) reasons
      ("Watchlist flag: " ++ str_of_opt risk ++ ". Notes: " ++ or_default notes "N/A") in
  let reasons := append_if (truthy merchant) reasons ("Merchant: " ++ str_of_opt merchant) in
  let reasons := append_if (truthy location) reasons ("Location: " ++ str_of_opt location) in
  let reasons :=
    match reasons with
    | [] => append reasons "No suspicious indicators."
    | _ => reasons
    end in
  Ok ("verdict=" ++ short ++ " || " ++ join " " reasons).

(* ================================================================== *)
(** * The earlier variant of the functions ([copy_backup.py]) *)
(* ================================================================== *)

(** The user-defined functions of [copy_backup.py] ([etvxgxvg.py] has the
    same packer and unpackers): the variant with explicit tests for null
    values and short keys that [app.py] was rewritten from. *)
Module Backup.

(** ["" if x is None else str(x)] for a text column. *)
Definition text_of (x : option string) : string :=
  match x with
  | None => ""
  | Some s => s
  end.

(** [make_meta_str(time_iso_s, amount_num, location, merchant, status)]. *)
Definition make_meta_str (time_iso_s : option string) (amount_num : value)
    (location merchant status : option string) : result string :=
  let t := text_of time_iso_s in
  amt <- try_except (f <- float_of_value amount_num ;; Ok (format_f 6 f)) (Ok "0.0") ;;
  let loc := text_of location in
  let merch := text_of merchant in
  let stat := text_of status in
  Ok (t ++ "|" ++ amt ++ "|" ++ loc ++ "|" ++ merch ++ "|" ++ stat).

(** [meta_get_time(meta)]. *)
Definition meta_get_time (meta : option string) : result string :=
  try_except
    (if negb (truthy meta) then Ok ""
     else parts <- meta_split meta ;; index parts 0)
    (Ok "").

(** [meta_get_amount(meta)]. *)
Definition meta_get_amount (meta : option string) : result float :=
  try_except
    (if negb (truthy meta) then Ok 0%float
     else
       parts <- meta_split meta ;;
       c <- (if (1 <? length parts)%nat
             then p <- index parts 1 ;; Ok (negb (String.eqb p ""))
             else Ok false) ;;
       if c then p <- index parts 1 ;; float_of_string p else Ok 0%float)
    (Ok 0%float).

(** The part of index [i] when [len(parts) > i], the empty text otherwise. *)
Definition part_or_empty (meta : option string) (i : nat) : result string :=
  try_except
    (if negb (truthy meta) then Ok ""
     else
       parts <- meta_split meta ;;
       if (i <? length parts)%nat then index parts i else Ok "")
    (Ok "").

(** [meta_get_location(meta)]. *)
Definition meta_get_location (meta : option string) : result string :=
  part_or_empty meta 2.

(** [meta_get_merchant(meta)]. *)
Definition meta_get_merchant (meta : option string) : result string :=
  part_or_empty meta 3.

(** [meta_get_status(meta)]. *)
Definition meta_get_status (meta : option string) : result string :=
  part_or_empty meta 4.

(** [x is not None and x > c]. *)
Definition exceeds (x : option float) (c : float) : bool :=
  match x with
  | Some f => PrimFloat.ltb c f
  | None => false
  end.

(** [int(vel_count or 0)] for an integer count. *)
Definition count_or_zero (vel_count : option Z) : Z :=
  match vel_count with
  | Some z => z
  | None => 0
  end.

(** The sentence that ends every explanation. *)
Definition recommendation : string :=
  " Recommend: investigate if multiple signals present; "
  ++ "escalate for manual review if watchlist flagged.".

(** [rule_based_explanation(amount, vel_sum, vel_count, risk, notes,
    merchant, location)]. *)
Definition rule_based_explanation (amount vel_sum : option float) (vel_count : option Z)
    (risk notes merchant location : option string) : result string :=
  let short :=
    if exceeds amount 2000 || exceeds vel_sum 5000 || risk_flagged risk
    then "SUSPICIOUS" else "OK" in
  let reasons := [] in
  reasons <- (if exceeds amount 2000
              then s <- format_opt 2 amount ;;
                   Ok (append reasons ("Single-transaction amount $" ++ s
                                       ++ " exceeds 2000 threshold."))
              else Ok reasons) ;;
  reasons <- (if exceeds vel_sum 5000
              then s <- format_opt 2 vel_sum ;;
                   Ok (append reasons ("1h velocity $" ++ s
                                       ++ " exceeds 5000 threshold across "
                                       ++ str_of_Z (count_or_zero vel_count) ++ " txns."))
              else Ok reasons) ;;
  let reasons :=
    append_if (risk_flagged risk) reasons
      ("Watchlist flag: " ++ str_of_opt risk ++ ". Notes: " ++ or_default notes "N/A" ++ ".") in
  let reasons :=
    append_if (truthy merchant) reasons ("Merchant: " ++ str_of_opt merchant ++ ".") in
  let reasons :=
    append_if (truthy location) reasons ("Location: " ++ str_of_opt location ++ ".") in
  let reasons :=
    match reasons with
    | [] => append reasons "No strong rule-based signals, transaction within thresholds."
    | _ => reasons
    end in
  let detailed := join " " reasons ++ recommendation in
  Ok ("verdict=" ++ short ++ " || explanation=" ++ detailed).

End Backup.

(* ================================================================== *)
(** * The tables of [app.py] *)
(* ================================================================== *)

(** [TxSchema]: a row of the transaction stream. *)
Module Tx.
Record row : Type := mk
  { time : string; user_id : string; amount : string;
    merchant : string; location : string; status : string }.
End Tx.

(** [WatchSchema]: a row of the watchlist. *)
Module Watch.
Record row : Type := mk
  { entity_id : string; risk_level : string; notes : string }.
End Watch.

(** A row of [transactions]: the raw columns and the typed ones. *)
Module Typed.
Record row : Type := mk
  { raw : Tx.row; amount_f : float; time_str : string; parsed_time : Z }.
End Typed.

(** A row of [t_stream]. *)
Module Stream.
Record row : Type := mk { typed : Typed.row; tx_meta : string }.
Definition user_id (r : row) : string := Tx.user_id (Typed.raw (typed r)).
Definition amount_f (r : row) : float := Typed.amount_f (typed r).
Definition parsed_time (r : row) : Z := Typed.parsed_time (typed r).
End Stream.

(** A row of [window_stats] after the reduction: one per user, the windowed
    table being grouped again by [user_id]; the reduction keeps [user_id]
    and the three reduced columns. *)
Module Win.
Record row : Type := mk
  { user_id : string;
    velocity_sum_1h : float; velocity_count_1h : Z; latest_meta : string }.
End Win.

(** A row of [window_stats] with the average. *)
Module Avg.
Record row : Type := mk { stats : Win.row; velocity_avg_1h : float }.
End Avg.

(** A row of [unpacked]. *)
Module Unpacked.
Record row : Type := mk
  { win : Avg.row; latest_time : string; latest_amount : float;
    latest_location : string; latest_merchant : string; latest_status : string }.
Definition user_id (r : row) : string := Win.user_id (Avg.stats (win r)).
End Unpacked.

(** A row of [full_context] as the join selects it. *)
Module Ctx.
Record row : Type := mk
  { user_id : string; latest_time : string; amount : float;
    location : string; merchant : string; status : string;
    velocity_avg_1h : float; velocity_count_1h : Z;
    watchlist_risk : option string; watchlist_notes : option string }.
End Ctx.

(** A row of [full_context] with the re-typed numeric columns. *)
Module Full.
Record row : Type := mk { ctx : Ctx.row; amount_f : float; velocity_avg_f : float }.
End Full.

(** A row of [final_results]. *)
Module Out.
Record row : Type := mk
  { time : string; user_id : string; amount : float; velocity_avg_1h : float;
    watchlist_risk : option string; analysis : string }.

(** The columns [final_results] selects, in their order. *)
Definition columns : list string :=
  ["time"; "user_id"; "amount"; "velocity_avg_1h"; "watchlist_risk"; "analysis"].
End Out.

(* ================================================================== *)
(** * The pipeline of [app.py] *)
(* ================================================================== *)

Section Pipeline.

(** [time.dt.strptime("%Y-%m-%dT%H:%M:%S")], in seconds since the epoch:
    the engine's parser, which fails on a text of another shape. *)
Variable strptime : string -> result Z.

(** [transactions]. *)
Definition transactions (raw_tx : list Tx.row) : result (list Typed.row) :=
  mapM (fun r =>
          a <- safe_float (VStr (Tx.amount r)) ;;
          t <- strptime (Tx.time r) ;;
          Ok (Typed.mk r a (Tx.time r) t))
       raw_tx.

(** [t_stream]. *)
Definition t_stream (transactions : list Typed.row) : result (list Stream.row) :=
  mapM (fun r =>
          m <- make_meta_str (Some (Typed.time_str r)) (VFloat (Typed.amount_f r))
                 (Some (Tx.location (Typed.raw r))) (Some (Tx.merchant (Typed.raw r)))
                 (Some (Tx.status (Typed.raw r))) ;;
          Ok (Stream.mk r m))
       transactions.

(** The user of a row of the windowed stream. *)
Definition windowed_user (wr : Z * Z * Stream.row) : string := Stream.user_id (snd wr).

(** The reduction of the group of one user: every row of the windowed
    stream with that [user_id], whatever its window is. *)
Definition reduce (wt : list (Z * Z * Stream.row)) (user : string) : Win.row :=
  let g := map snd (Pw.group windowed_user wt user) in
  Win.mk user
    (Pw.reducers_sum (map Stream.amount_f g))
    (Pw.reducers_count (map Stream.amount_f g))
    (Pw.reducers_max (map Stream.tx_meta g)).

(** [window_stats] for a sliding window of any origin, duration and hop:
    [windowby], then [groupby(user_id)], then [reduce]. *)
Definition window_stats_sliding (origin hop duration : Z) (t_stream : list Stream.row)
  : list Win.row :=
  let wt := Pw.windowby Stream.parsed_time origin hop duration t_stream in
  map (reduce wt) (Pw.group_keys windowed_user wt).

(** [window_stats]: 60 minutes sliding by 1 minute. *)
Definition window_stats (t_stream : list Stream.row) : list Win.row :=
  window_stats_sliding Pw.default_origin 60 3600 t_stream.

(** The expression of the column [velocity_avg_1h]. *)
Definition velocity_avg_1h (velocity_sum_1h : float) (velocity_count_1h : Z)
  : result float :=
  Pw.div velocity_sum_1h (Pw.float_of_int velocity_count_1h + 1e-9)%float.

(** [window_stats] with the average (the second binding of the name). *)
Definition window_stats_avg (window_stats : list Win.row) : result (list Avg.row) :=
  mapM (fun w =>
          a <- velocity_avg_1h (Win.velocity_sum_1h w) (Win.velocity_count_1h w) ;;
          Ok (Avg.mk w a))
       window_stats.

(** [unpacked]. *)
Definition unpacked (window_stats : list Avg.row) : result (list Unpacked.row) :=
  mapM (fun w =>
          let m := Some (Win.latest_meta (Avg.stats w)) in
          t <- meta_get_time m ;;
          a <- meta_get_amount m ;;
          l <- meta_get_location m ;;
          mc <- meta_get_merchant m ;;
          s <- meta_get_status m ;;
          Ok (Unpacked.mk w t a l mc s))
       window_stats.

(** The projection [select] makes of a pair of the join. *)
Definition select_context (lr : Unpacked.row * option Watch.row) : Ctx.row :=
  let l := fst lr in
  let r := snd lr in
  Ctx.mk (Unpacked.user_id l) (Unpacked.latest_time l) (Unpacked.latest_amount l)
    (Unpacked.latest_location l) (Unpacked.latest_merchant l)
    (Unpacked.latest_status l)
    (Avg.velocity_avg_1h (Unpacked.win l))
    (Win.velocity_count_1h (Avg.stats (Unpacked.win l)))
    (option_map Watch.risk_level r) (option_map Watch.notes r).

(** [full_context]: the left join with the watchlist and its projection. *)
Definition full_context (unpacked : list Unpacked.row) (watchlist : list Watch.row)
  : list Ctx.row :=
  map select_context
    (Pw.join_left Unpacked.user_id Watch.entity_id unpacked watchlist).

(** [full_context] with the re-typed numeric columns (the second binding). *)
Definition full_context_typed (full_context : list Ctx.row) : result (list Full.row) :=
  mapM (fun c =>
          a <- safe_float (VFloat (Ctx.amount c)) ;;
          v <- safe_float (VFloat (Ctx.velocity_avg_1h c)) ;;
          Ok (Full.mk c a v))
       full_context.

(** The predicate of the filter [alerts_trigger]. *)
Definition trigger (r : Full.row) : bool :=
  PrimFloat.ltb 2000 (Full.amount_f r)
  || PrimFloat.ltb 5000 (Full.velocity_avg_f r)
  || negb (Pw.is_none (Ctx.watchlist_risk (Full.ctx r))).

(** [alerts_trigger]. *)
Definition alerts_trigger (full_context : list Full.row) : list Full.row :=
  filter trigger full_context.

(** [analysis_col]. *)
Definition analysis_col (r : Full.row) : result string :=
  rule_based_explanation
    (Some (Full.amount_f r)) (Some (Full.velocity_avg_f r))
    (Some (Ctx.velocity_count_1h (Full.ctx r)))
    (Ctx.watchlist_risk (Full.ctx r)) (Ctx.watchlist_notes (Full.ctx r))
    (Some (Ctx.merchant (Full.ctx r))) (Some (Ctx.location (Full.ctx r))).

(** [final_results]. *)
Definition final_results (alerts_trigger : list Full.row) : result (list Out.row) :=
  mapM (fun r =>
          a <- analysis_col r ;;
          Ok (Out.mk (Ctx.latest_time (Full.ctx r)) (Ctx.user_id (Full.ctx r))
                (Full.amount_f r) (Full.velocity_avg_f r)
                (Ctx.watchlist_risk (Full.ctx r)) a))
       alerts_trigger.

(** The aggregates the join reads, from the transaction stream. *)
Definition aggregates (raw_tx : list Tx.row) : result (list Unpacked.row) :=
  tr <- transactions raw_tx ;;
  ts <- t_stream tr ;;
  ws <- window_stats_avg (window_stats ts) ;;
  unpacked ws.

(** The joined, re-typed records the filter reads, from the two inputs. *)
Definition joined (raw_tx : list Tx.row) (watchlist : list Watch.row)
  : result (list Full.row) :=
  un <- aggregates raw_tx ;;
  full_context_typed (full_context un watchlist).

(** The whole pipeline: the rows written to [suspicious_alerts.csv]. *)
Definition pipeline (raw_tx : list Tx.row) (watchlist : list Watch.row)
  : result (list Out.row) :=
  fc <- joined raw_tx watchlist ;;
  final_results (alerts_trigger fc).

End Pipeline.

(* ================================================================== *)
(** * A timestamp parser for the format of the stream *)
(* ================================================================== *)

(** Days from 1970-01-01 to the civil date [y-m-d] (proleptic Gregorian). *)
Definition days_from_civil (y m d : Z) : Z :=
  let y' := if m <=? 2 then y - 1 else y in
  let era := y' / 400 in
  let yoe := y' - era * 400 in
  let mp := (m + 9) mod 12 in
  let doy := (153 * mp + 2) / 5 + d - 1 in
  let doe := yoe * 365 + yoe / 4 - yoe / 100 + doy in
  era * 146097 + doe - 719468.

(** Whether every character is a decimal digit. *)
Definition all_digits (l : list ascii) : bool := forallb is_digit l.

(** The number a list of digits writes. *)
Definition number (l : list ascii) : Z :=
  fold_left (fun acc c => 10 * acc + Z.of_N (digit_val c)) l 0.

(** Leap years of the Gregorian calendar. *)
Definition is_leap (y : Z) : bool :=
  (y mod 4 =? 0) && (negb (y mod 100 =? 0) || (y mod 400 =? 0)).

(** The number of days of month [m] of year [y]. *)
Definition days_in_month (y m : Z) : Z :=
  if m =? 2 then (if is_leap y then 29 else 28)
  else if (m =? 4) || (m =? 6) || (m =? 9) || (m =? 11) then 30 else 31.

(** The parser the worked inputs are run with: the format
    ["%Y-%m-%dT%H:%M:%S"] on a well-formed time, that is the fixed-width
    text [YYYY-MM-DDTHH:MM:SS] of a date of the calendar, for which it gives
    the seconds since the epoch.  It is not the engine's [strptime] on other
    texts: it refuses them all, where the engine accepts some (fields
    without padding, a second of 60) and has its own result on a date that
    is not of the calendar.  The pipeline is stated for any parser
    ([strptime] of the section above); this one is applied to well-formed
    times only. *)
Definition strptime_iso (s : string) : result Z :=
  match list_ascii_of_string s with
  | [y1; y2; y3; y4; c1; m1; m2; c2; d1; d2; c3; h1; h2; c4; n1; n2; c5; s1; s2] =>
      let y := number [y1; y2; y3; y4] in
      let m := number [m1; m2] in
      let d := number [d1; d2] in
      let h := number [h1; h2] in
      let n := number [n1; n2] in
      let sec := number [s1; s2] in
      if all_digits [y1; y2; y3; y4; m1; m2; d1; d2; h1; h2; n1; n2; s1; s2]
         && Ascii.eqb c1 "-" && Ascii.eqb c2 "-" && Ascii.eqb c3 "T"
         && Ascii.eqb c4 ":" && Ascii.eqb c5 ":"
         && (1 <=? m) && (m <=? 12) && (1 <=? d) && (d <=? days_in_month y m)
         && (h <=? 23) && (n <=? 59) && (sec <=? 59)
      then Ok (days_from_civil y m d * 86400 + h * 3600 + n * 60 + sec)
      else Raise ValueError
  | _ => Raise ValueError
  end.

(* ================================================================== *)
(** * What the specification says, in its own words *)
(* ================================================================== *)

(** The three trigger predicates of the alert rule (specification, 4.4). *)
Definition spec_trigger (amount velocity : float) (risk : option string) : bool :=
  PrimFloat.ltb 2000 amount || PrimFloat.ltb 5000 velocity || risk_flagged risk.

(** The verdict of the rule engine. *)
Definition spec_verdict (amount velocity : float) (risk : option string) : string :=
  if spec_trigger amount velocity risk then "SUSPICIOUS" else "OK".

(** A reason fragment, present when its condition holds. *)
Definition fragment (c : bool) (text : string) : list string :=
  if c then [text] else [].

(** The reason fragments in the order of the contract: amount, velocity,
    watchlist, merchant, location. *)
Definition spec_fragments (amount velocity : float) (count : Z)
    (risk notes merchant location : option string) : list string :=
  (fragment (PrimFloat.ltb 2000 amount)
     ("Single transaction $" ++ format_f 2 amount ++ " exceeded threshold.")
   ++ fragment (PrimFloat.ltb 5000 velocity)
        ("1h velocity $" ++ format_f 2 velocity ++ " exceeded threshold across "
         ++ str_of_Z count ++ " txns.")
   ++ fragment (risk_flagged risk)
        ("Watchlist flag: " ++ str_of_opt risk ++ ". Notes: " ++ or_default notes "N/A")
   ++ fragment (truthy merchant) ("Merchant: " ++ str_of_opt merchant)
   ++ fragment (truthy location) ("Location: " ++ str_of_opt location))%list.

Definition fallback : string := "No suspicious indicators.".

(** The explanation: the fragments joined by a space, or the fallback. *)
Definition spec_explanation (fragments : list string) : string :=
  match fragments with
  | [] => fallback
  | _ => join " " fragments
  end.

(** The analysis string ["verdict=<SUSPICIOUS|OK> || <explanation>"]. *)
Definition spec_analysis (amount velocity : float) (count : Z)
    (risk notes merchant location : option string) : string :=
  "verdict=" ++ spec_verdict amount velocity risk ++ " || "
  ++ spec_explanation (spec_fragments amount velocity count risk notes merchant location).

(** The projection [final_results] makes of an alerted record. *)
Definition spec_output (r : Full.row) : Out.row :=
  let c := Full.ctx r in
  Out.mk (Ctx.latest_time c) (Ctx.user_id c) (Full.amount_f r) (Full.velocity_avg_f r)
    (Ctx.watchlist_risk c)
    (spec_analysis (Full.amount_f r) (Full.velocity_avg_f r) (Ctx.velocity_count_1h c)
       (Ctx.watchlist_risk c) (Ctx.watchlist_notes c)
       (Some (Ctx.merchant c)) (Some (Ctx.location c))).

(** The watchlist entries of the user of an aggregate. *)
Definition matches (u : Unpacked.row) (watchlist : list Watch.row) : list Watch.row :=
  filter (fun w => String.eqb (Unpacked.user_id u) (Watch.entity_id w)) watchlist.

(** Whether a transaction is of user [u] and its time falls in [[s, e)]. *)
Definition in_window (s e : Z) (u : string) (r : Stream.row) : bool :=
  String.eqb (Stream.user_id r) u
  && (s <=? Stream.parsed_time r) && (Stream.parsed_time r <? e).

(** The transactions of user [u] whose time falls in [[s, e)], in the order
    of the stream. *)
Definition window_txs (s e : Z) (u : string) (ts : list Stream.row) : list Stream.row :=
  filter (in_window s e u) ts.

(** The aggregate the specification describes for the window starting at
    [s] and user [u]: the sum, the count and the greatest key of the
    transactions of [u] in the window. *)
Definition spec_aggregate (duration s : Z) (u : string) (ts : list Stream.row) : Win.row :=
  let txs := window_txs s (s + duration) u ts in
  Win.mk u
    (Pw.reducers_sum (map Stream.amount_f txs))
    (Z.of_nat (length txs))
    (Pw.reducers_max (map Stream.tx_meta txs)).

(** The composite key of a typed transaction. *)
Definition spec_key (r : Typed.row) : string :=
  Typed.time_str r ++ "|" ++ format_f 6 (Typed.amount_f r) ++ "|"
  ++ Tx.location (Typed.raw r) ++ "|" ++ Tx.merchant (Typed.raw r) ++ "|"
  ++ Tx.status (Typed.raw r).

(** [x] rounded to [p] decimals: the float nearest to the decimal numeral
    that is nearest to [x] (ties to even both times); the special values
    and the zeros are kept. *)
Definition round_decimals (p : nat) (x : float) : float :=
  match Prim2SF x with
  | S754_finite s m e =>
      SF2Prim (nearest_binary64 s (Z.of_N (scaled p m e)) (10 ^ Z.of_nat p))
  | _ => x
  end.

(** [x] has at most [p] decimals: [x * 10^p] is an integer. *)
Definition exact_decimals (p : nat) (x : float) : Prop :=
  match Prim2SF x with
  | S754_finite s m e =>
      (Zpos m * 10 ^ Z.of_nat p * 2 ^ Z.max e 0) mod 2 ^ Z.max (- e) 0 = 0
  | _ => True
  end.

(** [max(a, b)] on floats. *)
Definition float_max (a b : float) : float := if PrimFloat.ltb a b then b else a.

(** The average as the specification writes it:
    [sum_amount / max(count, epsilon)]. *)
Definition spec_velocity_avg (sum : float) (count : Z) : float :=
  (sum / float_max (Pw.float_of_int count) 1e-9)%float.

(** The average as [app.py] writes it: [sum / (count + 1e-9)]. *)
Definition code_velocity_avg (sum : float) (count : Z) : float :=
  (sum / (Pw.float_of_int count + 1e-9))%float.

(* ================================================================== *)
(** * Auxiliary definitions of the proofs *)
(* ================================================================== *)

(** The windowed stream of [window_stats]. *)
Definition windowed (origin hop duration : Z) (ts : list Stream.row) :=
  Pw.windowby Stream.parsed_time origin hop duration ts.

(** The transactions of user [u], in the order of the stream. *)
Definition user_txs (u : string) (ts : list Stream.row) : list Stream.row :=
  filter (fun r => String.eqb (Stream.user_id r) u) ts.

(** Every row sixty times in a row. *)
Definition sixty_fold {A} (l : list A) : list A := flat_map (fun r => repeat r 60) l.

(** The aggregate of user [u]: the sum, the count and the greatest key of
    the transactions of [u], each taken sixty times. *)
Definition user_aggregate (u : string) (ts : list Stream.row) : Win.row :=
  let txs := sixty_fold (user_txs u ts) in
  Win.mk u
    (Pw.reducers_sum (map Stream.amount_f txs))
    (Pw.reducers_count (map Stream.amount_f txs))
    (Pw.reducers_max (map Stream.tx_meta txs)).

(** Whether a string has a whitespace character. *)
Fixpoint has_space (s : string) : bool :=
  match s with
  | EmptyString => false
  | String c s' => is_space c || has_space s'
  end.

(** A string that does not go on with a digit or an underscore. *)
Definition ends_digits (rest : string) : Prop :=
  match rest with
  | EmptyString => True
  | String c _ => is_digit c = false /\ Ascii.eqb c "_" = false
  end.

(** The number of occurrences of a character in a string. *)
Fixpoint occurrences (c : ascii) (s : string) : nat :=
  match s with
  | EmptyString => O
  | String d s' => if Ascii.eqb d c then S (occurrences c s') else occurrences c s'
  end.

(** Whether every character of a string is whitespace. *)
Fixpoint all_space (s : string) : bool :=
  match s with
  | EmptyString => true
  | String c s' => is_space c && all_space s'
  end.

(** The part of index [i] of a key, the empty text when the key has fewer
    parts. *)
Definition part (i : nat) (s : string) : string := nth i (split "|" 4 s) "".

(** Whether the watchlist has an entry for a user. *)
Definition listed (watchlist : list Watch.row) (user : string) : bool :=
  existsb (fun w => String.eqb user (Watch.entity_id w)) watchlist.

(** What the alert filter amounts to on the joined records: a threshold
    exceeded, or a user with an entry on the watchlist. *)
Definition over_threshold_or_listed (watchlist : list Watch.row) (r : Full.row) : bool :=
  PrimFloat.ltb 2000 (Full.amount_f r)
  || PrimFloat.ltb 5000 (Full.velocity_avg_f r)
  || listed watchlist (Ctx.user_id (Full.ctx r)).

(* ================================================================== *)
(** * Worked inputs *)
(* ================================================================== *)

(** 2024-01-01T10:00:00 in seconds since the epoch. *)
Definition ten_o_clock : Z := 1704103200.

(** A user spending 100 once, listed on the watchlist with the risk level
    ["None"]. *)
Definition unflagged_tx : list Tx.row :=
  [Tx.mk "2024-01-01T10:00:00" "u1" "100" "Amazon" "Delhi" "APPROVED"].

(** The watchlist file row [u1,None,]. *)
Definition unflagged_watchlist : list Watch.row :=
  [Watch.mk "u1" "None" ""].

(** A watchlist with two rows for the same entity. *)
Definition duplicated_watchlist : list Watch.row :=
  [Watch.mk "u1" "HIGH" "first"; Watch.mk "u1" "LOW" "second"].

(** The aggregate of user [u1], as [unpacked] produces it. *)
Definition sample_aggregate : Unpacked.row :=
  Unpacked.mk
    (Avg.mk
       (Win.mk "u1" 6000 60
          "2024-01-01T10:00:00|100.000000|Delhi|Amazon|APPROVED")
       99.999999998333337)
    "2024-01-01T10:00:00" 100 "Delhi" "Amazon" "APPROVED".

(** The stream rows of a raw input, with the parser [strptime_iso]. *)
Definition stream_of (raw_tx : list Tx.row) : list Stream.row :=
  match (tr <- transactions strptime_iso raw_tx ;; t_stream tr) with
  | Ok ts => ts
  | Raise _ => []
  end.

(** The scenario of the specification: user [u101] spends 500 at 10:00 and
    3000 at 10:30. *)
Definition scenario_tx : list Tx.row :=
  [Tx.mk "2024-01-01T10:00:00" "u101" "500" "Amazon" "Delhi" "APPROVED";
   Tx.mk "2024-01-01T10:30:00" "u101" "3000" "Uber" "Mumbai" "APPROVED"].

(** The stream rows of the scenario. *)
Definition scenario_stream : list Stream.row := stream_of scenario_tx.

(** Two transactions of user [u7] at the same time, of 999.0 and 1000.0. *)
Definition tie_999 : Typed.row :=
  Typed.mk (Tx.mk "2024-01-01T10:00:00" "u7" "999.0" "Amazon" "Delhi" "APPROVED")
    999 "2024-01-01T10:00:00" ten_o_clock.

(** The transaction of 1000.0. *)
Definition tie_1000 : Typed.row :=
  Typed.mk (Tx.mk "2024-01-01T10:00:00" "u7" "1000.0" "Uber" "Mumbai" "DECLINED")
    1000 "2024-01-01T10:00:00" ten_o_clock.

(** The stream rows of the two transactions. *)
Definition tie_stream : list Stream.row :=
  [Stream.mk tie_999 (spec_key tie_999); Stream.mk tie_1000 (spec_key tie_1000)].

(** User [u3] spends 9000 and, 48 hours later, 100. *)
Definition stale_tx : list Tx.row :=
  [Tx.mk "2024-01-01T10:00:00" "u3" "9000" "Amazon" "Delhi" "APPROVED";
   Tx.mk "2024-01-03T10:00:00" "u3" "100" "Uber" "Mumbai" "APPROVED"].

(** User [u5] spends 6000 once. *)
Definition lone_tx : list Tx.row :=
  [Tx.mk "2024-01-01T10:00:00" "u5" "6000" "Amazon" "Delhi" "APPROVED"].

(** A transaction whose amount text is [nan]. *)
Definition nan_tx : list Tx.row :=
  [Tx.mk "2024-01-01T10:00:00" "u9" "500" "Amazon" "Delhi" "APPROVED";
   Tx.mk "2024-01-01T10:05:00" "u9" "nan" "Uber" "Mumbai" "APPROVED";
   Tx.mk "2024-01-01T10:10:00" "u9" "9000" "Uber" "Mumbai" "APPROVED"].

(* ================================================================== *)
(** * Properties *)
(* ================================================================== *)

(** A conjunction of closed equations, each settled by evaluation. *)
Ltac by_computation :=
  repeat match goal with |- _ /\ _ => split end; vm_compute; reflexivity.

(** ** Tables built row by row *)

Lemma mapM_total {A B} (f : A -> result B) (g : A -> B) (l : list A) :
  (forall a, In a l -> f a = Ok (g a)) -> mapM f l = Ok (map g l).
Proof.
  induction l as [|a l IH]; intros H; simpl; [reflexivity|].
  rewrite (H a (or_introl eq_refl)). simpl.
  rewrite IH by (intros b Hb; apply H; right; exact Hb).
  reflexivity.
Qed.

(** A [try] whose handler returns a value returns a value. *)
Lemma try_except_some {A} (body : result A) (d : A) :
  exists v, try_except body (Ok d) = Ok v.
Proof. destruct body; eexists; reflexivity. Qed.

(** ** Amount coercion *)

(** C7. [safe_float] never raises: every input yields a float, which is the
    float parsed from the trimmed text of the input, or exactly [0.0] when
    the input is [None] or when that parse fails. *)
Theorem safe_float_never_fails (x : value) :
  exists f : float,
    safe_float x = Ok f /\
    f = match x with
        | VNone => 0%float
        | _ => match float_of_str_strip x with
               | Ok v => v
               | Raise _ => 0%float
               end
        end.
Proof.
  unfold safe_float, try_except.
  destruct x as [|s|z|f]; simpl.
  - exists 0%float. split; reflexivity.
  - destruct (float_of_string (strip s)) as [v|e]; eexists; split; reflexivity.
  - destruct (bind (str_of_int z) (fun s => float_of_string (strip s))) as [v|e];
      eexists; split; reflexivity.
  - exists f. split; reflexivity.
Qed.

Lemma safe_float_ok (x : value) : exists f, safe_float x = Ok f.
Proof.
  unfold safe_float. apply try_except_some.
Qed.

Example safe_float_padded : safe_float (VStr "  12.50 ") = Ok 12.5%float.
Proof. vm_compute. reflexivity. Qed.

Example safe_float_malformed : safe_float (VStr "12,50") = Ok 0%float.
Proof. vm_compute. reflexivity. Qed.

Example safe_float_empty : safe_float (VStr "") = Ok 0%float.
Proof. vm_compute. reflexivity. Qed.

Example safe_float_none : safe_float VNone = Ok 0%float.
Proof. reflexivity. Qed.

Example safe_float_int : safe_float (VInt 8000) = Ok 8000%float.
Proof. vm_compute. reflexivity. Qed.

(** The text of an integer is parsed like any other numeral: the nearest
    float, ties to even. *)
Example safe_float_int_rounds :
  safe_float (VInt (2 ^ 53 + 1)) = Ok 9007199254740992%float
  /\ safe_float (VInt (- (2 ^ 53 + 3))) = Ok (-9007199254740996)%float.
Proof. by_computation. Qed.

(** [str.strip] removes the separators 28 to 31, which [float] itself does
    not ignore: [safe_float] reads such a text, [meta_get_amount] does not. *)
Example separator_whitespace :
  safe_float (VStr (String (ascii_of_N 28) "1")) = Ok 1%float
  /\ float_of_string (String (ascii_of_N 28) "1") = Raise ValueError
  /\ float_of_string (String (ascii_of_N 160) "1.5 ") = Ok 1.5%float
  /\ meta_get_amount (Some ("t|" ++ String (ascii_of_N 28) "1|a|b|c")) = Ok 0%float
  /\ meta_get_amount (Some "t| 1 |a|b|c") = Ok 1%float.
Proof. by_computation. Qed.

(** [float] reads a decimal numeral as the parser of float literals does. *)
Example float_reads_literals :
  float_of_string "0.1" = Ok 0.1%float
  /\ float_of_string " 1e-9 " = Ok 1e-9%float
  /\ float_of_string "1_000.5" = Ok 1000.5%float
  /\ float_of_string "2.2250738585072014e-308" = Ok 2.2250738585072014e-308%float
  /\ float_of_string "5e-324" = Ok 5e-324%float
  /\ float_of_string "1e400" = Ok infinity
  /\ float_of_string "-Infinity" = Ok neg_infinity
  /\ float_of_string "1.5.2" = Raise ValueError.
Proof. by_computation. Qed.

(** Formatting rounds the exact binary value, ties to even. *)
Example format_f_rounds_exact_value :
  format_f 2 0.125 = "0.12" /\ format_f 2 0.375 = "0.38"
  /\ format_f 2 2.675 = "2.67" /\ format_f 6 (-1e-9) = "-0.000000"
  /\ format_f 6 0.1 = "0.100000" /\ format_f 2 1e22 = "10000000000000000000000.00".
Proof. by_computation. Qed.

(** ** The rule engine *)

(** On numeric arguments the rule engine returns the analysis string of the
    specification. *)
Lemma rule_based_explanation_numeric (a v : float) (c : Z)
    (risk notes merchant location : option string) :
  rule_based_explanation (Some a) (Some v) (Some c) risk notes merchant location
  = Ok (spec_analysis a v c risk notes merchant location).
Proof.
  unfold rule_based_explanation, spec_analysis, spec_verdict, spec_trigger,
    spec_explanation, spec_fragments, fragment, append_if, append, gt,
    format_opt, int_of, bind, fallback.
  destruct (PrimFloat.ltb 2000 a), (PrimFloat.ltb 5000 v), (risk_flagged risk),
    (truthy merchant), (truthy location); reflexivity.
Qed.

Lemma join_cons_head (c : ascii) (s rest : string) (l : list string) :
  exists t, join " " ((String c s ++ rest) :: l) = String c t.
Proof.
  unfold join. destruct l as [|y l]; simpl; eexists; reflexivity.
Qed.

(** The fallback sentence stands for an empty list of fragments only. *)
Lemma fallback_iff (a v : float) (c : Z) (risk notes merchant location : option string) :
  spec_explanation (spec_fragments a v c risk notes merchant location) = fallback
  <-> spec_fragments a v c risk notes merchant location = [].
Proof.
  split.
  - unfold spec_fragments, fragment.
    destruct (PrimFloat.ltb 2000 a), (PrimFloat.ltb 5000 v), (risk_flagged risk),
      (truthy merchant), (truthy location); cbn [List.app]; intros H;
      try reflexivity;
      match type of H with
      | spec_explanation ((String ?ch ?s ++ ?rest) :: ?l) = _ =>
          destruct (join_cons_head ch s rest l) as [t Ht];
          unfold spec_explanation in H; rewrite Ht in H; discriminate H
      end.
  - intros ->. reflexivity.
Qed.

(** C6. For every alerted record the output row carries, in this order, the
    time, the user, the amount, the velocity average, the watchlist risk
    and the analysis ["verdict=<SUSPICIOUS|OK> || <explanation>"], whose
    explanation joins the amount, velocity, watchlist, merchant and location
    fragments that apply, in that order; the fallback sentence is used if
    and only if no fragment applies. *)
Theorem analysis_and_output_format (full_context : list Full.row) :
  final_results (alerts_trigger full_context)
  = Ok (map spec_output (alerts_trigger full_context))
  /\ Out.columns
     = ["time"; "user_id"; "amount"; "velocity_avg_1h"; "watchlist_risk"; "analysis"]
  /\ forall (amount velocity : float) (count : Z)
       (risk notes merchant location : option string),
       let fr := spec_fragments amount velocity count risk notes merchant location in
       (spec_explanation fr = fallback <-> fr = []).
Proof.
  split; [|split].
  - unfold final_results. apply mapM_total. intros r _.
    unfold analysis_col. rewrite rule_based_explanation_numeric. reflexivity.
  - reflexivity.
  - intros a v c risk notes merchant location. apply fallback_iff.
Qed.

Example analysis_all_fragments :
  rule_based_explanation (Some 2500%float) (Some 6000.125%float) (Some 3)
    (Some "HIGH") None (Some "Uber") (Some "Delhi")
  = Ok ("verdict=SUSPICIOUS || Single transaction $2500.00 exceeded threshold. "
        ++ "1h velocity $6000.12 exceeded threshold across 3 txns. "
        ++ "Watchlist flag: HIGH. Notes: N/A Merchant: Uber Location: Delhi").
Proof. vm_compute. reflexivity. Qed.

Example analysis_fallback :
  rule_based_explanation (Some 100%float) (Some 100%float) (Some 1)
    None None (Some "") (Some "")
  = Ok "verdict=OK || No suspicious indicators.".
Proof. vm_compute. reflexivity. Qed.

(** C9 (as stated, refuted). With a null amount the rule engine raises a
    [TypeError] instead of returning an explanation. *)
Lemma rule_engine_null_amount_raises :
  rule_based_explanation None (Some 0%float) (Some 0) None None None None
  = Raise TypeError.
Proof. reflexivity. Qed.

(** C9 (amended). When the amount, the velocity and the count are numbers,
    the rule engine returns an explanation string whatever the risk, the
    notes, the merchant and the location are, null included, and a null
    text is treated as the empty string. *)
Theorem rule_engine_null_text_tolerance (a v : float) (c : Z)
    (risk notes merchant location : option string) :
  let run := rule_based_explanation (Some a) (Some v) (Some c) in
  (exists s, run risk notes merchant location = Ok s)
  /\ run None notes merchant location = run (Some "") notes merchant location
  /\ run risk None merchant location = run risk (Some "") merchant location
  /\ run risk notes None location = run risk notes (Some "") location
  /\ run risk notes merchant None = run risk notes merchant (Some "").
Proof.
  cbv zeta. rewrite !rule_based_explanation_numeric.
  split; [eexists; reflexivity|].
  repeat split; reflexivity.
Qed.

(** ** The alert filter *)

(** What the filter tests: the two thresholds, and a watchlist risk that is
    not null. *)
Lemma trigger_iff (r : Full.row) :
  trigger r = true
  <-> PrimFloat.ltb 2000 (Full.amount_f r) = true
      \/ PrimFloat.ltb 5000 (Full.velocity_avg_f r) = true
      \/ Ctx.watchlist_risk (Full.ctx r) <> None.
Proof.
  unfold trigger, Pw.is_none. rewrite !orb_true_iff.
  destruct (Ctx.watchlist_risk (Full.ctx r)); simpl; intuition congruence.
Qed.

(** The filter fires whenever a predicate of the specification holds, and
    also, with both amounts at or below their thresholds, on a watchlist
    risk that is the empty text or the text ["None"]; nowhere else. *)
Lemma trigger_differs_iff (r : Full.row) :
  let a := Full.amount_f r in
  let v := Full.velocity_avg_f r in
  let risk := Ctx.watchlist_risk (Full.ctx r) in
  (spec_trigger a v risk = true -> trigger r = true)
  /\ (trigger r = true /\ spec_trigger a v risk = false
      <-> PrimFloat.ltb 2000 a = false /\ PrimFloat.ltb 5000 v = false
          /\ (risk = Some "" \/ risk = Some "None")).
Proof.
  cbv zeta. unfold trigger, spec_trigger, risk_flagged, Pw.is_none.
  destruct (PrimFloat.ltb 2000 (Full.amount_f r)),
    (PrimFloat.ltb 5000 (Full.velocity_avg_f r)),
    (Ctx.watchlist_risk (Full.ctx r)) as [x|]; cbn [orb negb andb];
    try (destruct (String.eqb_spec x ""), (String.eqb_spec x "None"); subst;
         cbn [negb andb]);
    intuition congruence.
Qed.

(** C1 (the code at the failing input). Every joined record of the
    unflagged user has its three signals below the conditions of the
    specification, and the filter lets each of them through. *)
Theorem trigger_fires_on_unflagged_entry :
  exists rows,
    joined strptime_iso unflagged_tx unflagged_watchlist = Ok rows
    /\ rows <> []
    /\ Forall (fun r =>
                 spec_trigger (Full.amount_f r) (Full.velocity_avg_f r)
                   (Ctx.watchlist_risk (Full.ctx r)) = false
                 /\ trigger r = true)
              rows.
Proof.
  eexists. split; [vm_compute; reflexivity|].
  split; [discriminate|].
  repeat (constructor; [split; vm_compute; reflexivity|]).
  constructor.
Qed.

(** The analysis begins with [verdict=SUSPICIOUS] exactly when a predicate
    of the specification holds. *)
Lemma verdict_suspicious_iff (a v : float) (c : Z)
    (risk notes merchant location : option string) :
  String.prefix "verdict=SUSPICIOUS" (spec_analysis a v c risk notes merchant location)
  = spec_trigger a v risk.
Proof.
  unfold spec_analysis, spec_verdict.
  destruct (spec_trigger a v risk); reflexivity.
Qed.

(** C2 (the code at the failing input). The rows written for the unflagged
    user all carry the verdict [OK]. *)
Theorem sink_receives_ok_verdict :
  exists rows,
    pipeline strptime_iso unflagged_tx unflagged_watchlist = Ok rows
    /\ rows <> []
    /\ Forall (fun r =>
                 Out.analysis r = "verdict=OK || Merchant: Amazon Location: Delhi"
                 /\ String.prefix "verdict=SUSPICIOUS" (Out.analysis r) = false)
              rows.
Proof.
  eexists. split; [vm_compute; reflexivity|].
  split; [discriminate|].
  repeat (constructor; [split; vm_compute; reflexivity|]).
  constructor.
Qed.

(** ** The watchlist join *)

Lemma full_context_one (u : Unpacked.row) (wl : list Watch.row) :
  full_context [u] wl
  = match matches u wl with
    | [] => [select_context (u, None)]
    | ms => map (fun w => select_context (u, Some w)) ms
    end.
Proof.
  unfold full_context, Pw.join_left, matches. simpl. rewrite app_nil_r.
  destruct (filter _ wl) as [|w ms]; [reflexivity|].
  simpl. rewrite map_map. reflexivity.
Qed.

Lemma full_context_flat (unp : list Unpacked.row) (wl : list Watch.row) :
  full_context unp wl = flat_map (fun u => full_context [u] wl) unp.
Proof.
  unfold full_context, Pw.join_left.
  induction unp as [|u unp IH]; [reflexivity|].
  cbn [flat_map]. rewrite map_app, IH, app_nil_r. reflexivity.
Qed.

(** With distinct keys, at most one watchlist entry matches a user. *)
Lemma matches_unique (u : Unpacked.row) (wl : list Watch.row) :
  NoDup (map Watch.entity_id wl) ->
  matches u wl = [] \/ exists w, matches u wl = [w].
Proof.
  unfold matches. induction wl as [|w wl IH]; intros Hnd; [left; reflexivity|].
  simpl in *. inversion Hnd as [|x l Hnotin Hnd']; subst.
  destruct (String.eqb_spec (Unpacked.user_id u) (Watch.entity_id w)) as [Heq|Hne].
  - right. exists w. f_equal.
    destruct (filter _ wl) as [|w' ms] eqn:Hf; [reflexivity|].
    exfalso. apply Hnotin.
    assert (Hin : In w' (filter (fun w0 => String.eqb (Unpacked.user_id u)
                                             (Watch.entity_id w0)) wl))
      by (rewrite Hf; left; reflexivity).
    apply filter_In in Hin. destruct Hin as [Hin Hk].
    apply String.eqb_eq in Hk. rewrite <- Heq, Hk. apply in_map. exact Hin.
  - apply IH. exact Hnd'.
Qed.

(** C8 (amended). No window aggregate is dropped by the join: each one
    yields one joined record with a null risk and null notes when no
    watchlist entry has its user, and one joined record per matching entry,
    with that entry's risk and notes, otherwise; hence exactly one joined
    record per aggregate when the watchlist has one row per entity. *)
Theorem join_keeps_every_aggregate (unp : list Unpacked.row) (wl : list Watch.row) :
  full_context unp wl = flat_map (fun u => full_context [u] wl) unp
  /\ (forall u,
        full_context [u] wl <> []
        /\ (matches u wl = [] ->
            full_context [u] wl = [select_context (u, None)]
            /\ Ctx.watchlist_risk (select_context (u, None)) = None
            /\ Ctx.watchlist_notes (select_context (u, None)) = None)
        /\ (matches u wl <> [] ->
            full_context [u] wl = map (fun w => select_context (u, Some w)) (matches u wl))
        /\ (forall w,
              Ctx.watchlist_risk (select_context (u, Some w)) = Some (Watch.risk_level w)
              /\ Ctx.watchlist_notes (select_context (u, Some w)) = Some (Watch.notes w)))
  /\ (NoDup (map Watch.entity_id wl) ->
      length (full_context unp wl) = length unp
      /\ forall u, exists c, full_context [u] wl = [c]).
Proof.
  split; [apply full_context_flat|]. split.
  - intros u. rewrite full_context_one.
    split; [destruct (matches u wl); discriminate|].
    split; [intros ->; repeat split|].
    split; [destruct (matches u wl); [congruence|reflexivity]|].
    intros w. split; reflexivity.
  - intros Hnd.
    assert (Hone : forall u, exists c, full_context [u] wl = [c]).
    { intros u. rewrite full_context_one.
      destruct (matches_unique u wl Hnd) as [->|[w ->]]; eexists; reflexivity. }
    split; [|exact Hone].
    rewrite full_context_flat.
    induction unp as [|u unp IH]; [reflexivity|].
    simpl. rewrite length_app, IH.
    destruct (Hone u) as [c ->]. reflexivity.
Qed.

(** C8 (as stated, refuted). With two watchlist rows for one entity, a
    window aggregate of that user yields two joined records. *)
Lemma duplicate_entries_duplicate_records :
  exists u rest,
    aggregates strptime_iso unflagged_tx = Ok (u :: rest)
    /\ length (full_context [u] duplicated_watchlist) = 2%nat.
Proof.
  eexists. eexists. split; vm_compute; reflexivity.
Qed.

Lemma join_keeps_every_aggregate_witness :
  NoDup (map Watch.entity_id unflagged_watchlist)
  /\ matches sample_aggregate unflagged_watchlist <> []
  /\ length (full_context [sample_aggregate] unflagged_watchlist) = 1%nat
  /\ full_context [sample_aggregate] unflagged_watchlist
     = map (fun w => select_context (sample_aggregate, Some w))
         (matches sample_aggregate unflagged_watchlist).
Proof.
  assert (Hnd : NoDup (map Watch.entity_id unflagged_watchlist)).
  { simpl. constructor; [intros []|constructor]. }
  assert (Hm : matches sample_aggregate unflagged_watchlist <> []).
  { vm_compute. discriminate. }
  destruct (join_keeps_every_aggregate [sample_aggregate] unflagged_watchlist)
    as [_ [Hrow Huniq]].
  split; [exact Hnd|]. split; [exact Hm|]. split.
  - exact (proj1 (Huniq Hnd)).
  - exact (proj1 (proj2 (proj2 (Hrow sample_aggregate))) Hm).
Defined.

(** ** Sliding windows *)

Lemma range_In (a b k : Z) : In k (Pw.range a b) <-> a <= k < b.
Proof.
  unfold Pw.range. rewrite in_map_iff. split.
  - intros [i [<- Hi]]. apply in_seq in Hi. lia.
  - intros H. exists (Z.to_nat (k - a)). split; [lia|]. apply in_seq. lia.
Qed.

Lemma range_NoDup (a b : Z) : NoDup (Pw.range a b).
Proof.
  unfold Pw.range. apply Injective_map_NoDup; [|apply seq_NoDup].
  intros i j H. lia.
Qed.

(** A key belongs to the windows that start on a multiple of the hop, last
    for the duration and contain it; no window is assigned twice. *)
Lemma assign_windows_In (origin hop duration key s e : Z) :
  0 < hop ->
  In (s, e) (Pw.assign_windows origin hop duration key)
  <-> ((s - origin) mod hop = 0 /\ e = s + duration /\ s <= key < e).
Proof.
  intros Hhop. unfold Pw.assign_windows. rewrite filter_In, in_map_iff. simpl.
  rewrite andb_true_iff, Z.leb_le, Z.ltb_lt. split.
  - intros [[k [Hk _]] Hb]. injection Hk as <- <-.
    replace (k * hop + origin - origin) with (k * hop) by lia.
    rewrite Z.mod_mul by lia. lia.
  - intros (Hmod & -> & Hin). split; [|lia].
    exists ((s - origin) / hop).
    assert (Hs : s - origin = (s - origin) / hop * hop).
    { rewrite (Z.div_mod (s - origin) hop) at 1 by lia. rewrite Hmod. lia. }
    split; [f_equal; lia|].
    apply range_In.
    pose proof (Z.mul_div_le (key - origin) hop Hhop).
    pose proof (Z.mul_succ_div_gt (key - origin) hop Hhop).
    pose proof (Z.mul_div_le duration hop Hhop).
    pose proof (Z.mul_succ_div_gt duration hop Hhop).
    nia.
Qed.

Lemma assign_windows_NoDup (origin hop duration key : Z) :
  0 < hop -> NoDup (Pw.assign_windows origin hop duration key).
Proof.
  intros Hhop. unfold Pw.assign_windows. apply NoDup_filter.
  apply Injective_map_NoDup; [|apply range_NoDup].
  intros i j H. injection H as H _. nia.
Qed.

Lemma assign_windows_sixty (origin t : Z) :
  length (Pw.assign_windows origin 60 3600 t) = 60%nat.
Proof.
  set (q := (t - origin) / 60).
  set (g := fun k : Z => (k * 60 + origin, k * 60 + 3600 + origin)).
  assert (Hperm : Permutation (Pw.assign_windows origin 60 3600 t)
                    (map g (Pw.range (q - 59) (q + 1)))).
  { apply NoDup_Permutation.
    - apply assign_windows_NoDup. lia.
    - apply Injective_map_NoDup; [|apply range_NoDup].
      intros i j H. unfold g in H. injection H as H _. lia.
    - intros [s e]. rewrite assign_windows_In by lia. rewrite in_map_iff.
      unfold g, q. split.
      + intros (Hmod & -> & Hin). exists ((s - origin) / 60). split.
        * f_equal; Z.div_mod_to_equations; lia.
        * apply range_In. Z.div_mod_to_equations. lia.
      + intros [k [Hk Hr]]. injection Hk as <- <-. apply range_In in Hr.
        replace (k * 60 + origin - origin) with (k * 60) by lia.
        rewrite Z.mod_mul by lia. Z.div_mod_to_equations. lia. }
  rewrite (Permutation_length Hperm), length_map.
  unfold Pw.range. rewrite length_map, length_seq. lia.
Qed.

Lemma flat_map_length_const {A B} (f : A -> list B) (k : nat) (l : list A) :
  (forall a, length (f a) = k) -> length (flat_map f l) = (k * length l)%nat.
Proof.
  intros H. induction l as [|a l IH]; simpl; [lia|].
  rewrite length_app, H, IH. lia.
Qed.

Lemma sixty_fold_In {A} (x : A) (l : list A) : In x (sixty_fold l) <-> In x l.
Proof.
  unfold sixty_fold. rewrite in_flat_map. split.
  - intros [r [Hr Hx]]. apply repeat_spec in Hx. subst. exact Hr.
  - intros H. exists x. split; [exact H|]. left. reflexivity.
Qed.

Lemma sixty_fold_length {A} (l : list A) :
  length (sixty_fold l) = (60 * length l)%nat.
Proof.
  unfold sixty_fold. apply flat_map_length_const. intros a. apply repeat_length.
Qed.

Lemma sixty_fold_map {A B} (f : A -> B) (l : list A) :
  map f (sixty_fold l) = sixty_fold (map f l).
Proof.
  unfold sixty_fold. induction l as [|a l IH]; [reflexivity|].
  cbn [flat_map map]. rewrite map_app, map_repeat, IH. reflexivity.
Qed.

Lemma sixty_fold_nil {A} (l : list A) : sixty_fold l = [] -> l = [].
Proof. destruct l; [reflexivity|discriminate]. Qed.

(** Grouping by a value does not see how often a row is repeated. *)
Lemma nodup_sixty_fold (l : list string) :
  nodup string_dec (sixty_fold l) = nodup string_dec l.
Proof.
  assert (Hrep : forall (a : string) n rest,
            nodup string_dec (repeat a (S n) ++ rest) = nodup string_dec (a :: rest)).
  { intros a n rest. induction n as [|n IH]; [reflexivity|].
    change (repeat a (S (S n)) ++ rest)%list with (a :: (repeat a (S n) ++ rest)).
    cbn [nodup]. destruct (in_dec string_dec a (repeat a (S n) ++ rest)) as [_|Hn].
    - exact IH.
    - exfalso. apply Hn. left. reflexivity. }
  induction l as [|a l IH]; [reflexivity|].
  change (sixty_fold (a :: l)) with (repeat a 60 ++ sixty_fold l)%list.
  rewrite Hrep. cbn [nodup]. rewrite IH.
  destruct (in_dec string_dec a (sixty_fold l)) as [H|H],
           (in_dec string_dec a l) as [H'|H']; try reflexivity; exfalso.
  - apply H', sixty_fold_In, H.
  - apply H, sixty_fold_In, H'.
Qed.

(** The copies of one row in the group of a user: all of them when the row
    is of that user, whatever their windows are. *)
Lemma group_of_row (ws : list (Z * Z)) (r : Stream.row) (u : string) :
  map snd (Pw.group windowed_user (map (fun w => (fst w, snd w, r)) ws) u)
  = if String.eqb (Stream.user_id r) u then repeat r (length ws) else [].
Proof.
  unfold Pw.group. induction ws as [|w ws IH].
  - destruct (String.eqb (Stream.user_id r) u); reflexivity.
  - cbn [map filter length repeat]. unfold windowed_user at 1. cbn [snd].
    destruct (String.eqb (Stream.user_id r) u); cbn [map snd]; rewrite IH; reflexivity.
Qed.

(** The group of a user in the windowed stream: every transaction of the
    user, sixty times. *)
Lemma group_windowed (origin : Z) (ts : list Stream.row) (u : string) :
  map snd (Pw.group windowed_user (windowed origin 60 3600 ts) u)
  = sixty_fold (user_txs u ts).
Proof.
  unfold windowed, Pw.windowby. induction ts as [|r ts IH]; [reflexivity|].
  cbn [flat_map]. unfold Pw.group in *. rewrite filter_app, map_app, IH.
  fold (Pw.group windowed_user
          (map (fun w : Z * Z => (fst w, snd w, r))
             (Pw.assign_windows origin 60 3600 (Stream.parsed_time r))) u).
  rewrite group_of_row, assign_windows_sixty.
  unfold user_txs. cbn [filter].
  destruct (String.eqb (Stream.user_id r) u); reflexivity.
Qed.

(** The users of the windowed stream. *)
Lemma windowed_users (origin : Z) (ts : list Stream.row) :
  map windowed_user (windowed origin 60 3600 ts)
  = sixty_fold (map Stream.user_id ts).
Proof.
  unfold windowed, Pw.windowby, sixty_fold. induction ts as [|r ts IH]; [reflexivity|].
  cbn [flat_map map]. rewrite map_app, IH. f_equal.
  rewrite map_map. unfold windowed_user. cbn [snd].
  rewrite <- (assign_windows_sixty origin (Stream.parsed_time r)).
  induction (Pw.assign_windows origin 60 3600 (Stream.parsed_time r)) as [|w ws IHw];
    [reflexivity|]. cbn [map length repeat]. rewrite IHw. reflexivity.
Qed.

(** [window_stats] has one row for each user of the stream: the aggregate
    of all the transactions of the user, each taken sixty times. *)
Lemma window_stats_sliding_eq (origin : Z) (ts : list Stream.row) :
  window_stats_sliding origin 60 3600 ts
  = map (fun u => user_aggregate u ts) (nodup string_dec (map Stream.user_id ts)).
Proof.
  unfold window_stats_sliding, Pw.group_keys.
  fold (windowed origin 60 3600 ts).
  rewrite windowed_users, nodup_sixty_fold. apply map_ext. intros u.
  unfold reduce, user_aggregate. rewrite group_windowed. reflexivity.
Qed.

Lemma window_stats_In (ts : list Stream.row) (w : Win.row) :
  In w (window_stats ts)
  <-> exists u, In u (map Stream.user_id ts) /\ w = user_aggregate u ts.
Proof.
  unfold window_stats. rewrite window_stats_sliding_eq, in_map_iff. split.
  - intros [u [<- Hu]]. exists u. split; [|reflexivity].
    apply nodup_In in Hu. exact Hu.
  - intros [u [Hu ->]]. exists u. split; [reflexivity|].
    apply nodup_In. exact Hu.
Qed.

(** A user of the stream has a transaction. *)
Lemma user_txs_nonempty (u : string) (ts : list Stream.row) :
  In u (map Stream.user_id ts) -> user_txs u ts <> [].
Proof.
  intros Hu. apply in_map_iff in Hu. destruct Hu as [r [Hr Hin]].
  intros Hnil. assert (Hi : In r (user_txs u ts)).
  { apply filter_In. split; [exact Hin|]. rewrite Hr. apply String.eqb_refl. }
  rewrite Hnil in Hi. destruct Hi.
Qed.

Lemma user_aggregate_count (u : string) (ts : list Stream.row) :
  Win.velocity_count_1h (user_aggregate u ts)
  = 60 * Z.of_nat (length (user_txs u ts)).
Proof.
  unfold user_aggregate, Pw.reducers_count. cbn [Win.velocity_count_1h].
  rewrite length_map, sixty_fold_length. lia.
Qed.

Lemma window_stats_count_nonneg (ts : list Stream.row) (w : Win.row) :
  In w (window_stats ts) -> 0 <= Win.velocity_count_1h w.
Proof.
  intros Hw. apply window_stats_In in Hw. destruct Hw as (u & _ & ->).
  rewrite user_aggregate_count. lia.
Qed.

(** The two transactions of [stale_tx] are in no common window. *)
Lemma stale_windows (s : Z) :
  (length (window_txs s (s + 3600) "u3" (stream_of stale_tx)) <= 1)%nat.
Proof.
  assert (E : forall s e, window_txs s e "u3" (stream_of stale_tx)
            = filter (in_window s e "u3") (stream_of stale_tx)) by reflexivity.
  rewrite E.
  assert (Hs : exists r1 r2, stream_of stale_tx = [r1; r2]
             /\ Stream.parsed_time r1 = 1704103200
             /\ Stream.parsed_time r2 = 1704276000)
    by (vm_compute; eexists; eexists; repeat split).
  destruct Hs as (r1 & r2 & -> & H1 & H2). cbn [filter]. unfold in_window.
  rewrite H1, H2.
  destruct (Z.leb_spec s 1704103200), (Z.ltb_spec 1704103200 (s + 3600)),
           (Z.leb_spec s 1704276000), (Z.ltb_spec 1704276000 (s + 3600));
    destruct (String.eqb (Stream.user_id r1) "u3"),
             (String.eqb (Stream.user_id r2) "u3"); cbn; lia.
Qed.

(** C3. Window correctness does not hold in [window_stats]: the windowed
    stream is grouped again by user alone, so the sum and the count are not
    those of the transactions of a window [[t, t + 60 min)].  For user [u3]
    spending 9000 and, 48 hours later, 100, no window holds more than one
    of the two transactions, and the window of 10:00 on the first day holds
    the sum 9000 and the count 1; [window_stats] has one aggregate, with
    the sum 546000 and the count 120: every transaction sixty times, the
    stale one included, and the run writes no alert.  For the scenario of
    the specification (500 at 10:00 and 3000 at 10:30) the window of 10:00
    holds the sum 3500 and the count 2, and [window_stats] has the sum
    210000 and the count 120.  For one transaction of 6000 the alert reads
    [across 60 txns]. *)
Theorem window_stats_regroups_by_user :
  window_stats (stream_of stale_tx)
  = [Win.mk "u3" 546000 120 "2024-01-03T10:00:00|100.000000|Mumbai|Uber|APPROVED"]
  /\ spec_aggregate 3600 ten_o_clock "u3" (stream_of stale_tx)
     = Win.mk "u3" 9000 1 "2024-01-01T10:00:00|9000.000000|Delhi|Amazon|APPROVED"
  /\ (forall s,
        Win.velocity_count_1h (spec_aggregate 3600 s "u3" (stream_of stale_tx)) <= 1)
  /\ pipeline strptime_iso stale_tx [] = Ok []
  /\ window_stats scenario_stream
     = [Win.mk "u101" 210000 120 "2024-01-01T10:30:00|3000.000000|Mumbai|Uber|APPROVED"]
  /\ spec_aggregate 3600 ten_o_clock "u101" scenario_stream
     = Win.mk "u101" 3500 2 "2024-01-01T10:30:00|3000.000000|Mumbai|Uber|APPROVED"
  /\ pipeline strptime_iso lone_tx []
     = Ok [Out.mk "2024-01-01T10:00:00" "u5" 6000 5999.9999999000001 None
             ("verdict=SUSPICIOUS || Single transaction $6000.00 exceeded threshold. "
              ++ "1h velocity $6000.00 exceeded threshold across 60 txns. "
              ++ "Merchant: Amazon Location: Delhi")].
Proof.
  split; [vm_compute; reflexivity|]. split; [vm_compute; reflexivity|].
  split; [|by_computation].
  intros s. cbn [spec_aggregate Win.velocity_count_1h].
  pose proof (stale_windows s). lia.
Qed.

(** ** The latest snapshot *)

Lemma ascii_compare_refl (c : ascii) : Ascii.compare c c = Eq.
Proof. unfold Ascii.compare. apply N.compare_refl. Qed.

Lemma ascii_compare_lt_trans (a b c : ascii) :
  Ascii.compare a b = Lt -> Ascii.compare b c = Lt -> Ascii.compare a c = Lt.
Proof.
  unfold Ascii.compare. rewrite !N.compare_lt_iff. lia.
Qed.

Lemma str_compare_lt_trans (a b c : string) :
  String.compare a b = Lt -> String.compare b c = Lt -> String.compare a c = Lt.
Proof.
  revert b c. induction a as [|x a IH]; intros [|y b] [|z c]; simpl;
    try discriminate; try reflexivity.
  destruct (Ascii.compare x y) eqn:Hxy; try discriminate;
    destruct (Ascii.compare y z) eqn:Hyz; try discriminate; intros H1 H2.
  - apply Ascii.compare_eq_iff in Hxy, Hyz. subst. rewrite ascii_compare_refl.
    eapply IH; eassumption.
  - apply Ascii.compare_eq_iff in Hxy. subst. rewrite Hyz. reflexivity.
  - apply Ascii.compare_eq_iff in Hyz. subst. rewrite Hxy. reflexivity.
  - rewrite (ascii_compare_lt_trans x y z Hxy Hyz). reflexivity.
Qed.

Lemma str_compare_refl (a : string) : String.compare a a = Eq.
Proof.
  induction a as [|x a IH]; [reflexivity|]. simpl.
  rewrite ascii_compare_refl. exact IH.
Qed.

Lemma str_leb_refl (a : string) : String.leb a a = true.
Proof. unfold String.leb. rewrite str_compare_refl. reflexivity. Qed.

Lemma str_leb_trans (a b c : string) :
  String.leb a b = true -> String.leb b c = true -> String.leb a c = true.
Proof.
  unfold String.leb.
  destruct (String.compare a b) eqn:Hab; try discriminate;
    destruct (String.compare b c) eqn:Hbc; try discriminate; intros _ _.
  - apply String.compare_eq_iff in Hab. subst. rewrite Hbc. reflexivity.
  - apply String.compare_eq_iff in Hab. subst. rewrite Hbc. reflexivity.
  - apply String.compare_eq_iff in Hbc. subst. rewrite Hab. reflexivity.
  - rewrite (str_compare_lt_trans a b c Hab Hbc). reflexivity.
Qed.

Lemma str_max_bounds (a b : string) :
  String.leb a (Pw.str_max a b) = true /\ String.leb b (Pw.str_max a b) = true
  /\ (Pw.str_max a b = a \/ Pw.str_max a b = b).
Proof.
  unfold Pw.str_max, String.ltb, String.leb.
  destruct (String.compare a b) eqn:Hab.
  - rewrite str_compare_refl, String.compare_antisym, Hab. simpl. tauto.
  - rewrite str_compare_refl, Hab. tauto.
  - rewrite str_compare_refl, String.compare_antisym, Hab. simpl. tauto.
Qed.

(** The max reducer returns an element of the group that no other element
    exceeds. *)
Lemma reducers_max_spec (l : list string) :
  l <> [] ->
  In (Pw.reducers_max l) l
  /\ forall x, In x l -> String.leb x (Pw.reducers_max l) = true.
Proof.
  destruct l as [|a l]; [congruence|]. intros _. unfold Pw.reducers_max.
  revert a. induction l as [|b l IH]; intros a.
  - simpl. split; [left; reflexivity|].
    intros x [<-|[]]. apply str_leb_refl.
  - cbn [fold_left]. destruct (IH (Pw.str_max a b)) as [Hin Hmax].
    destruct (str_max_bounds a b) as (Ha & Hb & Hab). split.
    + destruct Hin as [Hin|Hin].
      * rewrite <- Hin. destruct Hab as [->| ->]; [left|right; left]; reflexivity.
      * right; right; exact Hin.
    + intros x [<-|[<-|Hx]].
      * eapply str_leb_trans; [exact Ha|]. apply Hmax. left; reflexivity.
      * eapply str_leb_trans; [exact Hb|]. apply Hmax. left; reflexivity.
      * apply Hmax. right; exact Hx.
Qed.

Lemma or_default_some (s : string) : or_default (Some s) "" = s.
Proof. destruct s; reflexivity. Qed.

Lemma make_meta_str_float (t loc merch stat : string) (amt : float) :
  make_meta_str (Some t) (VFloat amt) (Some loc) (Some merch) (Some stat)
  = Ok (t ++ "|" ++ format_f 6 amt ++ "|" ++ loc ++ "|" ++ merch ++ "|" ++ stat).
Proof.
  unfold make_meta_str, float_of_value, try_except, bind.
  rewrite !or_default_some. reflexivity.
Qed.

Lemma t_stream_total (trs : list Typed.row) :
  t_stream trs = Ok (map (fun r => Stream.mk r (spec_key r)) trs).
Proof.
  unfold t_stream. apply mapM_total. intros r _.
  rewrite make_meta_str_float. reflexivity.
Qed.

Lemma cut_app (sep : ascii) (a b : string) :
  contains sep a = false -> cut sep (a ++ String sep b) = Some (a, b).
Proof.
  induction a as [|c a IH]; simpl; intros H.
  - rewrite Ascii.eqb_refl. reflexivity.
  - apply orb_false_iff in H. destruct H as [Hc Ha].
    rewrite Hc, (IH Ha). reflexivity.
Qed.


(** The amount read back from a key whose time has no delimiter. *)
Lemma meta_get_amount_key (t a rest : string) :
  contains "|" t = false -> contains "|" a = false ->
  meta_get_amount (Some (t ++ "|" ++ a ++ "|" ++ rest))
  = try_except (float_of_string a) (Ok 0%float).
Proof.
  intros Ht Ha. unfold meta_get_amount, meta_split, split.
  change (t ++ "|" ++ a ++ "|" ++ rest) with (t ++ String "|" (a ++ String "|" rest)).
  rewrite (cut_app _ _ _ Ht), (cut_app _ _ _ Ha). simpl.
  destruct (cut "|" rest) as [[x y]|]; reflexivity.
Qed.





Lemma str_leb_antisym (a b : string) :
  String.leb a b = true -> String.leb b a = true -> a = b.
Proof.
  unfold String.leb. rewrite (String.compare_antisym b a).
  destruct (String.compare a b) eqn:H; cbn [CompOpp]; try discriminate.
  intros _ _. apply String.compare_eq_iff. exact H.
Qed.

(** The max reducer does not see how often a row is repeated. *)
Lemma reducers_max_sixty_fold (l : list string) :
  l <> [] -> Pw.reducers_max (sixty_fold l) = Pw.reducers_max l.
Proof.
  intros Hl.
  assert (Hl' : sixty_fold l <> []) by (intros H; apply Hl, sixty_fold_nil, H).
  destruct (reducers_max_spec _ Hl) as [Hin Hmax].
  destruct (reducers_max_spec _ Hl') as [Hin' Hmax'].
  apply str_leb_antisym.
  - apply Hmax. apply sixty_fold_In. exact Hin'.
  - apply Hmax'. apply sixty_fold_In. exact Hin.
Qed.

(** The snapshot of a user: the greatest key of the transactions of the
    user. *)
Lemma user_aggregate_latest (u : string) (ts : list Stream.row) :
  user_txs u ts <> [] ->
  Win.latest_meta (user_aggregate u ts)
  = Pw.reducers_max (map Stream.tx_meta (user_txs u ts)).
Proof.
  intros Hne. unfold user_aggregate. cbn [Win.latest_meta].
  rewrite sixty_fold_map. apply reducers_max_sixty_fold.
  destruct (user_txs u ts); [congruence|discriminate].
Qed.




(** ** Decimal numerals read back *)

Lemma contains_app (c : ascii) (a b : string) :
  contains c (a ++ b) = contains c a || contains c b.
Proof.
  induction a as [|x a IH]; [reflexivity|]. simpl. rewrite IH, orb_assoc. reflexivity.
Qed.

(** What the parser needs to know of a digit character. *)
Lemma digit_char_facts (d : N) :
  (d < 10)%N ->
  let c := digit_char d in
  is_digit c = true /\ digit_val c = d /\ is_space c = false
  /\ lower c = c /\ Ascii.eqb c "|" = false
  /\ c <> "+"%char /\ c <> "-"%char /\ c <> "i"%char /\ c <> "n"%char.
Proof.
  intros Hd.
  assert (H : (d = 0 \/ d = 1 \/ d = 2 \/ d = 3 \/ d = 4 \/ d = 5 \/ d = 6
               \/ d = 7 \/ d = 8 \/ d = 9)%N) by lia.
  repeat (destruct H as [->|H]); try subst d;
    (cbv zeta; repeat split; try reflexivity; discriminate).
Qed.

Lemma mod10_lt (n : N) : (n mod 10 < 10)%N.
Proof. apply N.mod_lt. discriminate. Qed.

Lemma fixed_digits_no_bar (k : nat) (n : N) : contains "|" (fixed_digits k n) = false.
Proof.
  induction k as [|k IH]; [reflexivity|]. simpl.
  destruct (digit_char_facts _ (mod10_lt (n / 10 ^ N.of_nat k))) as (_ & _ & _ & _ & H & _).
  simpl in H. rewrite H, IH. reflexivity.
Qed.

Lemma has_space_app (a b : string) : has_space (a ++ b) = has_space a || has_space b.
Proof.
  induction a as [|x a IH]; [reflexivity|]. simpl. rewrite IH, orb_assoc. reflexivity.
Qed.

Lemma fixed_digits_no_space (k : nat) (n : N) : has_space (fixed_digits k n) = false.
Proof.
  induction k as [|k IH]; [reflexivity|]. simpl.
  destruct (digit_char_facts _ (mod10_lt (n / 10 ^ N.of_nat k))) as (_ & _ & H & _).
  simpl in H. rewrite H, IH. reflexivity.
Qed.

Lemma is_float_space_is_space (c : ascii) :
  is_space c = false -> is_float_space c = false.
Proof.
  destruct c as [[] [] [] [] [] [] [] []]; vm_compute; intros H;
    first [reflexivity | discriminate H].
Qed.

Lemma rstrip_no_space (sp : ascii -> bool) (s : string) :
  (forall c, is_space c = false -> sp c = false) ->
  has_space s = false -> rstrip_chars sp s = s.
Proof.
  intros Hsp. induction s as [|c s IH]; [reflexivity|]. simpl. intros H.
  apply orb_false_iff in H. destruct H as [Hc Hs].
  rewrite (IH Hs). destruct s; [rewrite (Hsp _ Hc)|]; reflexivity.
Qed.

Lemma strip_chars_no_space (sp : ascii -> bool) (s : string) :
  (forall c, is_space c = false -> sp c = false) ->
  has_space s = false -> strip_chars sp s = s.
Proof.
  intros Hsp H. unfold strip_chars.
  assert (Hl : lstrip_chars sp s = s).
  { destruct s as [|c s]; [reflexivity|]. simpl in *.
    apply orb_false_iff in H. destruct H as [Hc _]. rewrite (Hsp _ Hc). reflexivity. }
  rewrite Hl. apply rstrip_no_space; assumption.
Qed.

Lemma strip_no_space (s : string) : has_space s = false -> strip s = s.
Proof. apply strip_chars_no_space. trivial. Qed.

Lemma digits_loop_stop (rest : string) (acc : N) (cnt : nat) :
  ends_digits rest -> digits_loop rest acc cnt = (acc, cnt, rest).
Proof.
  destruct rest as [|c r]; [reflexivity|]. simpl. intros [-> ->]. reflexivity.
Qed.

Lemma pow10_succ (k : nat) : (10 ^ N.of_nat (S k) = 10 * 10 ^ N.of_nat k)%N.
Proof. rewrite Nat2N.inj_succ, N.pow_succ_r'. reflexivity. Qed.

(** Reading [k] printed digits. *)
Lemma digits_loop_fixed (k : nat) (n : N) (rest : string) (acc : N) (cnt : nat) :
  ends_digits rest ->
  digits_loop (fixed_digits k n ++ rest) acc cnt
  = ((acc * 10 ^ N.of_nat k + n mod 10 ^ N.of_nat k)%N, (cnt + k)%nat, rest).
Proof.
  intros Hrest. revert acc cnt. induction k as [|k IH]; intros acc cnt.
  - simpl. rewrite digits_loop_stop by exact Hrest.
    rewrite N.mod_1_r, N.mul_1_r, N.add_0_r, Nat.add_0_r. reflexivity.
  - cbn [fixed_digits String.append digits_loop].
    destruct (digit_char_facts _ (mod10_lt (n / 10 ^ N.of_nat k))) as (Hd & Hv & _).
    cbv zeta in Hd, Hv. rewrite Hd, Hv, IH. f_equal. f_equal.
    + rewrite pow10_succ.
      rewrite (N.mul_comm 10 (10 ^ N.of_nat k)).
      rewrite N.Div0.mod_mul_r. lia.
    + lia.
Qed.

Lemma ndigits_fuel_pos (fuel : nat) (n : N) : exists k, ndigits_fuel fuel n = S k.
Proof.
  destruct fuel as [|f]; simpl; [exists O; reflexivity|].
  destruct (n <? 10)%N; eexists; reflexivity.
Qed.

Lemma ndigits_fuel_bound (fuel : nat) (n : N) :
  (n < 2 ^ N.of_nat fuel)%N -> (n < 10 ^ N.of_nat (ndigits_fuel fuel n))%N.
Proof.
  revert n. induction fuel as [|f IH]; intros n Hn.
  - simpl in *. lia.
  - cbn [ndigits_fuel]. destruct (N.ltb_spec n 10) as [Hlt|Hge].
    + simpl. lia.
    + rewrite pow10_succ.
      assert (Hq : (n / 10 < 2 ^ N.of_nat f)%N).
      { rewrite Nat2N.inj_succ, N.pow_succ_r' in Hn.
        apply N.Div0.div_lt_upper_bound. lia. }
      specialize (IH _ Hq).
      pose proof (N.mul_succ_div_gt n 10 ltac:(discriminate)). lia.
Qed.

Lemma ndigits_bound (n : N) : (n < 10 ^ N.of_nat (ndigits n))%N.
Proof.
  unfold ndigits. apply ndigits_fuel_bound.
  rewrite N2Nat.id. apply N.size_gt.
Qed.

(** An integer of more than 4300 digits is absorbed like any other
    failure: [str] refuses to convert it. *)
Lemma safe_float_long_int (z : Z) :
  10 ^ 4300 <= Z.abs z -> safe_float (VInt z) = Ok 0%float.
Proof.
  intros Hz. unfold safe_float, float_of_str_strip, str_of_int.
  assert (Hd : (int_max_str_digits <? ndigits (Z.abs_N z))%nat = true).
  { apply Nat.ltb_lt. unfold int_max_str_digits.
    destruct (Nat.lt_ge_cases 4300 (ndigits (Z.abs_N z))) as [H|H]; [exact H|exfalso].
    pose proof (ndigits_bound (Z.abs_N z)) as Hb.
    apply N2Z.inj_lt in Hb.
    rewrite N2Z.inj_abs_N, N2Z.inj_pow, nat_N_Z in Hb.
    change (Z.of_N 10) with 10 in Hb.
    assert (Hp : 10 ^ Z.of_nat (ndigits (Z.abs_N z)) <= 10 ^ 4300).
    { apply Z.pow_le_mono_r; [reflexivity|].
      change 4300 with (Z.of_nat 4300). apply Nat2Z.inj_le. exact H. }
    exact (Z.lt_irrefl _ (Z.lt_le_trans _ _ _ Hb (Z.le_trans _ _ _ Hp Hz))). }
  rewrite Hd. reflexivity.
Qed.

Example safe_float_long_int_4301 : safe_float (VInt (10 ^ 4300)) = Ok 0%float.
Proof.
  apply safe_float_long_int. rewrite Z.abs_eq; [apply Z.le_refl|].
  apply Z.pow_nonneg. discriminate.
Qed.

(** Reading the numeral of a natural number. *)
Lemma digitpart_str_of_N (n : N) (rest : string) :
  ends_digits rest ->
  exists k, digitpart (str_of_N n ++ rest) 0 0 = (n, S k, rest).
Proof.
  intros Hrest. unfold str_of_N.
  pose proof (ndigits_bound n) as Hb.
  destruct (ndigits_fuel_pos (N.to_nat (N.size n)) n) as [k Hk].
  unfold ndigits in *. rewrite Hk in *. exists k.
  cbn [fixed_digits String.append digitpart].
  destruct (digit_char_facts _ (mod10_lt (n / 10 ^ N.of_nat k))) as (Hd & Hv & _).
  cbv zeta in Hd, Hv. rewrite Hd, Hv, digits_loop_fixed by exact Hrest.
  f_equal. f_equal.
  rewrite pow10_succ in Hb.
  rewrite N.mul_0_r, N.add_0_l.
  rewrite (N.mod_small (n / 10 ^ N.of_nat k) 10).
  - rewrite N.mul_comm. symmetry. apply N.div_mod'.
  - apply N.Div0.div_lt_upper_bound. lia.
Qed.

Lemma append_empty_r (s : string) : s ++ "" = s.
Proof. induction s as [|c s IH]; [reflexivity|]. simpl. rewrite IH. reflexivity. Qed.

Lemma split_sign_other (c : ascii) (r : string) :
  c <> "+"%char -> c <> "-"%char -> split_sign (String c r) = (false, String c r).
Proof.
  destruct c as [[] [] [] [] [] [] [] []]; intros H1 H2;
    try reflexivity; congruence.
Qed.

Lemma string_eqb_head (c d : ascii) (x y : string) :
  c <> d -> String.eqb (String c x) (String d y) = false.
Proof.
  intros H. simpl. apply Ascii.eqb_neq in H. rewrite H. reflexivity.
Qed.

Lemma digitpart_fixed (k : nat) (n : N) (rest : string) (acc : N) (cnt : nat) :
  ends_digits rest ->
  digitpart (fixed_digits (S k) n ++ rest) acc cnt
  = ((acc * 10 ^ N.of_nat (S k) + n mod 10 ^ N.of_nat (S k))%N, (cnt + S k)%nat, rest).
Proof.
  intros Hrest. rewrite <- (digits_loop_fixed (S k) n rest acc cnt Hrest).
  cbn [fixed_digits String.append digitpart digits_loop].
  destruct (digit_char_facts _ (mod10_lt (n / 10 ^ N.of_nat k))) as (Hd & _).
  cbv zeta in Hd. rewrite Hd. reflexivity.
Qed.

Lemma str_of_N_head (n : N) :
  exists d r, (d < 10)%N /\ str_of_N n = String (digit_char d) r.
Proof.
  unfold str_of_N, ndigits.
  destruct (ndigits_fuel_pos (N.to_nat (N.size n)) n) as [k ->].
  eexists. eexists. split; [|reflexivity]. apply mod10_lt.
Qed.

(** [float] reads a fixed-point numeral back as the float nearest to it. *)
Lemma float_of_string_fixed (s : bool) (p : nat) (n : N) :
  float_of_string (sign_str s ++ fixed_str (S p) n)
  = Ok (SF2Prim (nearest_binary64 s (Z.of_N n) (10 ^ Z.of_nat (S p)))).
Proof.
  unfold float_of_string.
  set (ip := (n / 10 ^ N.of_nat (S p))%N).
  assert (Hbody : fixed_str (S p) n = str_of_N ip ++ String "." (fixed_digits (S p) n))
    by reflexivity.
  rewrite Hbody. clear Hbody.
  (* nothing to strip *)
  rewrite (strip_chars_no_space _ _ is_float_space_is_space).
  2:{ rewrite !has_space_app. unfold str_of_N. cbn [has_space].
      rewrite !fixed_digits_no_space. destruct s; reflexivity. }
  (* the sign *)
  destruct (str_of_N_head ip) as (d & r & Hd & Hhead).
  destruct (digit_char_facts d Hd) as (Hdig & _ & _ & Hlow & _ & Hplus & Hminus & Hi & Hn).
  cbv zeta in Hdig, Hlow, Hplus, Hminus, Hi, Hn.
  assert (Hsign : split_sign (sign_str s ++ str_of_N ip ++ String "." (fixed_digits (S p) n))
                  = (s, str_of_N ip ++ String "." (fixed_digits (S p) n))).
  { destruct s; [reflexivity|]. cbn [sign_str String.append].
    rewrite Hhead. cbn [String.append]. apply split_sign_other; assumption. }
  rewrite Hsign. clear Hsign.
  (* not a keyword *)
  assert (Hkw : forall kw c, digit_char d <> c ->
            String.eqb (lower_str (str_of_N ip ++ String "." (fixed_digits (S p) n)))
              (String c kw) = false).
  { intros kw c Hc. rewrite Hhead. cbn [String.append lower_str]. rewrite Hlow.
    apply string_eqb_head. exact Hc. }
  rewrite (Hkw "nf" "i"%char Hi), (Hkw "nfinity" "i"%char Hi), (Hkw "an" "n"%char Hn).
  cbn [orb]. clear Hkw.
  (* the number *)
  unfold parse_number.
  destruct (digitpart_str_of_N ip (String "." (fixed_digits (S p) n))) as [k Hk];
    [split; reflexivity|].
  rewrite Hk.
  rewrite <- (append_empty_r (fixed_digits (S p) n)).
  rewrite digitpart_fixed by exact I.
  cbn [Nat.add Nat.eqb].
  replace (ip * 10 ^ N.of_nat (S p) + n mod 10 ^ N.of_nat (S p))%N with n
    by (unfold ip; rewrite N.mul_comm; apply N.div_mod').
  rewrite (Z.max_r (- Z.of_nat (S p)) 0) by lia.
  rewrite (Z.max_l (- - Z.of_nat (S p)) 0) by lia.
  rewrite Z.pow_0_r, Z.mul_1_r, Z.opp_involutive. reflexivity.
Qed.

(** ** Correctly rounded conversion of a representable value *)

Lemma digits2_log2 (m : positive) : Zpos (digits2_pos m) = Z.log2 (Zpos m) + 1.
Proof.
  assert (H : forall p, digits2_pos p = Pos.size p).
  { induction p as [p IH|p IH|]; simpl; rewrite ?IH; reflexivity. }
  rewrite H. destruct m as [p|p|]; simpl; try reflexivity; rewrite Pos.add_1_r; reflexivity.
Qed.

(** Powers of two with exponents of either sign, cross-multiplied. *)
Lemma pow2_balance (x y : Z) :
  2 ^ Z.max (x + y) 0 * 2 ^ Z.max (- x) 0 * 2 ^ Z.max (- y) 0
  = 2 ^ Z.max (- (x + y)) 0 * 2 ^ Z.max x 0 * 2 ^ Z.max y 0.
Proof.
  rewrite <- !Z.pow_add_r by lia. f_equal. lia.
Qed.

Lemma pow2_pos (x : Z) : 0 < 2 ^ Z.max x 0.
Proof. apply Z.pow_pos_nonneg; lia. Qed.

(** [log2_ratio n d] is the [l] with [2^l <= n / d < 2^(l+1)]. *)
Lemma log2_ratio_unique (n d l : Z) :
  0 < n -> 0 < d ->
  d * 2 ^ Z.max l 0 <= n * 2 ^ Z.max (- l) 0 ->
  n * 2 ^ Z.max (- (l + 1)) 0 < d * 2 ^ Z.max (l + 1) 0 ->
  log2_ratio n d = l.
Proof.
  intros Hn Hd H1 H2.
  destruct (Z.log2_spec n Hn) as [Ha1 Ha2]. destruct (Z.log2_spec d Hd) as [Hb1 Hb2].
  pose proof (Z.log2_nonneg n) as Ha0. pose proof (Z.log2_nonneg d) as Hb0.
  set (a := Z.log2 n) in *. set (b := Z.log2 d) in *.
  unfold Z.succ in Ha2, Hb2.
  assert (Hupper : l <= a - b).
  { destruct (Z.le_gt_cases l (a - b)) as [H|H]; [exact H|exfalso].
    destruct (Z.le_gt_cases 0 l) as [Hl|Hl].
    - rewrite (Z.max_l l 0), (Z.max_r (- l) 0), Z.pow_0_r in H1 by lia.
      assert (Hp : 2 ^ (b + l) < 2 ^ (a + 1)).
      { rewrite Z.pow_add_r by lia. pose proof (pow2_pos l) as Hpl.
        rewrite Z.max_l in Hpl by lia. nia. }
      apply Z.pow_lt_mono_r_iff in Hp; lia.
    - rewrite (Z.max_r l 0), (Z.max_l (- l) 0), Z.pow_0_r in H1 by lia.
      assert (Hp : 2 ^ b < 2 ^ (a + 1 - l)).
      { replace (a + 1 - l) with ((a + 1) + (- l)) by lia.
        rewrite Z.pow_add_r by lia. pose proof (pow2_pos (- l)) as Hpl.
        rewrite Z.max_l in Hpl by lia. nia. }
      apply Z.pow_lt_mono_r_iff in Hp; lia. }
  assert (Hlower : a - b - 1 <= l).
  { destruct (Z.le_gt_cases (a - b - 1) l) as [H|H]; [exact H|exfalso].
    destruct (Z.le_gt_cases 0 (l + 1)) as [Hl|Hl].
    - rewrite (Z.max_l (l + 1) 0), (Z.max_r (- (l + 1)) 0), Z.pow_0_r in H2 by lia.
      assert (Hp : 2 ^ a < 2 ^ ((b + 1) + (l + 1))).
      { rewrite Z.pow_add_r by lia. pose proof (pow2_pos (l + 1)) as Hpl.
        rewrite Z.max_l in Hpl by lia. nia. }
      apply Z.pow_lt_mono_r_iff in Hp; lia.
    - rewrite (Z.max_r (l + 1) 0), (Z.max_l (- (l + 1)) 0), Z.pow_0_r in H2 by lia.
      assert (Hp : 2 ^ (a + (- (l + 1))) < 2 ^ (b + 1)).
      { rewrite Z.pow_add_r by lia. pose proof (pow2_pos (- (l + 1))) as Hpl.
        rewrite Z.max_l in Hpl by lia. nia. }
      apply Z.pow_lt_mono_r_iff in Hp; lia. }
  unfold log2_ratio. fold a b.
  destruct (Z.eq_dec l (a - b)) as [Heq|Hne].
  - rewrite <- Heq. apply Z.leb_le in H1. rewrite H1. reflexivity.
  - assert (Heq : a - b = l + 1) by lia. rewrite Heq.
    apply Z.leb_gt in H2. rewrite H2. lia.
Qed.

Lemma div_half_even_exact (m d : Z) : 0 < d -> div_half_even (m * d) d = m.
Proof.
  intros Hd. unfold div_half_even.
  rewrite Z.div_mul, Z.mod_mul by lia.
  replace (d <? 2 * 0) with false by (symmetry; apply Z.ltb_ge; lia).
  replace (d =? 2 * 0) with false by (symmetry; apply Z.eqb_neq; lia).
  reflexivity.
Qed.

(** The float nearest to a value that is itself a float is that float. *)
Lemma nearest_binary64_exact (s : bool) (m : positive) (e n d : Z) :
  bounded prec emax m e = true ->
  0 < d ->
  n * 2 ^ Z.max (- e) 0 = Zpos m * d * 2 ^ Z.max e 0 ->
  nearest_binary64 s n d = S754_finite s m e.
Proof.
  intros Hb Hd E.
  unfold bounded, canonical_mantissa, fexp in Hb.
  apply andb_true_iff in Hb. destruct Hb as [Hcan Hmax].
  apply Z.eqb_eq in Hcan. apply Z.leb_le in Hmax.
  rewrite digits2_log2 in Hcan.
  destruct (Z.log2_spec (Zpos m) ltac:(lia)) as [HL1 HL2].
  pose proof (Z.log2_nonneg (Zpos m)) as HL0.
  set (L := Z.log2 (Zpos m)) in *. unfold Z.succ in HL2.
  pose proof (pow2_pos e) as Hpp. pose proof (pow2_pos (- e)) as Hpn.
  set (Pp := 2 ^ Z.max e 0) in *. set (Pn := 2 ^ Z.max (- e) 0) in *.
  assert (Hn : 0 < n) by nia.
  assert (Hlog : log2_ratio n d = L + e).
  { apply log2_ratio_unique; try assumption.
    - pose proof (pow2_balance L e) as Hbal. fold Pp Pn in Hbal.
      rewrite (Z.max_r (- L) 0), (Z.max_l L 0), Z.pow_0_r, Z.mul_1_r in Hbal by lia.
      pose proof (pow2_pos (L + e)) as HA. pose proof (pow2_pos (- (L + e))) as HB.
      set (A := 2 ^ Z.max (L + e) 0) in *. set (B := 2 ^ Z.max (- (L + e)) 0) in *.
      apply (Z.mul_le_mono_pos_r _ _ Pn Hpn).
      replace (d * A * Pn) with (d * (A * Pn)) by ring.
      replace (n * B * Pn) with (B * (n * Pn)) by ring.
      rewrite Hbal, E. nia.
    - pose proof (pow2_balance (L + 1) e) as Hbal. fold Pp Pn in Hbal.
      rewrite (Z.max_r (- (L + 1)) 0), (Z.max_l (L + 1) 0), Z.pow_0_r, Z.mul_1_r in Hbal by lia.
      replace (L + e + 1) with (L + 1 + e) by lia.
      pose proof (pow2_pos (L + 1 + e)) as HA. pose proof (pow2_pos (- (L + 1 + e))) as HB.
      set (A := 2 ^ Z.max (L + 1 + e) 0) in *. set (B := 2 ^ Z.max (- (L + 1 + e)) 0) in *.
      apply (Z.mul_lt_mono_pos_r Pn _ _ Hpn).
      replace (d * A * Pn) with (d * (A * Pn)) by ring.
      replace (n * B * Pn) with (B * (n * Pn)) by ring.
      rewrite Hbal, E. nia. }
  unfold nearest_binary64.
  replace (n <=? 0) with false by (symmetry; apply Z.leb_gt; exact Hn).
  rewrite Hlog.
  assert (He : Z.max (L + e - (prec - 1)) emin = e).
  { unfold emin. unfold SpecFloat.emin in Hcan. lia. }
  rewrite He. fold Pp Pn. rewrite E.
  replace (Z.pos m * d * Pp) with (Z.pos m * (d * Pp)) by ring.
  rewrite div_half_even_exact by nia.
  assert (Hm : Z.pos m < 2 ^ prec).
  { apply Z.lt_le_trans with (2 ^ (L + 1)); [exact HL2|].
    apply Z.pow_le_mono_r; [lia|]. unfold SpecFloat.emin in Hcan. lia. }
  replace (Z.pos m =? 2 ^ prec) with false by (symmetry; apply Z.eqb_neq; lia).
  replace (emax - prec <? e) with false by (symmetry; apply Z.ltb_ge; exact Hmax).
  reflexivity.
Qed.

(** ** The composite key read back *)

Lemma float_of_string_format (p : nat) (x : float) :
  float_of_string (format_f (S p) x) = Ok (round_decimals (S p) x).
Proof.
  unfold format_f, round_decimals. pose proof (SF2Prim_Prim2SF x) as Hx.
  destruct (Prim2SF x) as [s|s| |s m e].
  - rewrite float_of_string_fixed, <- Hx. reflexivity.
  - rewrite <- Hx. destruct s; vm_compute; reflexivity.
  - rewrite <- Hx. vm_compute. reflexivity.
  - apply float_of_string_fixed.
Qed.

Lemma round_decimals_exact (p : nat) (x : float) :
  exact_decimals p x -> round_decimals p x = x.
Proof.
  unfold exact_decimals, round_decimals.
  pose proof (SF2Prim_Prim2SF x) as Hx. pose proof (Prim2SF_valid x) as Hv.
  destruct (Prim2SF x) as [s|s| |s m e]; try reflexivity.
  intros Hex. simpl in Hv. rewrite <- Hx. f_equal.
  pose proof (pow2_pos (- e)) as Hpn. pose proof (pow2_pos e) as Hpp.
  assert (H10 : 0 < 10 ^ Z.of_nat p) by (apply Z.pow_pos_nonneg; lia).
  apply nearest_binary64_exact; [exact Hv|exact H10|].
  unfold scaled, div_half_even. rewrite Hex.
  replace (2 ^ Z.max (- e) 0 <? 2 * 0) with false by (symmetry; apply Z.ltb_ge; lia).
  replace (2 ^ Z.max (- e) 0 =? 2 * 0) with false by (symmetry; apply Z.eqb_neq; lia).
  cbn [orb andb].
  rewrite Z2N.id by (apply Z.div_pos; nia).
  rewrite Z.mul_comm. symmetry. apply Z.div_exact; [lia|exact Hex].
Qed.

Lemma format_f_no_bar (p : nat) (x : float) : contains "|" (format_f p x) = false.
Proof.
  assert (Hfix : forall s n, contains "|" (sign_str s ++ fixed_str p n) = false).
  { intros s n. rewrite contains_app. unfold fixed_str, str_of_N.
    destruct p as [|p]; [|rewrite contains_app; cbn [contains]];
      rewrite ?fixed_digits_no_bar; destruct s; reflexivity. }
  unfold format_f. destruct (Prim2SF x) as [s|s| |s m e]; try apply Hfix.
  - destruct s; reflexivity.
  - reflexivity.
Qed.

Lemma split_cons (k : nat) (a rest : string) :
  contains "|" a = false ->
  split "|" (S k) (a ++ String "|" rest) = a :: split "|" k rest.
Proof. intros Ha. cbn [split]. rewrite (cut_app _ _ _ Ha). reflexivity. Qed.

(** The five parts of a key whose first four fields have no delimiter. *)
Lemma split_key (t a l m s : string) :
  contains "|" t = false -> contains "|" a = false ->
  contains "|" l = false -> contains "|" m = false ->
  split "|" 4 (t ++ "|" ++ a ++ "|" ++ l ++ "|" ++ m ++ "|" ++ s) = [t; a; l; m; s].
Proof.
  intros Ht Ha Hl Hm.
  change (t ++ "|" ++ a ++ "|" ++ l ++ "|" ++ m ++ "|" ++ s)
    with (t ++ String "|" (a ++ String "|" (l ++ String "|" (m ++ String "|" s)))).
  rewrite !split_cons by assumption. reflexivity.
Qed.

(** A field with a delimiter is cut at its first delimiter. *)
Lemma cut_dirty (a : string) :
  contains "|" a = true ->
  exists x y, a = x ++ String "|" y /\ contains "|" x = false /\ x <> a.
Proof.
  induction a as [|c a IH]; simpl; [discriminate|].
  destruct (Ascii.eqb_spec c "|") as [->|Hc]; simpl.
  - intros _. exists "", a. repeat split. discriminate.
  - intros Ha. destruct (IH Ha) as (x & y & Heq & Hx & Hne).
    exists (String c x), y. simpl. rewrite <- Heq.
    apply Ascii.eqb_neq in Hc. rewrite Hc, Hx. repeat split. congruence.
Qed.

Lemma split_dirty (k : nat) (a rest : string) :
  contains "|" a = true ->
  exists x tl, split "|" (S k) (a ++ String "|" rest) = x :: tl /\ x <> a.
Proof.
  intros Ha. destruct (cut_dirty a Ha) as (x & y & Heq & Hx & Hne).
  exists x. eexists. split; [|exact Hne].
  rewrite Heq at 1.
  replace ((x ++ String "|" y) ++ String "|" rest) with (x ++ String "|" (y ++ String "|" rest)).
  - apply split_cons. exact Hx.
  - clear. induction x as [|c x IH]; [reflexivity|]. simpl. rewrite IH. reflexivity.
Qed.

Lemma truthy_key (t rest : string) : truthy (Some (t ++ String "|" rest)) = true.
Proof. destruct t; reflexivity. Qed.

(** C10 (amended). Composite-key round trip.  When the time, the location
    and the merchant contain no ["|"] (the status may), unpacking the key
    [make_meta_str] builds returns the time, location, merchant and status
    exactly and the amount rounded to 6 decimals, which is the amount
    itself when it has at most 6 decimals.  A ["|"] in the time, the
    location or the merchant breaks the round trip. *)
Theorem composite_key_round_trip (t loc merch stat : string) (amt : float) :
  exists m,
    make_meta_str (Some t) (VFloat amt) (Some loc) (Some merch) (Some stat) = Ok m
    /\ (contains "|" t = false -> contains "|" loc = false ->
        contains "|" merch = false ->
        meta_get_time (Some m) = Ok t
        /\ meta_get_location (Some m) = Ok loc
        /\ meta_get_merchant (Some m) = Ok merch
        /\ meta_get_status (Some m) = Ok stat
        /\ meta_get_amount (Some m) = Ok (round_decimals 6 amt)
        /\ (exact_decimals 6 amt -> meta_get_amount (Some m) = Ok amt))
    /\ (contains "|" t || contains "|" loc || contains "|" merch = true ->
        ~ (meta_get_time (Some m) = Ok t
           /\ meta_get_location (Some m) = Ok loc
           /\ meta_get_merchant (Some m) = Ok merch)).
Proof.
  eexists. split; [apply make_meta_str_float|].
  pose proof (format_f_no_bar 6 amt) as Ha.
  set (a := format_f 6 amt) in *.
  split.
  - intros Ht Hl Hm.
    assert (Hamt : meta_get_amount (Some (t ++ "|" ++ a ++ "|" ++ loc ++ "|" ++ merch ++ "|" ++ stat))
                   = Ok (round_decimals 6 amt)).
    { unfold meta_get_amount, meta_split. rewrite split_key by assumption.
      cbn [bind index nth_error]. unfold a. rewrite float_of_string_format. reflexivity. }
    unfold meta_get_time, meta_get_location, meta_get_merchant, meta_get_status, meta_split.
    change (t ++ "|" ++ a ++ "|" ++ loc ++ "|" ++ merch ++ "|" ++ stat)
      with (t ++ String "|" (a ++ "|" ++ loc ++ "|" ++ merch ++ "|" ++ stat)) at 1.
    rewrite truthy_key.
    change (t ++ String "|" (a ++ "|" ++ loc ++ "|" ++ merch ++ "|" ++ stat))
      with (t ++ "|" ++ a ++ "|" ++ loc ++ "|" ++ merch ++ "|" ++ stat).
    rewrite !split_key by assumption.
    repeat (split; [reflexivity|]).
    split; [exact Hamt|].
    intros Hex. rewrite Hamt, (round_decimals_exact 6 amt Hex). reflexivity.
  - intros Hdirty [Htime [Hloc Hmerch]].
    unfold meta_get_time, meta_get_location, meta_get_merchant, meta_split in *.
    change (t ++ "|" ++ a ++ "|" ++ loc ++ "|" ++ merch ++ "|" ++ stat)
      with (t ++ String "|" (a ++ String "|" (loc ++ String "|" (merch ++ String "|" stat))))
      in *.
    rewrite truthy_key in Htime.
    destruct (contains "|" t) eqn:Ht.
    + destruct (split_dirty 3 t (a ++ String "|" (loc ++ String "|" (merch ++ String "|" stat))) Ht)
        as (x & tl & Hs & Hne).
      rewrite Hs in Htime. cbn in Htime. congruence.
    + rewrite (split_cons 3 t _ Ht), (split_cons 2 a _ Ha) in Hloc, Hmerch.
      destruct (contains "|" loc) eqn:Hl.
      * destruct (split_dirty 1 loc (merch ++ String "|" stat) Hl) as (x & tl & Hs & Hne).
        rewrite Hs in Hloc. cbn in Hloc. congruence.
      * rewrite (split_cons 1 loc _ Hl) in Hmerch.
        simpl in Hdirty.
        destruct (split_dirty 0 merch stat Hdirty) as (x & tl & Hs & Hne).
        rewrite Hs in Hmerch. cbn in Hmerch. congruence.
Qed.

(** C10 (as stated, refuted). A ["|"] in the status does not break the
    round trip: the split is limited to four cuts, so the fifth part keeps
    every later delimiter. *)
Lemma delimiter_in_status_round_trips :
  contains "|" "A|B" = true
  /\ exists m,
       make_meta_str (Some "2024-01-01T10:00:00") (VFloat 100) (Some "Delhi")
         (Some "Amazon") (Some "A|B") = Ok m
       /\ meta_get_time (Some m) = Ok "2024-01-01T10:00:00"
       /\ meta_get_amount (Some m) = Ok 100%float
       /\ meta_get_location (Some m) = Ok "Delhi"
       /\ meta_get_merchant (Some m) = Ok "Amazon"
       /\ meta_get_status (Some m) = Ok "A|B".
Proof.
  split; [reflexivity|]. eexists. split; [vm_compute; reflexivity|].
  by_computation.
Qed.

Lemma composite_key_round_trip_witness :
  (exists m,
     make_meta_str (Some "2024-01-01T10:00:00") (VFloat 2500.5) (Some "Delhi")
       (Some "Amazon") (Some "APPROVED") = Ok m
     /\ meta_get_time (Some m) = Ok "2024-01-01T10:00:00"
     /\ meta_get_status (Some m) = Ok "APPROVED"
     /\ meta_get_amount (Some m) = Ok 2500.5%float)
  /\ (exists m,
        make_meta_str (Some "2024-01-01T10:00:00") (VFloat 2500.5) (Some "New|Delhi")
          (Some "Amazon") (Some "APPROVED") = Ok m
        /\ ~ (meta_get_time (Some m) = Ok "2024-01-01T10:00:00"
              /\ meta_get_location (Some m) = Ok "New|Delhi"
              /\ meta_get_merchant (Some m) = Ok "Amazon")).
Proof.
  split.
  - destruct (composite_key_round_trip "2024-01-01T10:00:00" "Delhi" "Amazon" "APPROVED" 2500.5)
      as (m & Hm & Hclean & _).
    destruct (Hclean eq_refl eq_refl eq_refl) as (Ht & _ & _ & Hs & _ & Hex).
    exists m. repeat split; try assumption.
    apply Hex. vm_compute. reflexivity.
  - destruct (composite_key_round_trip "2024-01-01T10:00:00" "New|Delhi" "Amazon" "APPROVED" 2500.5)
      as (m & Hm & _ & Hdirty).
    exists m. split; [exact Hm|]. apply Hdirty. reflexivity.
Defined.

(** ** The average *)

(** Shifting a mantissa right halves it. *)
Lemma shr_1_m (mrs : shr_record) :
  0 <= shr_m mrs -> shr_m (shr_1 mrs) = shr_m mrs / 2.
Proof.
  destruct mrs as [m r s]. simpl. intros Hm.
  destruct m as [|p|p]; [reflexivity| |lia].
  destruct p as [p|p|]; cbn [shr_m].
  - rewrite Pos2Z.inj_xI. apply Z.div_unique with 1; lia.
  - rewrite Pos2Z.inj_xO. apply Z.div_unique with 0; lia.
  - reflexivity.
Qed.

Lemma iter_pos_shr_m (p : positive) (mrs : shr_record) :
  0 <= shr_m mrs ->
  shr_m (iter_pos shr_1 p mrs) = shr_m mrs / 2 ^ Zpos p.
Proof.
  revert mrs. induction p as [p IH|p IH|]; intros mrs Hm; cbn [iter_pos].
  - assert (H1 : 0 <= shr_m (shr_1 mrs)) by (rewrite shr_1_m by exact Hm; apply Z.div_pos; lia).
    assert (H2 : 0 <= shr_m (iter_pos shr_1 p (shr_1 mrs)))
      by (rewrite IH by exact H1; apply Z.div_pos; [exact H1|apply Z.pow_pos_nonneg; lia]).
    rewrite IH, IH, shr_1_m by assumption.
    rewrite !Z.div_div
      by (first [lia | apply Z.pow_pos_nonneg; lia | apply Z.pow_nonzero; lia]).
    assert (Hpow : 2 ^ Z.pos p~1 = 2 * 2 ^ Z.pos p * 2 ^ Z.pos p).
    { rewrite <- (Z.pow_1_r 2) at 2. rewrite <- !Z.pow_add_r by lia. f_equal. lia. }
    rewrite Hpow. f_equal. ring.
  - assert (H2 : 0 <= shr_m (iter_pos shr_1 p mrs))
      by (rewrite IH by exact Hm; apply Z.div_pos; [exact Hm|apply Z.pow_pos_nonneg; lia]).
    rewrite IH, IH by assumption.
    rewrite !Z.div_div
      by (first [lia | apply Z.pow_pos_nonneg; lia | apply Z.pow_nonzero; lia]).
    assert (Hpow : 2 ^ Z.pos p~0 = 2 ^ Z.pos p * 2 ^ Z.pos p).
    { rewrite <- !Z.pow_add_r by lia. f_equal. lia. }
    rewrite Hpow. reflexivity.
  - rewrite shr_1_m by exact Hm. reflexivity.
Qed.

Lemma shr_record_of_loc_m (m : Z) (l : location) : shr_m (shr_record_of_loc m l) = m.
Proof. destruct l as [|[]]; reflexivity. Qed.

(** Rounding a positive mantissa whose exponent is not below the smallest
    one leaves a positive mantissa. *)
Lemma shr_fexp_pos (m e : Z) (l : location) :
  0 < m -> SpecFloat.emin prec emax <= e ->
  0 < shr_m (fst (shr_fexp prec emax m e l))
  /\ SpecFloat.emin prec emax <= snd (shr_fexp prec emax m e l).
Proof.
  intros Hm He. unfold shr_fexp, shr, fexp.
  set (em := SpecFloat.emin prec emax) in *.
  destruct m as [|p|p]; try lia. cbn [Zdigits2]. rewrite digits2_log2.
  destruct (Z.log2_spec (Zpos p) ltac:(lia)) as [HL1 _].
  pose proof (Z.log2_nonneg (Zpos p)) as HL0.
  set (L := Z.log2 (Zpos p)) in *.
  destruct (Z.max (L + 1 + e - prec) em - e) as [|n|n] eqn:Hn;
    cbn [fst snd]; rewrite ?shr_record_of_loc_m; try (split; lia).
  rewrite iter_pos_shr_m by (rewrite shr_record_of_loc_m; lia).
  rewrite shr_record_of_loc_m. split; [|lia].
  apply Z.div_str_pos. split; [apply Z.pow_pos_nonneg; lia|].
  apply Z.le_trans with (2 ^ L); [|exact HL1].
  apply Z.pow_le_mono_r; [lia|]. unfold prec in Hn. lia.
Qed.

Lemma round_nearest_even_pos (m : Z) (l : location) :
  0 < m -> 0 < round_nearest_even m l.
Proof.
  intros Hm. unfold round_nearest_even.
  destruct l as [|[]]; try lia. destruct (Z.even m); lia.
Qed.

Lemma binary_round_aux_nonzero (sx : bool) (mx ex : Z) (lx : location) (s' : bool) :
  0 < mx -> SpecFloat.emin prec emax <= ex ->
  binary_round_aux prec emax sx mx ex lx <> S754_zero s'.
Proof.
  intros Hm He. unfold binary_round_aux.
  destruct (shr_fexp_pos mx ex lx Hm He) as [H1 H1e].
  destruct (shr_fexp prec emax mx ex lx) as [mrs' e']. cbn [fst snd] in H1, H1e.
  pose proof (round_nearest_even_pos (shr_m mrs') (loc_of_shr_record mrs') H1) as Hr.
  destruct (shr_fexp_pos _ e' loc_Exact Hr H1e) as [H2 _].
  destruct (shr_fexp prec emax _ e' loc_Exact) as [mrs'' e'']. cbn [fst] in H2.
  destruct (shr_m mrs''); try lia.
  destruct (e'' <=? emax - prec); discriminate.
Qed.

Lemma valid_emin (s : bool) (m : positive) (e : Z) :
  valid_binary (S754_finite s m e) = true -> SpecFloat.emin prec emax <= e.
Proof.
  unfold valid_binary, SpecFloat.valid_binary, bounded, canonical_mantissa, fexp. intros H.
  apply andb_true_iff in H. destruct H as [H _]. apply Z.eqb_eq in H. lia.
Qed.

Lemma binary_round_nonzero (sx : bool) (mx : positive) (ex : Z) (s' : bool) :
  SpecFloat.emin prec emax <= ex ->
  binary_round prec emax sx mx ex <> S754_zero s'.
Proof.
  intros He. unfold binary_round, shl_align.
  destruct (fexp prec emax (Z.pos (digits2_pos mx) + ex) - ex) eqn:Hd;
    apply binary_round_aux_nonzero; try lia.
  unfold fexp in *. lia.
Qed.

(** The sum of two positive floats is not zero. *)
Lemma SFadd_pos_nonzero (m1 m2 : positive) (e1 e2 : Z) (s' : bool) :
  valid_binary (S754_finite false m1 e1) = true ->
  valid_binary (S754_finite false m2 e2) = true ->
  SFadd prec emax (S754_finite false m1 e1) (S754_finite false m2 e2) <> S754_zero s'.
Proof.
  intros H1 H2. apply valid_emin in H1, H2.
  unfold SFadd, cond_Zopp, binary_normalize.
  cbn [Z.add]. apply binary_round_nonzero. lia.
Qed.

(** The float of a natural number is [+0], positive, [+inf] or not a number. *)
Lemma binary_normalize_nonneg (z : Z) :
  0 <= z ->
  match binary_normalize prec emax z 0 false with
  | S754_zero s | S754_infinity s | S754_finite s _ _ => s = false
  | S754_nan => True
  end.
Proof.
  intros Hz. destruct z as [|p|p]; [reflexivity| |lia].
  unfold binary_normalize, binary_round, binary_round_aux.
  destruct (shl_align _ _ _) as [mz ez].
  destruct (shr_fexp prec emax (Z.pos mz) ez loc_Exact) as [mrs' e'].
  destruct (shr_fexp prec emax _ e' loc_Exact) as [mrs'' e''].
  destruct (shr_m mrs''); [reflexivity| |exact I].
  destruct (e'' <=? emax - prec); reflexivity.
Qed.

Lemma SFeqb_zero_false (r : spec_float) :
  (forall s, r <> S754_zero s) -> SFeqb r (S754_zero false) = false.
Proof.
  intros H. destruct r as [s|s| |s m e]; try reflexivity.
  - exfalso. apply (H s). reflexivity.
  - destruct s; reflexivity.
  - destruct s; reflexivity.
Qed.

(** Adding [1e-9] to the float of a count never gives zero. *)
Lemma count_plus_epsilon_nonzero (count : Z) :
  0 <= count ->
  PrimFloat.eqb (Pw.float_of_int count + 1e-9) 0 = false.
Proof.
  intros Hc. unfold Pw.float_of_int.
  replace (count <? 0) with false by (symmetry; apply Z.ltb_ge; exact Hc).
  set (n := Uint63.of_Z count).
  rewrite FloatAxioms.eqb_spec, add_spec.
  pose proof (Prim2SF_valid (of_uint63 n)) as Hv.
  rewrite of_uint63_spec in *.
  pose proof (binary_normalize_nonneg (Uint63.to_Z n) (proj1 (Uint63.to_Z_bounded n))) as Hs.
  change (Prim2SF 0) with (S754_zero false).
  let v := eval vm_compute in (Prim2SF 1e-9) in change (Prim2SF 1e-9) with v.
  apply SFeqb_zero_false. intros s'.
  destruct (binary_normalize prec emax (Uint63.to_Z n) 0 false) as [s|s| |s m e];
    try subst s; try discriminate.
  apply SFadd_pos_nonzero; [exact Hv|reflexivity].
Qed.

Lemma velocity_avg_1h_total (sum : float) (count : Z) :
  0 <= count -> velocity_avg_1h sum count = Ok (code_velocity_avg sum count).
Proof.
  intros Hc. unfold velocity_avg_1h, Pw.div, code_velocity_avg.
  rewrite (count_plus_epsilon_nonzero count Hc). reflexivity.
Qed.

(** C5 (as stated, refuted). For the sum 3500 over 2 transactions the
    pipeline computes 1749.9999991249999, while [sum / max(count, epsilon)]
    is 1750. *)
Lemma average_differs_from_max_formula :
  velocity_avg_1h 3500 2 = Ok 1749.9999991249999%float
  /\ spec_velocity_avg 3500 2 = 1750%float
  /\ PrimFloat.eqb 1749.9999991249999 1750 = false.
Proof. by_computation. Qed.

(** C5 (amended). For every window, [velocity_avg_1h] is the sum divided by
    the count plus [1e-9]: the division never faults, the epsilon added to
    the count lowers the ratio slightly (3500 over 2 transactions gives
    1749.9999991249999), and a count of 0 with a sum of 0 gives 0.0. *)
Theorem velocity_average (ts : list Stream.row) :
  window_stats_avg (window_stats ts)
  = Ok (map (fun w => Avg.mk w (code_velocity_avg (Win.velocity_sum_1h w)
                                  (Win.velocity_count_1h w)))
          (window_stats ts))
  /\ (forall sum count,
        0 <= count -> velocity_avg_1h sum count = Ok (code_velocity_avg sum count))
  /\ velocity_avg_1h 3500 2 = Ok 1749.9999991249999%float
  /\ velocity_avg_1h 0 0 = Ok 0%float.
Proof.
  split; [|split; [exact velocity_avg_1h_total|split; vm_compute; reflexivity]].
  unfold window_stats_avg. apply mapM_total. intros w Hw.
  rewrite velocity_avg_1h_total; [reflexivity|].
  exact (window_stats_count_nonneg ts w Hw).
Qed.

Lemma velocity_average_witness :
  (exists ws, window_stats_avg (window_stats scenario_stream) = Ok ws
              /\ length ws = length (window_stats scenario_stream))
  /\ 0 <= 2
  /\ velocity_avg_1h 3500 2 = Ok (code_velocity_avg 3500 2).
Proof.
  destruct (velocity_average scenario_stream) as (Hall & Hone & _).
  split; [|split; [lia|apply Hone; lia]].
  eexists. split; [exact Hall|]. apply length_map.
Defined.

(** ** The scenario of the specification, end to end *)

(** User [u101] spends 500 at 10:00 and 3000 at 10:30, and is not on the
    watchlist.  [window_stats] has one aggregate for [u101], with each of
    the two transactions counted in its sixty windows: the sum 210000 and
    the count 120 (the window [[10:00, 11:00)] holds 3500 and 2); its
    latest snapshot is the
    transaction of 10:30, its average is [210000 / (120 + 1e-9)], and one
    alert is written, with the verdict [SUSPICIOUS]. *)
Example scenario_end_to_end :
  aggregates strptime_iso scenario_tx
  = Ok [Unpacked.mk
          (Avg.mk
             (Win.mk "u101" 210000 120
                "2024-01-01T10:30:00|3000.000000|Mumbai|Uber|APPROVED")
             1749.9999999854167)
          "2024-01-01T10:30:00" 3000 "Mumbai" "Uber" "APPROVED"]
  /\ pipeline strptime_iso scenario_tx []
     = Ok [Out.mk "2024-01-01T10:30:00" "u101" 3000 1749.9999999854167 None
             ("verdict=SUSPICIOUS || Single transaction $3000.00 exceeded threshold. "
              ++ "Merchant: Uber Location: Mumbai")].
Proof. by_computation. Qed.

(** ** The pipeline never raises *)

Lemma mapM_exists {A B} (f : A -> result B) (l : list A) :
  (forall a, In a l -> exists b, f a = Ok b) ->
  exists bs, mapM f l = Ok bs /\ length bs = length l.
Proof.
  induction l as [|a l IH]; intros H; [exists []; split; reflexivity|].
  destruct (H a (or_introl eq_refl)) as [b Hb].
  destruct IH as [bs [Hbs Hlen]]; [intros x Hx; apply H; right; exact Hx|].
  exists (b :: bs). simpl. rewrite Hb. simpl. rewrite Hbs. simpl.
  split; [reflexivity|]. rewrite Hlen. reflexivity.
Qed.

Lemma split_head (sep : ascii) (k : nat) (s : string) :
  exists x tl, split sep k s = x :: tl.
Proof.
  destruct k as [|k]; simpl; [eexists; eexists; reflexivity|].
  destruct (cut sep s) as [[a b]|]; eexists; eexists; reflexivity.
Qed.

Lemma meta_get_time_ok (m : string) : exists t, meta_get_time (Some m) = Ok t.
Proof.
  unfold meta_get_time, meta_split. destruct (truthy (Some m)); [|eexists; reflexivity].
  destruct (split_head "|" 4 m) as (x & tl & ->). eexists. reflexivity.
Qed.

Lemma unpacked_total (ws : list Avg.row) :
  exists un, unpacked ws = Ok un /\ length un = length ws.
Proof.
  unfold unpacked. apply mapM_exists. intros w _.
  destruct (meta_get_time_ok (Win.latest_meta (Avg.stats w))) as [t ->].
  unfold meta_get_amount, meta_get_location, meta_get_merchant, meta_get_status.
  destruct (try_except_some
              (parts <- meta_split (Some (Win.latest_meta (Avg.stats w))) ;;
               p <- index parts 1 ;; float_of_string p) 0%float) as [a ->].
  destruct (try_except_some
              (parts <- meta_split (Some (Win.latest_meta (Avg.stats w))) ;;
               index parts 2) "") as [l ->].
  destruct (try_except_some
              (parts <- meta_split (Some (Win.latest_meta (Avg.stats w))) ;;
               index parts 3) "") as [mc ->].
  destruct (try_except_some
              (parts <- meta_split (Some (Win.latest_meta (Avg.stats w))) ;;
               index parts 4) "") as [s ->].
  eexists. reflexivity.
Qed.

(** Once every time of the stream parses, every stage of the pipeline
    returns its table: no user-defined function and no column expression
    raises. *)
Lemma pipeline_total (strptime : string -> result Z)
    (raw_tx : list Tx.row) (watchlist : list Watch.row) :
  (forall r, In r raw_tx -> exists t, strptime (Tx.time r) = Ok t) ->
  exists rows, pipeline strptime raw_tx watchlist = Ok rows.
Proof.
  intros Hparse. unfold pipeline, joined, aggregates.
  destruct (mapM_exists
              (fun r => a <- safe_float (VStr (Tx.amount r)) ;;
                        t <- strptime (Tx.time r) ;;
                        Ok (Typed.mk r a (Tx.time r) t)) raw_tx) as [tr [Htr _]].
  { intros r Hr. destruct (safe_float_ok (VStr (Tx.amount r))) as [a ->].
    destruct (Hparse r Hr) as [t Ht]. simpl. rewrite Ht. eexists. reflexivity. }
  unfold transactions. rewrite Htr. cbn [bind].
  rewrite t_stream_total. cbn [bind].
  set (ts := map (fun r => Stream.mk r (spec_key r)) tr).
  assert (Havg : exists ws, window_stats_avg (window_stats ts) = Ok ws).
  { unfold window_stats_avg. destruct (mapM_exists
      (fun w => a <- velocity_avg_1h (Win.velocity_sum_1h w) (Win.velocity_count_1h w) ;;
                Ok (Avg.mk w a)) (window_stats ts)) as [ws [Hws _]]; [|exists ws; exact Hws].
    intros w Hw. rewrite velocity_avg_1h_total; [eexists; reflexivity|].
    exact (window_stats_count_nonneg ts w Hw). }
  destruct Havg as [ws ->]. cbn [bind].
  destruct (unpacked_total ws) as [un [-> _]]. cbn [bind].
  unfold full_context_typed.
  rewrite (mapM_total _ (fun c => Full.mk c (Ctx.amount c) (Ctx.velocity_avg_1h c)))
    by (intros c _; reflexivity).
  cbn [bind]. unfold final_results.
  rewrite (mapM_total _ spec_output); [eexists; reflexivity|].
  intros r _. unfold analysis_col. rewrite rule_based_explanation_numeric. reflexivity.
Qed.

(* ================================================================== *)
(** * Further properties of the user-defined functions *)
(* ================================================================== *)

(** ** Splitting and joining *)

Lemma cut_spec (sep : ascii) (s : string) :
  match cut sep s with
  | Some (a, b) =>
      s = a ++ String sep b /\ contains sep a = false
      /\ occurrences sep s = S (occurrences sep b)
  | None => occurrences sep s = O
  end.
Proof.
  induction s as [|c s IH]; [reflexivity|]. simpl.
  destruct (Ascii.eqb_spec c sep) as [->|Hne].
  - repeat split.
  - destruct (cut sep s) as [[a b]|].
    + destruct IH as (-> & Ha & Hocc). simpl.
      apply Ascii.eqb_neq in Hne. rewrite Hne, Ha. repeat split. exact Hocc.
    + exact IH.
Qed.

Lemma occurrences_app (c : ascii) (a b : string) :
  occurrences c (a ++ b) = (occurrences c a + occurrences c b)%nat.
Proof.
  induction a as [|d a IH]; [reflexivity|]. simpl.
  destruct (Ascii.eqb d c); rewrite IH; reflexivity.
Qed.

Lemma occurrences_sep_app (c : ascii) (a b : string) :
  occurrences c (a ++ String c b) = S (occurrences c a + occurrences c b).
Proof.
  rewrite occurrences_app. cbn [occurrences]. rewrite Ascii.eqb_refl. lia.
Qed.

(** [split] makes one cut for each delimiter, up to [maxsplit]. *)
Lemma split_length (sep : ascii) (k : nat) (s : string) :
  length (split sep k s) = S (Nat.min k (occurrences sep s)).
Proof.
  revert s. induction k as [|k IH]; intros s; [reflexivity|]. cbn [split].
  pose proof (cut_spec sep s) as H.
  destruct (cut sep s) as [[a b]|].
  - destruct H as (_ & _ & ->). cbn [length]. rewrite IH. reflexivity.
  - rewrite H. reflexivity.
Qed.

(** Joining the parts of a split with the delimiter gives the text back. *)
Lemma split_join (sep : ascii) (k : nat) (s : string) :
  join (String sep "") (split sep k s) = s.
Proof.
  revert s. induction k as [|k IH]; intros s; [reflexivity|]. cbn [split].
  pose proof (cut_spec sep s) as H.
  destruct (cut sep s) as [[a b]|]; [|reflexivity].
  destruct H as (-> & _ & _).
  specialize (IH b). unfold join in *.
  destruct (split sep k b) as [|x l] eqn:Hs.
  - pose proof (split_length sep k b) as Hl. rewrite Hs in Hl. discriminate Hl.
  - change (String.concat (String sep "") (a :: x :: l))
      with (a ++ String sep "" ++ String.concat (String sep "") (x :: l)).
    rewrite IH. reflexivity.
Qed.

(** X1. [make_meta_str] never raises, whatever its arguments are (null or
    unparsable amounts and fields with delimiters included), and the key it
    builds always splits into exactly five parts, which joined by ["|"]
    give the key back. *)
Theorem make_meta_str_five_parts (t : option string) (amt : value)
    (loc merch stat : option string) :
  exists key,
    make_meta_str t amt loc merch stat = Ok key
    /\ meta_split (Some key) = Ok (split "|" 4 key)
    /\ length (split "|" 4 key) = 5%nat
    /\ join "|" (split "|" 4 key) = key.
Proof.
  unfold make_meta_str.
  destruct (try_except_some (f <- float_of_value amt ;; Ok (format_f 6 f)) "0.0")
    as [amt2 ->].
  cbn [bind]. eexists. split; [reflexivity|]. split; [reflexivity|].
  split; [|apply split_join].
  rewrite split_length. cbn [String.append].
  rewrite !occurrences_sep_app. f_equal. lia.
Qed.

(** ** Unpacking any text *)

Lemma index_nth (l : list string) (i : nat) :
  try_except (index l i) (Ok "") = Ok (nth i l "").
Proof.
  unfold index. revert l. induction i as [|i IH]; intros [|x l]; try reflexivity.
  apply IH.
Qed.

(** X2. The five unpackers never raise.  On [None] they return their
    defaults; on a text they return its parts after at most four cuts at
    ["|"], with the empty text (and the amount 0.0) for a part the text
    does not have or, for the amount, a part that is not a numeral. *)
Theorem meta_get_defaults :
  (meta_get_time None = Ok "" /\ meta_get_amount None = Ok 0%float
   /\ meta_get_location None = Ok "" /\ meta_get_merchant None = Ok ""
   /\ meta_get_status None = Ok "")
  /\ forall s : string,
       meta_get_time (Some s) = Ok (part 0 s)
       /\ meta_get_amount (Some s)
          = Ok (match float_of_string (part 1 s) with
                | Ok f => f
                | Raise _ => 0%float
                end)
       /\ meta_get_location (Some s) = Ok (part 2 s)
       /\ meta_get_merchant (Some s) = Ok (part 3 s)
       /\ meta_get_status (Some s) = Ok (part 4 s)
       /\ length (split "|" 4 s) = S (Nat.min 4 (occurrences "|" s)).
Proof.
  split; [repeat split|]. intros s.
  unfold meta_get_time, meta_get_amount, meta_get_location, meta_get_merchant,
    meta_get_status, meta_split, part. cbn [bind].
  repeat split.
  - destruct s as [|c s]; [reflexivity|]. cbn [truthy].
    destruct (split_head "|" 4 (String c s)) as (x & tl & ->). reflexivity.
  - unfold index. destruct (split "|" 4 s) as [|x [|y l]]; try reflexivity.
    cbn [nth_error nth try_except bind]. destruct (float_of_string y); reflexivity.
  - apply index_nth.
  - apply index_nth.
  - apply index_nth.
  - apply split_length.
Qed.

(** ** Padding *)

Lemma lstrip_pad (pad s : string) :
  all_space pad = true -> lstrip_chars is_space (pad ++ s) = lstrip_chars is_space s.
Proof.
  induction pad as [|c pad IH]; [reflexivity|]. simpl. intros H.
  apply andb_true_iff in H. destruct H as [-> H]. apply IH. exact H.
Qed.

Lemma rstrip_all_space (pad : string) :
  all_space pad = true -> rstrip_chars is_space pad = "".
Proof.
  induction pad as [|c pad IH]; [reflexivity|]. simpl. intros H.
  apply andb_true_iff in H. destruct H as [Hc H]. rewrite (IH H), Hc. reflexivity.
Qed.

Lemma rstrip_pad (s pad : string) :
  all_space pad = true -> rstrip_chars is_space (s ++ pad) = rstrip_chars is_space s.
Proof.
  intros H. induction s as [|c s IH]; [apply rstrip_all_space; exact H|].
  simpl. rewrite IH. reflexivity.
Qed.

Lemma strip_pad (pad1 s pad2 : string) :
  all_space pad1 = true -> all_space pad2 = true ->
  strip (pad1 ++ s ++ pad2) = strip s.
Proof.
  intros H1 H2. unfold strip, strip_chars. rewrite (lstrip_pad _ _ H1).
  induction s as [|c s IH].
  - simpl. rewrite <- (append_empty_r pad2) at 1.
    rewrite (lstrip_pad pad2 "" H2). reflexivity.
  - cbn [String.append lstrip_chars]. destruct (is_space c); [exact IH|].
    apply (rstrip_pad (String c s) pad2 H2).
Qed.

(** X3. [safe_float] ignores whitespace around the text of an amount: any
    run of whitespace characters before and after a text leaves its result
    unchanged. *)
Theorem safe_float_ignores_padding (pad1 s pad2 : string) :
  all_space pad1 = true -> all_space pad2 = true ->
  safe_float (VStr (pad1 ++ s ++ pad2)) = safe_float (VStr s).
Proof.
  intros H1 H2. unfold safe_float, float_of_str_strip.
  rewrite (strip_pad _ _ _ H1 H2). reflexivity.
Qed.

Lemma safe_float_ignores_padding_witness :
  all_space "  " = true /\ all_space " " = true
  /\ safe_float (VStr ("  " ++ "12.50" ++ " ")) = safe_float (VStr "12.50").
Proof.
  split; [reflexivity|]. split; [reflexivity|].
  apply (safe_float_ignores_padding "  " "12.50" " "); reflexivity.
Defined.

(** ** The rule engine on null numerics *)

(** X4. What the rule engine does with a null numeric: a null amount and a
    null velocity always raise [TypeError] (both are compared before any
    text is built), while a null count raises only when the velocity
    exceeds 5000, the one place where the count is read; at or below the
    threshold the count is ignored. *)
Theorem rule_engine_null_numerics (a v : float) (c c' : option Z) (vel : option float)
    (risk notes merchant location : option string) :
  rule_based_explanation None vel c risk notes merchant location = Raise TypeError
  /\ rule_based_explanation (Some a) None c risk notes merchant location
     = Raise TypeError
  /\ rule_based_explanation (Some a) (Some v) None risk notes merchant location
     = (if PrimFloat.ltb 5000 v then Raise TypeError
        else Ok (spec_analysis a v 0 risk notes merchant location))
  /\ (PrimFloat.ltb 5000 v = false ->
      rule_based_explanation (Some a) (Some v) c risk notes merchant location
      = rule_based_explanation (Some a) (Some v) c' risk notes merchant location).
Proof.
  unfold rule_based_explanation, spec_analysis, spec_verdict, spec_trigger,
    spec_explanation, spec_fragments, fragment, append_if, append, gt,
    format_opt, int_of, bind, fallback.
  split; [reflexivity|].
  split; [destruct (PrimFloat.ltb 2000 a); reflexivity|].
  split.
  - destruct (PrimFloat.ltb 2000 a), (PrimFloat.ltb 5000 v), (risk_flagged risk),
      (truthy merchant), (truthy location); reflexivity.
  - intros ->. destruct (PrimFloat.ltb 2000 a); reflexivity.
Qed.

Lemma rule_engine_null_numerics_witness :
  PrimFloat.ltb 5000 100 = false
  /\ rule_based_explanation (Some 2500%float) (Some 100%float) None
       None None (Some "Uber") (Some "Delhi")
     = rule_based_explanation (Some 2500%float) (Some 100%float) (Some 3)
         None None (Some "Uber") (Some "Delhi").
Proof.
  split; [reflexivity|].
  apply (rule_engine_null_numerics 2500 100 None (Some 3) None
           None None (Some "Uber") (Some "Delhi")).
  reflexivity.
Defined.

(* ================================================================== *)
(** * Further properties of the pipeline *)
(* ================================================================== *)

(** ** The stages of a run that returns *)

Lemma mapM_inv {A B} (f : A -> result B) (l : list A) (bs : list B) :
  mapM f l = Ok bs -> Forall2 (fun a b => f a = Ok b) l bs.
Proof.
  revert bs. induction l as [|a l IH]; intros bs; simpl.
  - intros H. injection H as <-. constructor.
  - destruct (f a) as [b|e] eqn:Hb; [|discriminate]. simpl.
    destruct (mapM f l) as [bs'|e]; [|discriminate]. simpl.
    intros H. injection H as <-. constructor; [exact Hb|]. apply IH. reflexivity.
Qed.

Lemma Forall2_In_r {A B} (R : A -> B -> Prop) (l : list A) (l' : list B) (b : B) :
  Forall2 R l l' -> In b l' -> exists a, In a l /\ R a b.
Proof.
  induction 1 as [|x y l l' Hxy _ IH]; intros Hin; [destruct Hin|].
  destruct Hin as [<-|Hin].
  - exists x. split; [left; reflexivity|exact Hxy].
  - destruct (IH Hin) as [a [Ha HR]]. exists a. split; [right; exact Ha|exact HR].
Qed.

Lemma Forall2_In_l {A B} (R : A -> B -> Prop) (l : list A) (l' : list B) (a : A) :
  Forall2 R l l' -> In a l -> exists b, In b l' /\ R a b.
Proof.
  induction 1 as [|x y l l' Hxy _ IH]; intros Hin; [destruct Hin|].
  destruct Hin as [<-|Hin].
  - exists y. split; [left; reflexivity|exact Hxy].
  - destruct (IH Hin) as [b [Hb HR]]. exists b. split; [right; exact Hb|exact HR].
Qed.

(** A typed row and the raw row it was read from. *)
Lemma transactions_row (strptime : string -> result Z) (x : Tx.row) (r : Typed.row) :
  (a <- safe_float (VStr (Tx.amount x)) ;;
   t <- strptime (Tx.time x) ;;
   Ok (Typed.mk x a (Tx.time x) t)) = Ok r ->
  Typed.raw r = x /\ Typed.time_str r = Tx.time x
  /\ safe_float (VStr (Tx.amount x)) = Ok (Typed.amount_f r)
  /\ strptime (Tx.time x) = Ok (Typed.parsed_time r).
Proof.
  destruct (safe_float (VStr (Tx.amount x))) as [a|e]; [|discriminate]. simpl.
  destruct (strptime (Tx.time x)) as [t|e]; [|discriminate]. simpl.
  intros H. injection H as <-. repeat split.
Qed.

(** The tables of a run of the pipeline that returns: the typed rows, the
    unpacked aggregates of their users, and the output rows, which are
    the projections of the joined records the filter keeps. *)
Lemma pipeline_inv (strptime : string -> result Z)
    (raw_tx : list Tx.row) (watchlist : list Watch.row) (rows : list Out.row) :
  pipeline strptime raw_tx watchlist = Ok rows ->
  exists trs un,
    transactions strptime raw_tx = Ok trs
    /\ unpacked
         (map (fun w => Avg.mk w (code_velocity_avg (Win.velocity_sum_1h w)
                                    (Win.velocity_count_1h w)))
            (window_stats (map (fun r => Stream.mk r (spec_key r)) trs)))
       = Ok un
    /\ joined strptime raw_tx watchlist
       = Ok (map (fun c => Full.mk c (Ctx.amount c) (Ctx.velocity_avg_1h c))
               (full_context un watchlist))
    /\ rows
       = map spec_output
           (alerts_trigger
              (map (fun c => Full.mk c (Ctx.amount c) (Ctx.velocity_avg_1h c))
                 (full_context un watchlist))).
Proof.
  unfold pipeline, joined, aggregates.
  destruct (transactions strptime raw_tx) as [trs|e]; [|discriminate]. cbn [bind].
  rewrite t_stream_total. cbn [bind].
  set (ts := map (fun r => Stream.mk r (spec_key r)) trs).
  assert (Havg : window_stats_avg (window_stats ts)
                 = Ok (map (fun w => Avg.mk w (code_velocity_avg (Win.velocity_sum_1h w)
                                                 (Win.velocity_count_1h w)))
                         (window_stats ts))).
  { unfold window_stats_avg. apply mapM_total. intros w Hw.
    rewrite velocity_avg_1h_total; [reflexivity|].
    exact (window_stats_count_nonneg ts w Hw). }
  rewrite Havg. cbn [bind].
  destruct (unpacked _) as [un|e] eqn:Hun; [|discriminate]. cbn [bind].
  unfold full_context_typed.
  rewrite (mapM_total _ (fun c => Full.mk c (Ctx.amount c) (Ctx.velocity_avg_1h c)))
    by (intros c _; reflexivity).
  cbn [bind]. unfold final_results.
  rewrite (mapM_total _ spec_output)
    by (intros r _; unfold analysis_col; rewrite rule_based_explanation_numeric;
        reflexivity).
  intros H. injection H as <-. exists trs, un.
  split; [reflexivity|]. split; [exact Hun|]. split; reflexivity.
Qed.

(** X5. The pipeline can fail in one way only: it returns its output rows
    if and only if the time of every transaction parses.  No amount, no
    field and no watchlist makes a user-defined function or a column
    expression raise. *)
Theorem pipeline_fails_only_on_timestamps (strptime : string -> result Z)
    (raw_tx : list Tx.row) (watchlist : list Watch.row) :
  (exists rows, pipeline strptime raw_tx watchlist = Ok rows)
  <-> Forall (fun r => exists t, strptime (Tx.time r) = Ok t) raw_tx.
Proof.
  split.
  - intros [rows H]. apply pipeline_inv in H.
    destruct H as (trs & un & Htr & _). unfold transactions in Htr.
    apply mapM_inv in Htr. apply Forall_forall. intros x Hx.
    destruct (Forall2_In_l _ _ _ _ Htr Hx) as (r & _ & Hr).
    apply transactions_row in Hr. destruct Hr as (_ & _ & _ & Ht).
    eexists. exact Ht.
  - intros H. apply pipeline_total. intros r Hr.
    exact (proj1 (Forall_forall _ _) H r Hr).
Qed.

(** ** Where an alert comes from *)

(** An unpacked row and the aggregate it was read from. *)
Lemma unpacked_row (ws : list Avg.row) (un : list Unpacked.row) (u : Unpacked.row) :
  unpacked ws = Ok un -> In u un ->
  In (Unpacked.win u) ws
  /\ meta_get_time (Some (Win.latest_meta (Avg.stats (Unpacked.win u))))
     = Ok (Unpacked.latest_time u)
  /\ meta_get_amount (Some (Win.latest_meta (Avg.stats (Unpacked.win u))))
     = Ok (Unpacked.latest_amount u).
Proof.
  intros Hun Hu. unfold unpacked in Hun. apply mapM_inv in Hun.
  destruct (Forall2_In_r _ _ _ _ Hun Hu) as (w & Hw & H).
  destruct (meta_get_time _) as [t|e] eqn:Ht; [|discriminate]. cbn [bind] in H.
  destruct (meta_get_amount _) as [a|e] eqn:Ha; [|discriminate]. cbn [bind] in H.
  destruct (meta_get_location _) as [l|e]; [|discriminate]. cbn [bind] in H.
  destruct (meta_get_merchant _) as [mc|e]; [|discriminate]. cbn [bind] in H.
  destruct (meta_get_status _) as [s|e]; [|discriminate]. cbn [bind] in H.
  injection H as <-. cbn. repeat split; assumption.
Qed.

(** A record of the join: an aggregate with no watchlist entry of its user,
    or an aggregate and one of the entries of its user. *)
Lemma full_context_In (un : list Unpacked.row) (wl : list Watch.row) (c : Ctx.row) :
  In c (full_context un wl)
  <-> exists u, In u un
        /\ ((matches u wl = [] /\ c = select_context (u, None))
            \/ exists w, In w (matches u wl) /\ c = select_context (u, Some w)).
Proof.
  rewrite full_context_flat, in_flat_map. split.
  - intros [u [Hu Hc]]. exists u. split; [exact Hu|].
    rewrite full_context_one in Hc.
    destruct (matches u wl) as [|w ms] eqn:Hm.
    + left. destruct Hc as [<-|[]]. split; reflexivity.
    + right. apply in_map_iff in Hc. destruct Hc as [w' [<- Hw']].
      exists w'. split; [exact Hw'|reflexivity].
  - intros [u [Hu H]]. exists u. split; [exact Hu|].
    rewrite full_context_one. destruct H as [[Hm ->]|[w [Hw ->]]].
    + rewrite Hm. left. reflexivity.
    + destruct (matches u wl) as [|w' ms] eqn:Hm; [destruct Hw|].
      apply in_map_iff. exists w. split; [reflexivity|exact Hw].
Qed.

(** The time and the amount read back from the key of a typed row. *)
Lemma spec_key_unpacks (r : Typed.row) :
  contains "|" (Typed.time_str r) = false ->
  meta_get_time (Some (spec_key r)) = Ok (Typed.time_str r)
  /\ meta_get_amount (Some (spec_key r)) = Ok (round_decimals 6 (Typed.amount_f r)).
Proof.
  intros Ht. unfold spec_key. split.
  - unfold meta_get_time, meta_split.
    change (?a ++ "|" ++ ?b) with (a ++ String "|" b).
    rewrite truthy_key, split_cons by exact Ht. reflexivity.
  - rewrite meta_get_amount_key by (first [exact Ht | apply format_f_no_bar]).
    rewrite float_of_string_format. reflexivity.
Qed.

(** Every output row comes from a raw transaction: the one whose key is the
    latest snapshot of the aggregate behind the row. *)
Lemma output_row_source (strptime : string -> result Z)
    (raw_tx : list Tx.row) (watchlist : list Watch.row)
    (rows : list Out.row) (o : Out.row) :
  pipeline strptime raw_tx watchlist = Ok rows -> In o rows ->
  exists (r : Typed.row) (u : Unpacked.row),
    In (Typed.raw r) raw_tx
    /\ Typed.time_str r = Tx.time (Typed.raw r)
    /\ safe_float (VStr (Tx.amount (Typed.raw r))) = Ok (Typed.amount_f r)
    /\ strptime (Tx.time (Typed.raw r)) = Ok (Typed.parsed_time r)
    /\ Tx.user_id (Typed.raw r) = Out.user_id o
    /\ Win.latest_meta (Avg.stats (Unpacked.win u)) = spec_key r
    /\ Out.time o = Unpacked.latest_time u
    /\ Out.amount o = Unpacked.latest_amount u
    /\ meta_get_time (Some (spec_key r)) = Ok (Unpacked.latest_time u)
    /\ meta_get_amount (Some (spec_key r)) = Ok (Unpacked.latest_amount u).
Proof.
  intros Hp Ho. apply pipeline_inv in Hp.
  destruct Hp as (trs & un & Htr & Hun & _ & ->).
  apply in_map_iff in Ho. destruct Ho as [f [<- Hf]].
  unfold alerts_trigger in Hf. apply filter_In in Hf. destruct Hf as [Hf _].
  apply in_map_iff in Hf. destruct Hf as [c [<- Hc]].
  apply full_context_In in Hc. destruct Hc as [u [Hu Hc]].
  destruct (unpacked_row _ _ _ Hun Hu) as (Hw & Htime & Hamount).
  apply in_map_iff in Hw. destruct Hw as [w [Hwu Hw]].
  apply window_stats_In in Hw. destruct Hw as (usr & Husr & ->).
  set (ts := map (fun r => Stream.mk r (spec_key r)) trs) in *.
  pose proof (user_txs_nonempty usr ts Husr) as Hne.
  set (txs := user_txs usr ts) in *.
  assert (Hmeta : map Stream.tx_meta txs <> [])
    by (destruct txs; [congruence|discriminate]).
  destruct (reducers_max_spec _ Hmeta) as [Hin _].
  apply in_map_iff in Hin. destruct Hin as [sr [Hkey Hsr]].
  unfold txs, user_txs in Hsr. apply filter_In in Hsr. destruct Hsr as [Hsr Hwin].
  unfold ts in Hsr. apply in_map_iff in Hsr. destruct Hsr as [r [<- Hr]].
  unfold transactions in Htr. apply mapM_inv in Htr.
  destruct (Forall2_In_r _ _ _ _ Htr Hr) as (x & Hx & Hrx).
  apply transactions_row in Hrx. destruct Hrx as (Hraw & Hts & Ha & Hpt).
  apply String.eqb_eq in Hwin. cbn in Hkey.
  assert (Hlm : Win.latest_meta (Avg.stats (Unpacked.win u)) = spec_key r).
  { rewrite <- Hwu. cbn [Avg.stats]. rewrite (user_aggregate_latest usr ts Hne).
    symmetry. exact Hkey. }
  assert (Hus : Unpacked.user_id u = usr)
    by (unfold Unpacked.user_id; rewrite <- Hwu; reflexivity).
  unfold Stream.user_id in Hwin. cbn in Hwin.
  exists r, u. rewrite Hraw. rewrite Hlm in Htime, Hamount.
  rewrite Hraw in Hwin.
  assert (Hcu : Ctx.user_id c = usr /\ Ctx.latest_time c = Unpacked.latest_time u
                /\ Ctx.amount c = Unpacked.latest_amount u).
  { destruct Hc as [[_ ->]|[w [_ ->]]]; cbn; rewrite <- Hus; repeat split. }
  destruct Hcu as (Hc1 & Hc2 & Hc3).
  repeat split; try assumption.
  cbn. rewrite Hc1. exact Hwin.
Qed.

(** X6. Every alert row is backed by a transaction of its user: the one
    whose composite key is the latest snapshot of the aggregate behind the
    row.  The amount of that transaction parses, its time parses, and when
    its time text has no ["|"] the row shows that time and that amount
    (rounded to 6 decimals).  A watchlist entry alone never produces a
    row. *)
Theorem alert_snapshot_is_a_transaction (strptime : string -> result Z)
    (raw_tx : list Tx.row) (watchlist : list Watch.row)
    (rows : list Out.row) (o : Out.row) :
  pipeline strptime raw_tx watchlist = Ok rows -> In o rows ->
  exists x a t,
    In x raw_tx
    /\ Tx.user_id x = Out.user_id o
    /\ safe_float (VStr (Tx.amount x)) = Ok a
    /\ strptime (Tx.time x) = Ok t
    /\ (contains "|" (Tx.time x) = false ->
        Out.time o = Tx.time x /\ Out.amount o = round_decimals 6 a).
Proof.
  intros Hp Ho.
  destruct (output_row_source _ _ _ _ _ Hp Ho)
    as (r & u & Hx & Hts & Ha & Ht & Hu & _ & Hot & Hoa & Hmt & Hma).
  exists (Typed.raw r), (Typed.amount_f r), (Typed.parsed_time r).
  repeat split; try assumption.
  - rewrite <- Hts in H. destruct (spec_key_unpacks r H) as [H1 _].
    rewrite H1 in Hmt. injection Hmt as Hmt. rewrite Hot, <- Hmt. exact Hts.
  - rewrite <- Hts in H. destruct (spec_key_unpacks r H) as [_ H2].
    rewrite H2 in Hma. injection Hma as Hma. rewrite Hoa, <- Hma. reflexivity.
Qed.

Lemma alert_snapshot_is_a_transaction_witness :
  exists rows o,
    pipeline strptime_iso unflagged_tx unflagged_watchlist = Ok rows
    /\ In o rows
    /\ exists x a t,
         In x unflagged_tx
         /\ Tx.user_id x = Out.user_id o
         /\ safe_float (VStr (Tx.amount x)) = Ok a
         /\ strptime_iso (Tx.time x) = Ok t
         /\ (contains "|" (Tx.time x) = false ->
             Out.time o = Tx.time x /\ Out.amount o = round_decimals 6 a).
Proof.
  assert (E : exists o rest,
            pipeline strptime_iso unflagged_tx unflagged_watchlist = Ok (o :: rest))
    by (vm_compute; eexists; eexists; reflexivity).
  destruct E as (o & rest & E). exists (o :: rest), o.
  split; [exact E|]. split; [left; reflexivity|].
  apply (alert_snapshot_is_a_transaction strptime_iso unflagged_tx unflagged_watchlist
           (o :: rest) o E).
  left. reflexivity.
Defined.

(** ** Which rows carry the verdict OK *)

Lemma verdict_ok_iff (a v : float) (c : Z)
    (risk notes merchant location : option string) :
  String.prefix "verdict=OK" (spec_analysis a v c risk notes merchant location)
  = negb (spec_trigger a v risk).
Proof.
  unfold spec_analysis, spec_verdict.
  destruct (spec_trigger a v risk); reflexivity.
Qed.

(** X7. The verdict of the rows the pipeline writes.  Every row begins
    with [verdict=SUSPICIOUS] or with [verdict=OK], and the rows with the
    verdict [OK] are exactly those of a user whose watchlist entry has the
    risk text [""] or ["None"] while the amount is not above 2000 and the
    velocity average not above 5000.  In particular a row with a null
    watchlist risk is always [SUSPICIOUS]. *)
Theorem ok_verdict_rows (strptime : string -> result Z)
    (raw_tx : list Tx.row) (watchlist : list Watch.row)
    (rows : list Out.row) (o : Out.row) :
  pipeline strptime raw_tx watchlist = Ok rows -> In o rows ->
  String.prefix "verdict=SUSPICIOUS" (Out.analysis o)
  = negb (String.prefix "verdict=OK" (Out.analysis o))
  /\ (String.prefix "verdict=OK" (Out.analysis o) = true
      <-> PrimFloat.ltb 2000 (Out.amount o) = false
          /\ PrimFloat.ltb 5000 (Out.velocity_avg_1h o) = false
          /\ (Out.watchlist_risk o = Some "" \/ Out.watchlist_risk o = Some "None")).
Proof.
  intros Hp Ho. apply pipeline_inv in Hp. destruct Hp as (trs & un & _ & _ & _ & ->).
  apply in_map_iff in Ho. destruct Ho as [f [<- Hf]].
  unfold alerts_trigger in Hf. apply filter_In in Hf. destruct Hf as [_ Htrig].
  unfold spec_output. cbn [Out.analysis Out.amount Out.velocity_avg_1h Out.watchlist_risk].
  rewrite verdict_suspicious_iff, verdict_ok_iff.
  split; [rewrite negb_involutive; reflexivity|].
  rewrite negb_true_iff.
  pose proof (trigger_differs_iff f) as [_ Hd]. cbv zeta in Hd.
  rewrite <- Hd. tauto.
Qed.

Lemma ok_verdict_rows_witness :
  exists rows o,
    pipeline strptime_iso unflagged_tx unflagged_watchlist = Ok rows
    /\ In o rows
    /\ String.prefix "verdict=SUSPICIOUS" (Out.analysis o)
       = negb (String.prefix "verdict=OK" (Out.analysis o))
    /\ (String.prefix "verdict=OK" (Out.analysis o) = true
        <-> PrimFloat.ltb 2000 (Out.amount o) = false
            /\ PrimFloat.ltb 5000 (Out.velocity_avg_1h o) = false
            /\ (Out.watchlist_risk o = Some ""
                \/ Out.watchlist_risk o = Some "None")).
Proof.
  assert (E : exists o rest,
            pipeline strptime_iso unflagged_tx unflagged_watchlist = Ok (o :: rest))
    by (vm_compute; eexists; eexists; reflexivity).
  destruct E as (o & rest & E). exists (o :: rest), o.
  split; [exact E|]. split; [left; reflexivity|].
  apply (ok_verdict_rows strptime_iso unflagged_tx unflagged_watchlist
           (o :: rest) o E).
  left. reflexivity.
Defined.

(** ** The filter in terms of the watchlist *)

Lemma listed_matches (u : Unpacked.row) (wl : list Watch.row) :
  listed wl (Unpacked.user_id u) = negb (match matches u wl with [] => true | _ => false end).
Proof.
  unfold listed, matches. induction wl as [|w wl IH]; [reflexivity|]. simpl.
  destruct (String.eqb (Unpacked.user_id u) (Watch.entity_id w)); [reflexivity|exact IH].
Qed.

(** X8. The alert filter in terms of the two inputs: the rows written are
    the projections of exactly the joined records whose amount is above
    2000, whose velocity average is above 5000, or whose user has an entry
    on the watchlist, whatever the risk text of that entry is. *)
Theorem alerts_are_over_threshold_or_listed (strptime : string -> result Z)
    (raw_tx : list Tx.row) (watchlist : list Watch.row) (rows : list Out.row) :
  pipeline strptime raw_tx watchlist = Ok rows ->
  exists fc,
    joined strptime raw_tx watchlist = Ok fc
    /\ rows = map spec_output (filter (over_threshold_or_listed watchlist) fc).
Proof.
  intros Hp. apply pipeline_inv in Hp. destruct Hp as (trs & un & _ & _ & Hj & ->).
  eexists. split; [exact Hj|]. f_equal. unfold alerts_trigger.
  apply filter_ext_in. intros f Hf.
  apply in_map_iff in Hf. destruct Hf as [c [<- Hc]].
  apply full_context_In in Hc. destruct Hc as [u [_ Hc]].
  unfold trigger, over_threshold_or_listed. cbn [Full.ctx Full.amount_f Full.velocity_avg_f].
  f_equal.
  destruct Hc as [[Hm ->]|[w [Hw ->]]]; cbn; rewrite listed_matches.
  - rewrite Hm. reflexivity.
  - destruct (matches u watchlist); [destruct Hw|reflexivity].
Qed.

Lemma alerts_are_over_threshold_or_listed_witness :
  exists rows fc,
    pipeline strptime_iso unflagged_tx unflagged_watchlist = Ok rows
    /\ joined strptime_iso unflagged_tx unflagged_watchlist = Ok fc
    /\ rows = map spec_output (filter (over_threshold_or_listed unflagged_watchlist) fc).
Proof.
  assert (E : exists rows,
            pipeline strptime_iso unflagged_tx unflagged_watchlist = Ok rows)
    by (vm_compute; eexists; reflexivity).
  destruct E as (rows & E).
  destruct (alerts_are_over_threshold_or_listed strptime_iso unflagged_tx
              unflagged_watchlist rows E) as (fc & Hj & Hr).
  exists rows, fc. split; [exact E|]. split; [exact Hj|exact Hr].
Defined.

(* ================================================================== *)
(** * Further properties of the aggregates *)
(* ================================================================== *)

(** ** One aggregate for each user *)

Lemma filter_none {A} (p : A -> bool) (l : list A) :
  (forall a, In a l -> p a = false) -> filter p l = [].
Proof.
  induction l as [|a l IH]; intros H; [reflexivity|]. simpl.
  rewrite (H a (or_introl eq_refl)). apply IH. intros b Hb. apply H. right. exact Hb.
Qed.

(** Filtering a duplicate-free list for one of its values. *)
Lemma filter_eq_NoDup (x : string) (l : list string) :
  NoDup l -> In x l -> filter (fun y => String.eqb y x) l = [x].
Proof.
  induction l as [|y l IH]; intros Hnd Hin; [destruct Hin|].
  inversion Hnd as [|? ? Hnotin Hnd']; subst. cbn [filter].
  destruct (String.eqb_spec y x) as [->|Hne].
  - f_equal. apply filter_none. intros a Ha.
    apply String.eqb_neq. intros ->. contradiction.
  - apply IH; [exact Hnd'|]. destruct Hin as [Hin|Hin]; [contradiction|exact Hin].
Qed.

Lemma filter_map_comm {A B} (f : A -> B) (p : B -> bool) (l : list A) :
  filter p (map f l) = map f (filter (fun a => p (f a)) l).
Proof.
  induction l as [|a l IH]; [reflexivity|]. simpl.
  destruct (p (f a)); simpl; rewrite IH; reflexivity.
Qed.

(** X9. [window_stats] has exactly one aggregate for each user of the
    stream, whatever the times of the transactions are, and the count of
    that aggregate is sixty times the number of the transactions of the
    user: every transaction is counted once for each of the sixty windows
    it belongs to. *)
Theorem one_aggregate_per_user (ts : list Stream.row) (u : string) :
  In u (map Stream.user_id ts) ->
  exists w,
    filter (fun w => String.eqb (Win.user_id w) u) (window_stats ts) = [w]
    /\ Win.velocity_count_1h w = 60 * Z.of_nat (length (user_txs u ts)).
Proof.
  intros Hu. exists (user_aggregate u ts). split; [|apply user_aggregate_count].
  unfold window_stats. rewrite window_stats_sliding_eq, filter_map_comm.
  cbn [user_aggregate Win.user_id].
  rewrite filter_eq_NoDup; [reflexivity|apply NoDup_nodup|apply nodup_In; exact Hu].
Qed.

Lemma one_aggregate_per_user_witness :
  In "u7" (map Stream.user_id tie_stream)
  /\ exists w,
       filter (fun w => String.eqb (Win.user_id w) "u7") (window_stats tie_stream) = [w]
       /\ Win.velocity_count_1h w = 60 * Z.of_nat (length (user_txs "u7" tie_stream)).
Proof.
  assert (Hu : In "u7" (map Stream.user_id tie_stream)) by (left; reflexivity).
  split; [exact Hu|]. exact (one_aggregate_per_user tie_stream "u7" Hu).
Defined.

(** ** The snapshot and the time text *)




(** ** The order of arrival *)

Lemma filter_Permutation {A} (p : A -> bool) (l l' : list A) :
  Permutation l l' -> Permutation (filter p l) (filter p l').
Proof.
  induction 1 as [|x l l' _ IH|x y l|l l' l'' _ IH1 _ IH2]; simpl.
  - constructor.
  - destruct (p x); [constructor|]; exact IH.
  - destruct (p x), (p y); try apply Permutation_refl. constructor.
  - eapply Permutation_trans; eassumption.
Qed.

(** X11. The count and the latest snapshot of the aggregate of a user do
    not depend on the order in which the transactions arrive: a stream with
    the same transactions in another order has an aggregate for the same
    user with the same count and the same snapshot. *)
Theorem count_and_snapshot_ignore_order (ts ts' : list Stream.row) (w : Win.row) :
  Permutation ts ts' -> In w (window_stats ts) ->
  exists w',
    In w' (window_stats ts')
    /\ Win.user_id w' = Win.user_id w
    /\ Win.velocity_count_1h w' = Win.velocity_count_1h w
    /\ Win.latest_meta w' = Win.latest_meta w.
Proof.
  intros Hperm Hw. apply window_stats_In in Hw. destruct Hw as (u & Hu & ->).
  assert (Hu' : In u (map Stream.user_id ts'))
    by (apply (Permutation_in _ (Permutation_map _ Hperm)); exact Hu).
  assert (Hp : Permutation (user_txs u ts) (user_txs u ts'))
    by (apply filter_Permutation; exact Hperm).
  pose proof (user_txs_nonempty u ts Hu) as Hne.
  pose proof (user_txs_nonempty u ts' Hu') as Hne'.
  exists (user_aggregate u ts'). split.
  - apply window_stats_In. exists u. split; [exact Hu'|reflexivity].
  - split; [reflexivity|]. split.
    + rewrite !user_aggregate_count, (Permutation_length Hp). reflexivity.
    + rewrite !user_aggregate_latest by assumption.
      set (l := map Stream.tx_meta (user_txs u ts)).
      set (l' := map Stream.tx_meta (user_txs u ts')).
      assert (Hpl : Permutation l l') by (apply Permutation_map; exact Hp).
      assert (Hl : l <> []) by (unfold l; destruct (user_txs u ts);
                                [congruence|discriminate]).
      assert (Hl' : l' <> []) by (unfold l'; destruct (user_txs u ts');
                                  [congruence|discriminate]).
      destruct (reducers_max_spec l Hl) as [Hin Hmax].
      destruct (reducers_max_spec l' Hl') as [Hin' Hmax'].
      apply str_leb_antisym.
      * apply Hmax. apply (Permutation_in _ (Permutation_sym Hpl)). exact Hin'.
      * apply Hmax'. apply (Permutation_in _ Hpl). exact Hin.
Qed.

Lemma count_and_snapshot_ignore_order_witness :
  Permutation tie_stream (rev tie_stream)
  /\ exists w w',
       In w (window_stats tie_stream)
       /\ In w' (window_stats (rev tie_stream))
       /\ Win.user_id w' = Win.user_id w
       /\ Win.velocity_count_1h w' = Win.velocity_count_1h w
       /\ Win.latest_meta w' = Win.latest_meta w.
Proof.
  assert (Hperm : Permutation tie_stream (rev tie_stream)) by apply Permutation_rev.
  assert (Hw : In (user_aggregate "u7" tie_stream) (window_stats tie_stream)).
  { apply window_stats_In. exists "u7". split; [left; reflexivity|reflexivity]. }
  split; [exact Hperm|].
  destruct (count_and_snapshot_ignore_order tie_stream (rev tie_stream) _
              Hperm Hw) as [w' H].
  exists (user_aggregate "u7" tie_stream), w'.
  split; [exact Hw|exact H].
Defined.

(* ================================================================== *)
(** * The earlier variant against [app.py] *)
(* ================================================================== *)

Lemma text_of_or_default (x : option string) : Backup.text_of x = or_default x "".
Proof. destruct x as [[|c s]|]; reflexivity. Qed.

Lemma part_or_empty_index (m : option string) (i : nat) :
  Backup.part_or_empty m i = try_except (parts <- meta_split m ;; index parts i) (Ok "").
Proof.
  unfold Backup.part_or_empty, meta_split.
  destruct m as [s|]; [|reflexivity].
  destruct s as [|c s]; cbn [truthy negb bind].
  - destruct i as [|[|i]]; reflexivity.
  - set (parts := split "|" 4 (String c s)). unfold index.
    destruct (Nat.ltb_spec i (length parts)) as [Hlt|Hge].
    + reflexivity.
    + apply nth_error_None in Hge. rewrite Hge. reflexivity.
Qed.

(** X12. The packer and the five unpackers of [app.py] return, on every
    input, what the guarded versions of [copy_backup.py] and [etvxgxvg.py]
    return: dropping the explicit tests for null values, empty keys and
    short keys changed no result, the [try]/[except] of each function
    covering the same cases. *)
Theorem unpackers_agree_with_guarded_variant
    (t loc merch stat m : option string) (amt : value) :
  make_meta_str t amt loc merch stat = Backup.make_meta_str t amt loc merch stat
  /\ meta_get_time m = Backup.meta_get_time m
  /\ meta_get_amount m = Backup.meta_get_amount m
  /\ meta_get_location m = Backup.meta_get_location m
  /\ meta_get_merchant m = Backup.meta_get_merchant m
  /\ meta_get_status m = Backup.meta_get_status m.
Proof.
  split; [|split; [|split; [|repeat split]]].
  - unfold make_meta_str, Backup.make_meta_str. rewrite !text_of_or_default. reflexivity.
  - unfold meta_get_time, Backup.meta_get_time, meta_split.
    destruct m as [[|c s]|]; cbn [truthy negb bind]; try reflexivity.
    destruct (split_head "|" 4 (String c s)) as (x & tl & ->). reflexivity.
  - unfold meta_get_amount, Backup.meta_get_amount, meta_split.
    destruct m as [[|c s]|]; cbn [truthy negb bind]; try reflexivity.
    destruct (split "|" 4 (String c s)) as [|x [|y tl]]; try reflexivity.
    cbn [length Nat.ltb Nat.leb index nth_error bind].
    destruct (String.eqb_spec y "") as [->|Hy]; reflexivity.
  - unfold meta_get_location, Backup.meta_get_location.
    rewrite part_or_empty_index. reflexivity.
  - unfold meta_get_merchant, Backup.meta_get_merchant.
    rewrite part_or_empty_index. reflexivity.
  - unfold meta_get_status, Backup.meta_get_status.
    rewrite part_or_empty_index. reflexivity.
Qed.

(** X13. The rule engine of [copy_backup.py] tolerates every null: it
    returns an analysis whatever is missing, a null amount or velocity
    counting as 0.0 and a null count as 0, and its verdict on numeric
    arguments is the verdict of the rule engine of [app.py]. *)
Theorem guarded_rule_engine_tolerates_nulls (amount vel : option float) (cnt : option Z)
    (risk notes merchant location : option string) (a v : float) (c : Z) :
  (exists s,
     Backup.rule_based_explanation amount vel cnt risk notes merchant location = Ok s)
  /\ Backup.rule_based_explanation None vel cnt risk notes merchant location
     = Backup.rule_based_explanation (Some 0%float) vel cnt risk notes merchant location
  /\ Backup.rule_based_explanation amount None cnt risk notes merchant location
     = Backup.rule_based_explanation amount (Some 0%float) cnt risk notes merchant location
  /\ Backup.rule_based_explanation amount vel None risk notes merchant location
     = Backup.rule_based_explanation amount vel (Some 0) risk notes merchant location
  /\ (exists s s',
        Backup.rule_based_explanation (Some a) (Some v) (Some c)
          risk notes merchant location = Ok s
        /\ rule_based_explanation (Some a) (Some v) (Some c)
             risk notes merchant location = Ok s'
        /\ String.prefix "verdict=SUSPICIOUS" s = String.prefix "verdict=SUSPICIOUS" s'
        /\ String.prefix "verdict=SUSPICIOUS" s = spec_trigger a v risk).
Proof.
  split; [|split; [|split; [|split]]].
  - unfold Backup.rule_based_explanation, Backup.exceeds.
    destruct amount as [x|], vel as [y|];
      try destruct (PrimFloat.ltb 2000 x); try destruct (PrimFloat.ltb 5000 y);
      cbn [bind format_opt]; eexists; reflexivity.
  - reflexivity.
  - unfold Backup.rule_based_explanation, Backup.exceeds.
    replace (PrimFloat.ltb 5000 0) with false by reflexivity. reflexivity.
  - reflexivity.
  - assert (H : exists s,
              Backup.rule_based_explanation (Some a) (Some v) (Some c)
                risk notes merchant location = Ok s
              /\ String.prefix "verdict=SUSPICIOUS" s = spec_trigger a v risk).
    { unfold Backup.rule_based_explanation, Backup.exceeds, spec_trigger.
      destruct (PrimFloat.ltb 2000 a), (PrimFloat.ltb 5000 v), (risk_flagged risk);
        cbn [bind format_opt]; eexists; split; reflexivity. }
    destruct H as [s [Hs Hv]]. exists s. eexists.
    split; [exact Hs|]. split; [apply rule_based_explanation_numeric|].
    rewrite verdict_suspicious_iff. split; exact Hv.
Qed.

(* ================================================================== *)
(** * Amounts that are not numbers *)
(* ================================================================== *)

Lemma SFcompare_refl_finite (s : bool) (m : positive) (e : Z) :
  SFcompare (S754_finite s m e) (S754_finite s m e) = Some Eq.
Proof.
  simpl. rewrite Z.compare_refl, Pos.compare_cont_refl. destruct s; reflexivity.
Qed.

(** [is_nan] holds of the floats that convert to the value NaN. *)
Lemma is_nan_iff (f : float) : is_nan f = true <-> Prim2SF f = S754_nan.
Proof.
  unfold is_nan. rewrite FloatAxioms.eqb_spec. unfold SFeqb.
  destruct (Prim2SF f) as [s|s| |s m e].
  - destruct s; simpl; split; discriminate.
  - destruct s; simpl; split; discriminate.
  - simpl. split; reflexivity.
  - rewrite SFcompare_refl_finite. simpl. split; discriminate.
Qed.

Lemma add_nan_l (x y : float) : is_nan x = true -> is_nan (x + y) = true.
Proof.
  rewrite !is_nan_iff, add_spec. intros ->. reflexivity.
Qed.

Lemma add_nan_r (x y : float) : is_nan y = true -> is_nan (x + y) = true.
Proof.
  rewrite !is_nan_iff, add_spec. intros ->. destruct (Prim2SF x); reflexivity.
Qed.

Lemma fold_add_nan_acc (l : list float) (acc : float) :
  is_nan acc = true -> is_nan (fold_left PrimFloat.add l acc) = true.
Proof.
  revert acc. induction l as [|x l IH]; intros acc H; [exact H|].
  simpl. apply IH. apply add_nan_l. exact H.
Qed.

(** A sum with a NaN among its terms is NaN. *)
Lemma reducers_sum_nan (l : list float) (x : float) :
  In x l -> is_nan x = true -> is_nan (Pw.reducers_sum l) = true.
Proof.
  unfold Pw.reducers_sum. generalize 0%float as acc.
  induction l as [|y l IH]; intros acc Hin Hx; [destruct Hin|].
  simpl. destruct Hin as [->|Hin].
  - apply fold_add_nan_acc. apply add_nan_r. exact Hx.
  - apply IH; assumption.
Qed.

Lemma ltb_nan_r (x y : float) : is_nan y = true -> PrimFloat.ltb x y = false.
Proof.
  rewrite is_nan_iff, ltb_spec. intros ->. unfold SFltb.
  destruct (Prim2SF x); reflexivity.
Qed.

Lemma div_nan_l (x y : float) : is_nan x = true -> is_nan (x / y) = true.
Proof.
  rewrite !is_nan_iff, div_spec. intros ->. reflexivity.
Qed.

(** X14. [safe_float] reads the amount text ["nan"] as the float NaN, and
    one such amount silences the velocity signal of its user: the sum of
    the aggregate of the user is NaN, so is the average, and the test
    [velocity_avg_f > 5000.0] is false whatever the other amounts of the
    user are and whenever they were made. *)
Theorem nan_amount_silences_velocity :
  (safe_float (VStr "nan") = Ok nan /\ is_nan nan = true)
  /\ forall (ts : list Stream.row) (w : Win.row) (r : Stream.row),
       In w (window_stats ts) -> In r ts ->
       Stream.user_id r = Win.user_id w ->
       is_nan (Stream.amount_f r) = true ->
       is_nan (Win.velocity_sum_1h w) = true
       /\ exists v,
            velocity_avg_1h (Win.velocity_sum_1h w) (Win.velocity_count_1h w) = Ok v
            /\ is_nan v = true
            /\ PrimFloat.ltb 5000 v = false.
Proof.
  split; [split; vm_compute; reflexivity|].
  intros ts w r Hw Hr Hin Hnan.
  pose proof (window_stats_count_nonneg ts w Hw) as Hcount.
  apply window_stats_In in Hw. destruct Hw as (u & _ & ->).
  cbn [user_aggregate Win.user_id] in Hin.
  assert (Hsum : is_nan (Win.velocity_sum_1h (user_aggregate u ts)) = true).
  { cbn [user_aggregate Win.velocity_sum_1h].
    apply (reducers_sum_nan _ (Stream.amount_f r)); [|exact Hnan].
    apply in_map. apply sixty_fold_In. apply filter_In.
    split; [exact Hr|]. rewrite Hin. apply String.eqb_refl. }
  split; [exact Hsum|].
  rewrite velocity_avg_1h_total by exact Hcount.
  eexists. split; [reflexivity|]. unfold code_velocity_avg.
  assert (Hv := div_nan_l _ (Pw.float_of_int
                               (Win.velocity_count_1h (user_aggregate u ts)) + 1e-9)
                  Hsum).
  split; [exact Hv|]. apply ltb_nan_r. exact Hv.
Qed.

Lemma nan_amount_silences_velocity_witness :
  exists w r,
    In w (window_stats (stream_of nan_tx)) /\ In r (stream_of nan_tx)
    /\ Stream.user_id r = Win.user_id w
    /\ is_nan (Stream.amount_f r) = true
    /\ Win.velocity_count_1h w = 180
    /\ is_nan (Win.velocity_sum_1h w) = true
    /\ exists v,
         velocity_avg_1h (Win.velocity_sum_1h w) (Win.velocity_count_1h w) = Ok v
         /\ is_nan v = true
         /\ PrimFloat.ltb 5000 v = false.
Proof.
  assert (Hw : In (user_aggregate "u9" (stream_of nan_tx))
                 (window_stats (stream_of nan_tx))).
  { apply window_stats_In. exists "u9". split; [vm_compute; tauto|reflexivity]. }
  assert (Hr : exists r, nth_error (stream_of nan_tx) 1 = Some r)
    by (vm_compute; eexists; reflexivity).
  destruct Hr as [r Hr].
  assert (Hin : In r (stream_of nan_tx)) by (eapply nth_error_In; exact Hr).
  assert (Hu : Stream.user_id r = Win.user_id (user_aggregate "u9" (stream_of nan_tx))).
  { vm_compute in Hr. injection Hr as <-. reflexivity. }
  assert (Hnan : is_nan (Stream.amount_f r) = true).
  { vm_compute in Hr. injection Hr as <-. vm_compute. reflexivity. }
  exists (user_aggregate "u9" (stream_of nan_tx)), r.
  split; [exact Hw|]. split; [exact Hin|]. split; [exact Hu|]. split; [exact Hnan|].
  split; [vm_compute; reflexivity|].
  exact (proj2 nan_amount_silences_velocity (stream_of nan_tx) _ r Hw Hin Hu Hnan).
Defined.

(* ================================================================== *)
(** * Integer amounts *)
(* ================================================================== *)

(** [float] reads the numeral of an integer as the float nearest to it. *)
Lemma float_of_string_integer (s : bool) (n : N) :
  float_of_string (sign_str s ++ str_of_N n)
  = Ok (SF2Prim (nearest_binary64 s (Z.of_N n) 1)).
Proof.
  unfold float_of_string.
  rewrite (strip_chars_no_space _ _ is_float_space_is_space).
  2:{ rewrite has_space_app. unfold str_of_N.
      rewrite fixed_digits_no_space. destruct s; reflexivity. }
  destruct (str_of_N_head n) as (d & r & Hd & Hhead).
  destruct (digit_char_facts d Hd) as (Hdig & _ & _ & Hlow & _ & Hplus & Hminus & Hi & Hn).
  cbv zeta in Hdig, Hlow, Hplus, Hminus, Hi, Hn.
  assert (Hsign : split_sign (sign_str s ++ str_of_N n) = (s, str_of_N n)).
  { destruct s; [reflexivity|]. cbn [sign_str String.append].
    rewrite Hhead. apply split_sign_other; assumption. }
  rewrite Hsign. clear Hsign.
  assert (Hkw : forall kw c, digit_char d <> c ->
            String.eqb (lower_str (str_of_N n)) (String c kw) = false).
  { intros kw c Hc. rewrite Hhead. cbn [lower_str]. rewrite Hlow.
    apply string_eqb_head. exact Hc. }
  rewrite (Hkw "nf" "i"%char Hi), (Hkw "nfinity" "i"%char Hi), (Hkw "an" "n"%char Hn).
  cbn [orb]. clear Hkw.
  unfold parse_number.
  destruct (digitpart_str_of_N n "" I) as [k Hk].
  rewrite append_empty_r in Hk. rewrite Hk.
  cbn [Nat.add Nat.eqb Z.of_nat Z.opp Z.sub].
  rewrite Z.max_r, Z.pow_0_r, Z.mul_1_r by lia. reflexivity.
Qed.

(** The float of a positive integer below [2^53]: the integer shifted to
    53 bits. *)
Lemma canonical_int (p : positive) :
  Zpos p < 2 ^ 53 ->
  exists m,
    Zpos m = Zpos p * 2 ^ (52 - Z.log2 (Zpos p))
    /\ bounded prec emax m (Z.log2 (Zpos p) - 52) = true.
Proof.
  intros Hp.
  pose proof (Z.log2_nonneg (Zpos p)) as HL0.
  assert (HL : Z.log2 (Zpos p) < 53) by (apply Z.log2_lt_pow2; lia).
  set (L := Z.log2 (Zpos p)) in *.
  assert (Hpos : 0 < Zpos p * 2 ^ (52 - L)) by (apply Z.mul_pos_pos; [lia|apply Z.pow_pos_nonneg; lia]).
  destruct (Zpos p * 2 ^ (52 - L)) as [|m|m] eqn:Hm; try lia.
  exists m. split; [reflexivity|].
  unfold bounded, canonical_mantissa, fexp. rewrite digits2_log2, <- Hm.
  rewrite Z.log2_mul_pow2 by lia. fold L.
  apply andb_true_iff. split; [apply Z.eqb_eq|apply Z.leb_le];
    unfold SpecFloat.emin, prec, emax; lia.
Qed.

(** Rounding a mantissa that is already canonical keeps it. *)
Lemma binary_round_aux_canonical (sx : bool) (m : positive) (e : Z) :
  bounded prec emax m e = true ->
  binary_round_aux prec emax sx (Zpos m) e loc_Exact = S754_finite sx m e.
Proof.
  intros Hb. unfold bounded, canonical_mantissa in Hb.
  apply andb_true_iff in Hb. destruct Hb as [Hcan Hmax]. apply Z.eqb_eq in Hcan.
  unfold binary_round_aux, shr_fexp. cbn [Zdigits2].
  rewrite Hcan, Z.sub_diag. cbn [shr shr_record_of_loc shr_m loc_of_shr_record
    round_nearest_even Zdigits2].
  rewrite Hcan, Z.sub_diag. cbn [shr shr_record_of_loc shr_m].
  rewrite Hmax. reflexivity.
Qed.

Lemma binary_round_int (sx : bool) (p m : positive) :
  Zpos p < 2 ^ 53 ->
  Zpos m = Zpos p * 2 ^ (52 - Z.log2 (Zpos p)) ->
  bounded prec emax m (Z.log2 (Zpos p) - 52) = true ->
  binary_round prec emax sx p 0 = S754_finite sx m (Z.log2 (Zpos p) - 52).
Proof.
  intros Hp Hm Hb.
  pose proof (Z.log2_nonneg (Zpos p)) as HL0.
  assert (HL : Z.log2 (Zpos p) < 53) by (apply Z.log2_lt_pow2; lia).
  unfold binary_round, shl_align. rewrite digits2_log2.
  set (L := Z.log2 (Zpos p)) in *.
  assert (Hf : fexp prec emax (L + 1 + 0) = L - 52)
    by (unfold fexp, SpecFloat.emin, prec, emax; lia).
  rewrite Hf, Z.sub_0_r.
  destruct (L - 52) as [|d|d] eqn:Hd; try lia.
  - assert (m = p) by (replace (52 - L) with 0 in Hm by lia; rewrite Z.mul_1_r in Hm;
                       injection Hm as ->; reflexivity).
    subst m. apply binary_round_aux_canonical. exact Hb.
  - assert (Hmd : Pos.iter xO p d = m).
    { apply Pos2Z.inj. change (Pos.iter xO p d) with (Zpower.shift_pos d p).
      rewrite Zpower.shift_pos_correct, Hm, Z.pow_pos_fold.
      replace (52 - L) with (Zpos d) by lia. ring. }
    rewrite Hmd. apply binary_round_aux_canonical. exact Hb.
Qed.

(** The float of a positive integer below [2^53], as the engine casts it
    and as [float] parses it. *)
Lemma float_of_positive (s : bool) (p : positive) :
  Zpos p < 2 ^ 53 ->
  exists m,
    Zpos m = Zpos p * 2 ^ (52 - Z.log2 (Zpos p))
    /\ valid_binary (S754_finite s m (Z.log2 (Zpos p) - 52)) = true
    /\ nearest_binary64 s (Zpos p) 1 = S754_finite s m (Z.log2 (Zpos p) - 52)
    /\ Prim2SF (of_uint63 (Uint63.of_Z (Zpos p)))
       = S754_finite false m (Z.log2 (Zpos p) - 52).
Proof.
  intros Hp. destruct (canonical_int p Hp) as [m [Hm Hb]].
  pose proof (Z.log2_nonneg (Zpos p)) as HL0.
  assert (HL : Z.log2 (Zpos p) < 53) by (apply Z.log2_lt_pow2; lia).
  exists m. split; [exact Hm|]. split; [exact Hb|]. split.
  - apply nearest_binary64_exact; [exact Hb|lia|].
    rewrite Z.max_l, Z.max_r, Z.pow_0_r, Hm by lia.
    replace (- (Z.log2 (Zpos p) - 52)) with (52 - Z.log2 (Zpos p)) by lia. ring.
  - rewrite of_uint63_spec, Uint63.of_Z_spec.
    rewrite Z.mod_small by (unfold Uint63.wB; cbn; lia).
    cbn [binary_normalize]. apply binary_round_int; assumption.
Qed.

(** The test [x > 2000.0] on the float of an integer below [2^53]. *)
Lemma ltb_2000_positive (m : positive) (p : positive) :
  Zpos p < 2 ^ 53 ->
  Zpos m = Zpos p * 2 ^ (52 - Z.log2 (Zpos p)) ->
  SFltb (Prim2SF 2000) (S754_finite false m (Z.log2 (Zpos p) - 52)) = (2000 <? Zpos p).
Proof.
  intros Hp Hm.
  let v := eval vm_compute in (Prim2SF 2000) in change (Prim2SF 2000) with v.
  pose proof (Z.log2_nonneg (Zpos p)) as HL0.
  assert (HL : Z.log2 (Zpos p) < 53) by (apply Z.log2_lt_pow2; lia).
  destruct (Z.log2_spec (Zpos p) ltac:(lia)) as [H1 H2]. unfold Z.succ in H2.
  set (L := Z.log2 (Zpos p)) in *.
  unfold SFltb, SFcompare.
  destruct (Z.compare_spec (-42) (L - 52)) as [He|He|He].
  - assert (L = 10) by lia.
    change (Pcompare 8796093022208000 m Eq) with (Pos.compare 8796093022208000 m).
    rewrite Pos2Z.inj_compare, Hm. replace (52 - L) with 42 by lia.
    destruct (Z.compare_spec (Zpos 8796093022208000) (Zpos p * 2 ^ 42)) as [Hc|Hc|Hc];
      symmetry; [apply Z.ltb_ge|apply Z.ltb_lt|apply Z.ltb_ge]; lia.
  - symmetry. apply Z.ltb_lt.
    assert (2 ^ 11 <= 2 ^ L) by (apply Z.pow_le_mono_r; lia). lia.
  - symmetry. apply Z.ltb_ge.
    assert (2 ^ (L + 1) <= 2 ^ 10) by (apply Z.pow_le_mono_r; lia). lia.
Qed.

(** X15. The text of an integer of magnitude below [2^53] is read by
    [safe_float] as exactly that integer (the float the engine casts the
    integer to), and the amount test [amount_f > 2000.0] on the result is
    the test of the integer. *)
Theorem safe_float_reads_integers_exactly (z : Z) :
  - 2 ^ 53 < z < 2 ^ 53 ->
  safe_float (VStr (str_of_Z z)) = Ok (Pw.float_of_int z)
  /\ PrimFloat.ltb 2000 (Pw.float_of_int z) = (2000 <? z).
Proof.
  intros Hz. unfold safe_float, float_of_str_strip, Pw.float_of_int.
  assert (Hstrip : strip (str_of_Z z) = str_of_Z z).
  { apply strip_no_space. destruct z as [|p|p]; unfold str_of_Z, str_of_N;
      cbn [has_space]; rewrite ?fixed_digits_no_space; reflexivity. }
  rewrite Hstrip. destruct z as [|p|p].
  - split; vm_compute; reflexivity.
  - destruct (float_of_positive false p ltac:(lia)) as (m & Hm & Hv & Hn & Hu).
    change (Z.pos p <? 0) with false. cbv iota.
    change (str_of_Z (Z.pos p)) with (sign_str false ++ str_of_N (Npos p)).
    rewrite float_of_string_integer. cbn [try_except Z.of_N]. rewrite Hn. split.
    + f_equal. apply Prim2SF_inj. rewrite Prim2SF_SF2Prim by exact Hv.
      symmetry. exact Hu.
    + rewrite ltb_spec, Hu. apply ltb_2000_positive; [lia|exact Hm].
  - destruct (float_of_positive true p ltac:(lia)) as (m & Hm & Hv & Hn & Hu).
    change (Z.neg p <? 0) with true. cbv iota.
    change (str_of_Z (Z.neg p)) with (sign_str true ++ str_of_N (Npos p)).
    rewrite float_of_string_integer. cbn [try_except Z.of_N]. rewrite Hn.
    change (- Z.neg p) with (Zpos p). split.
    + f_equal. apply Prim2SF_inj. rewrite Prim2SF_SF2Prim by exact Hv.
      rewrite opp_spec, Hu. reflexivity.
    + rewrite ltb_spec, opp_spec, Hu.
      let v := eval vm_compute in (Prim2SF 2000) in change (Prim2SF 2000) with v.
      reflexivity.
Qed.

Lemma safe_float_reads_integers_exactly_witness :
  - 2 ^ 53 < 8000 < 2 ^ 53
  /\ safe_float (VStr (str_of_Z 8000)) = Ok (Pw.float_of_int 8000)
  /\ PrimFloat.ltb 2000 (Pw.float_of_int 8000) = (2000 <? 8000).
Proof.
  split; [lia|]. apply (safe_float_reads_integers_exactly 8000). lia.
Defined.

(* ================================================================== *)
(** * Amounts with six decimals *)
(* ================================================================== *)

(** [div_half_even] is within half a unit of the quotient. *)
Lemma div_half_even_bound (n d : Z) :
  0 < d -> 2 * Z.abs (div_half_even n d * d - n) <= d.
Proof.
  intros Hd. unfold div_half_even.
  pose proof (Z.div_mod n d ltac:(lia)) as Hdm.
  pose proof (Z.mod_pos_bound n d Hd) as Hr.
  destruct (Z.ltb_spec d (2 * (n mod d))) as [H1|H1]; cbn [orb].
  - nia.
  - destruct (Z.eqb_spec d (2 * (n mod d))) as [H2|H2]; cbn [andb].
    + destruct (Z.odd (n / d)); nia.
    + nia.
Qed.

(** The integer within less than half a unit of a quotient is what
    [div_half_even] returns. *)
Lemma div_half_even_unique (x d q : Z) :
  0 < d -> 2 * Z.abs (x - q * d) < d -> div_half_even x d = q.
Proof.
  intros Hd Hq. unfold div_half_even.
  pose proof (Z.div_mod x d ltac:(lia)) as Hdm.
  pose proof (Z.mod_pos_bound x d Hd) as Hr.
  assert (Hcases : x / d = q \/ x / d = q - 1) by nia.
  destruct (Z.ltb_spec d (2 * (x mod d))) as [H1|H1]; cbn [orb].
  - nia.
  - destruct (Z.eqb_spec d (2 * (x mod d))) as [H2|H2]; cbn [andb].
    + exfalso. nia.
    + nia.
Qed.

(** [log2_ratio n d] is the floor of the binary logarithm of [n / d]. *)
Lemma log2_ratio_bounds (n d : Z) :
  0 < n -> 0 < d ->
  let l := log2_ratio n d in
  Z.log2 n - Z.log2 d - 1 <= l <= Z.log2 n - Z.log2 d
  /\ d * 2 ^ Z.max l 0 <= n * 2 ^ Z.max (- l) 0
  /\ n * 2 ^ Z.max (- (l + 1)) 0 < d * 2 ^ Z.max (l + 1) 0.
Proof.
  intros Hn Hd. cbv zeta. unfold log2_ratio.
  destruct (Z.log2_spec n Hn) as [Ha1 Ha2]. destruct (Z.log2_spec d Hd) as [Hb1 Hb2].
  pose proof (Z.log2_nonneg n) as Ha0. pose proof (Z.log2_nonneg d) as Hb0.
  set (a := Z.log2 n) in *. set (b := Z.log2 d) in *. unfold Z.succ in Ha2, Hb2.
  destruct (Z.leb_spec (d * 2 ^ Z.max (a - b) 0) (n * 2 ^ Z.max (- (a - b)) 0)) as [Ht|Ht].
  - split; [lia|]. split; [exact Ht|].
    destruct (Z.le_gt_cases 0 (a - b + 1)) as [Hs|Hs].
    + rewrite (Z.max_r (- (a - b + 1)) 0), (Z.max_l (a - b + 1) 0), Z.pow_0_r by lia.
      assert (Hp : 2 ^ (a + 1) = 2 ^ b * 2 ^ (a - b + 1))
        by (rewrite <- Z.pow_add_r by lia; f_equal; lia).
      pose proof (pow2_pos (a - b + 1)) as Hpp. rewrite Z.max_l in Hpp by lia. nia.
    + rewrite (Z.max_l (- (a - b + 1)) 0), (Z.max_r (a - b + 1) 0), Z.pow_0_r by lia.
      assert (Hp : 2 ^ b = 2 ^ (a + 1) * 2 ^ (- (a - b + 1)))
        by (rewrite <- Z.pow_add_r by lia; f_equal; lia).
      pose proof (pow2_pos (- (a - b + 1))) as Hpp. rewrite Z.max_l in Hpp by lia. nia.
  - split; [lia|]. split.
    + destruct (Z.le_gt_cases 0 (a - b - 1)) as [Hs|Hs].
      * rewrite (Z.max_l (a - b - 1) 0), (Z.max_r (- (a - b - 1)) 0), Z.pow_0_r by lia.
        assert (Hp : 2 ^ a = 2 ^ (b + 1) * 2 ^ (a - b - 1))
          by (rewrite <- Z.pow_add_r by lia; f_equal; lia).
        pose proof (pow2_pos (a - b - 1)) as Hpp. rewrite Z.max_l in Hpp by lia. nia.
      * rewrite (Z.max_r (a - b - 1) 0), (Z.max_l (- (a - b - 1)) 0), Z.pow_0_r by lia.
        assert (Hp : 2 ^ (b + 1) = 2 ^ a * 2 ^ (- (a - b - 1)))
          by (rewrite <- Z.pow_add_r by lia; f_equal; lia).
        pose proof (pow2_pos (- (a - b - 1))) as Hpp. rewrite Z.max_l in Hpp by lia. nia.
    + replace (a - b - 1 + 1) with (a - b) by lia. lia.
Qed.

(** The float nearest to [n / 10^6] for a positive [n] below [10^15]: its
    exponent is so small that a unit of the last place is less than a
    millionth. *)
Lemma nearest_binary64_micro (s : bool) (n : Z) :
  0 < n < 10 ^ 15 ->
  exists m e,
    nearest_binary64 s n (10 ^ 6) = S754_finite s m e
    /\ bounded prec emax m e = true
    /\ e < 0
    /\ 2 * Z.abs (Zpos m * 10 ^ 6 - n * 2 ^ (- e)) < 2 ^ (- e).
Proof.
  intros Hn.
  destruct (log2_ratio_bounds n (10 ^ 6) ltac:(lia) ltac:(lia)) as (Hl & Hlo & Hhi).
  cbv zeta in Hl, Hlo, Hhi.
  assert (Ha : Z.log2 n < 50) by (apply Z.log2_lt_pow2; lia).
  pose proof (Z.log2_nonneg n) as Ha0.
  change (Z.log2 (10 ^ 6)) with 19 in Hl.
  set (l := log2_ratio n (10 ^ 6)) in *.
  assert (Hlr : -20 <= l <= 30) by lia.
  unfold nearest_binary64.
  replace (n <=? 0) with false by (symmetry; apply Z.leb_gt; lia).
  fold l.
  assert (He : Z.max (l - (prec - 1)) emin = l - 52)
    by (clear - Hlr; unfold emin, emax, prec; lia).
  rewrite He.
  rewrite (Z.max_l (- (l - 52)) 0), (Z.max_r (l - 52) 0), Z.pow_0_r, Z.mul_1_r
    by (clear - Hlr; lia).
  set (E := 2 ^ (- (l - 52))).
  assert (HE : E = 2 ^ 22 * 2 ^ (30 - l))
    by (clear - Hlr; unfold E; rewrite <- Z.pow_add_r by lia; f_equal; lia).
  assert (HE30 : 0 < 2 ^ (30 - l)) by (clear - Hlr; apply Z.pow_pos_nonneg; lia).
  assert (HE0 : 0 < E) by (clear - HE HE30; lia).
  (* n * E / 10^6 lies in [2^52, 2^53) *)
  assert (Hlow : 2 ^ 52 * 10 ^ 6 <= n * E).
  { destruct (Z.le_gt_cases 0 l) as [Hs|Hs].
    - rewrite (Z.max_l l 0), (Z.max_r (- l) 0), Z.pow_0_r in Hlo by (clear - Hs; lia).
      assert (Hp : 2 ^ 52 = 2 ^ l * E)
        by (clear - Hs Hlr; unfold E; rewrite <- Z.pow_add_r by lia; f_equal; lia).
      rewrite Hp. clear - Hlo HE0. nia.
    - rewrite (Z.max_r l 0), (Z.max_l (- l) 0), Z.pow_0_r in Hlo by (clear - Hs; lia).
      assert (Hp : E = 2 ^ 52 * 2 ^ (- l))
        by (clear - Hs Hlr; unfold E; rewrite <- Z.pow_add_r by lia; f_equal; lia).
      rewrite Hp. clear - Hlo. nia. }
  assert (Hupp : n * E < 2 ^ 53 * 10 ^ 6).
  { destruct (Z.le_gt_cases 0 (l + 1)) as [Hs|Hs].
    - rewrite (Z.max_l (l + 1) 0), (Z.max_r (- (l + 1)) 0), Z.pow_0_r in Hhi
        by (clear - Hs; lia).
      assert (Hp : 2 ^ 53 = 2 ^ (l + 1) * E)
        by (clear - Hs Hlr; unfold E; rewrite <- Z.pow_add_r by lia; f_equal; lia).
      rewrite Hp. clear - Hhi HE0. nia.
    - rewrite (Z.max_r (l + 1) 0), (Z.max_l (- (l + 1)) 0), Z.pow_0_r in Hhi
        by (clear - Hs; lia).
      assert (Hp : E = 2 ^ 53 * 2 ^ (- (l + 1)))
        by (clear - Hs Hlr; unfold E; rewrite <- Z.pow_add_r by lia; f_equal; lia).
      rewrite Hp. clear - Hhi. nia. }
  pose proof (div_half_even_bound (n * E) (10 ^ 6) ltac:(lia)) as Hq.
  set (q := div_half_even (n * E) (10 ^ 6)) in *.
  assert (Hq1 : 2 ^ 52 <= q <= 2 ^ 53) by (clear - Hq Hlow Hupp; lia).
  assert (Hbound : forall (m : positive) (e : Z),
            2 ^ 52 <= Zpos m < 2 ^ 53 -> -80 <= e <= 0 ->
            bounded prec emax m e = true).
  { intros m e Hm Hev. unfold bounded, canonical_mantissa, fexp.
    rewrite digits2_log2.
    assert (HL : Z.log2 (Zpos m) = 52).
    { apply Z.log2_unique; [lia|]. change (2 ^ 52) with 4503599627370496.
      change (2 ^ (52 + 1)) with 9007199254740992.
      change (2 ^ 52) with 4503599627370496 in Hm.
      change (2 ^ 53) with 9007199254740992 in Hm. clear - Hm. lia. }
    rewrite HL. apply andb_true_iff.
    split; [apply Z.eqb_eq|apply Z.leb_le]; unfold SpecFloat.emin, prec, emax;
      clear - Hev; lia. }
  destruct (Z.eqb_spec q (2 ^ prec)) as [Heq|Hne].
  - (* rounded up to the next power of two *)
    change (2 ^ (prec - 1)) with (Zpos 4503599627370496).
    replace (emax - prec <? l - 52 + 1) with false
      by (symmetry; apply Z.ltb_ge; unfold emax, prec; clear - Hlr; lia).
    exists 4503599627370496%positive, (l - 52 + 1).
    split; [reflexivity|]. split; [apply Hbound; clear - Hlr; lia|].
    split; [clear - Hlr; lia|].
    assert (HE' : E = 2 * 2 ^ (- (l - 52 + 1))).
    { clear - Hlr. unfold E. rewrite <- (Z.pow_1_r 2) at 2.
      rewrite <- Z.pow_add_r by lia. f_equal. lia. }
    assert (HE21 : 2 ^ (- (l - 52 + 1)) = 2 ^ 21 * 2 ^ (30 - l))
      by (clear - Hlr; rewrite <- Z.pow_add_r by lia; f_equal; lia).
    unfold prec in Heq. rewrite Heq in Hq.
    set (E' := 2 ^ (- (l - 52 + 1))) in *.
    change (2 ^ 53) with 9007199254740992 in Hq.
    change (2 ^ 21) with 2097152 in HE21.
    change (10 ^ 6) with 1000000 in *. clear - Hq HE' HE21 HE30. lia.
  - destruct q as [|m|m] eqn:Hqm; try (clear - Hq1; lia).
    replace (emax - prec <? l - 52) with false
      by (symmetry; apply Z.ltb_ge; unfold emax, prec; clear - Hlr; lia).
    exists m, (l - 52).
    split; [reflexivity|].
    split; [apply Hbound; [unfold prec in Hne; clear - Hq1 Hne; lia|clear - Hlr; lia]|].
    split; [clear - Hlr; lia|].
    fold E. change (2 ^ 22) with 4194304 in HE. change (10 ^ 6) with 1000000 in *.
    clear - Hq HE HE30. lia.
Qed.

Lemma fixed_str_no_space (s : bool) (p : nat) (n : N) :
  has_space (sign_str s ++ fixed_str p n) = false.
Proof.
  rewrite has_space_app. unfold fixed_str, str_of_N.
  destruct p as [|p]; [|rewrite has_space_app; cbn [has_space]];
    rewrite ?fixed_digits_no_space; destruct s; reflexivity.
Qed.

(** X16. An amount written with six decimals and of magnitude below
    [10^9] goes through the pipeline's coding unchanged: [safe_float] reads
    it, [make_meta_str] writes the same six decimals into the key, and
    [meta_get_amount] reads the same float back. *)
Theorem six_decimal_amounts_round_trip (s : bool) (k : N)
    (t loc merch stat : string) :
  (k < 10 ^ 15)%N -> contains "|" t = false ->
  exists x key,
    safe_float (VStr (sign_str s ++ fixed_str 6 k)) = Ok x
    /\ make_meta_str (Some t) (VFloat x) (Some loc) (Some merch) (Some stat) = Ok key
    /\ key = t ++ "|" ++ (sign_str s ++ fixed_str 6 k) ++ "|" ++ loc ++ "|"
             ++ merch ++ "|" ++ stat
    /\ meta_get_amount (Some key) = Ok x.
Proof.
  intros Hk Ht.
  set (x := SF2Prim (nearest_binary64 s (Z.of_N k) (10 ^ 6))).
  assert (Hread : float_of_string (sign_str s ++ fixed_str 6 k) = Ok x)
    by (apply (float_of_string_fixed s 5 k)).
  assert (Hfmt : format_f 6 x = sign_str s ++ fixed_str 6 k).
  { destruct (N.eq_dec k 0) as [->|Hk0].
    - unfold x. destruct s; vm_compute; reflexivity.
    - destruct (nearest_binary64_micro s (Z.of_N k)) as (m & e & Hn & Hb & He & Herr).
      { change (10 ^ 15) with (Z.of_N (10 ^ 15)). lia. }
      unfold x, format_f. rewrite Hn, Prim2SF_SF2Prim by exact Hb.
      f_equal. f_equal. unfold scaled.
      rewrite (Z.max_r e 0), (Z.max_l (- e) 0), Z.pow_0_r, Z.mul_1_r by lia.
      rewrite (div_half_even_unique _ _ (Z.of_N k));
        [apply N2Z.id|apply Z.pow_pos_nonneg; lia|].
      change (10 ^ Z.of_nat 6) with (10 ^ 6). exact Herr. }
  exists x. eexists. split; [|split; [|split; [reflexivity|]]].
  - unfold safe_float, float_of_str_strip.
    rewrite strip_no_space by apply fixed_str_no_space.
    rewrite Hread. reflexivity.
  - rewrite make_meta_str_float, Hfmt. reflexivity.
  - rewrite meta_get_amount_key; [|exact Ht|rewrite <- Hfmt; apply format_f_no_bar].
    rewrite Hread. reflexivity.
Qed.

Lemma six_decimal_amounts_round_trip_witness :
  (12500000 < 10 ^ 15)%N /\ contains "|" "2024-01-01T10:00:00" = false
  /\ exists x key,
       safe_float (VStr ("" ++ "12.500000")) = Ok x
       /\ make_meta_str (Some "2024-01-01T10:00:00") (VFloat x)
            (Some "Delhi") (Some "Amazon") (Some "APPROVED") = Ok key
       /\ key = "2024-01-01T10:00:00|12.500000|Delhi|Amazon|APPROVED"
       /\ meta_get_amount (Some key) = Ok x.
Proof.
  split; [reflexivity|]. split; [reflexivity|].
  apply (six_decimal_amounts_round_trip false 12500000
           "2024-01-01T10:00:00" "Delhi" "Amazon" "APPROVED"); reflexivity.
Defined.

(* ================================================================== *)
(** * A lone transaction *)
(* ================================================================== *)




(* ================================================================== *)
(** * The size of the output *)
(* ================================================================== *)

Lemma window_stats_length (ts : list Stream.row) :
  (length (window_stats ts) <= length ts)%nat.
Proof.
  unfold window_stats. rewrite window_stats_sliding_eq, length_map.
  rewrite <- (length_map Stream.user_id ts).
  apply NoDup_incl_length; [apply NoDup_nodup|].
  intros k Hk. apply nodup_In in Hk. exact Hk.
Qed.

Lemma full_context_length (un : list Unpacked.row) (wl : list Watch.row) :
  (length (full_context un wl) <= length un * Nat.max 1 (length wl))%nat.
Proof.
  rewrite full_context_flat. induction un as [|u un IH]; [reflexivity|].
  cbn [flat_map]. rewrite length_app.
  assert (Hone : (length (full_context [u] wl) <= Nat.max 1 (length wl))%nat).
  { rewrite full_context_one.
    assert (Hm : (length (matches u wl) <= length wl)%nat)
      by (unfold matches; apply filter_length_le).
    destruct (matches u wl) as [|w ms]; [cbn [length]; lia|].
    rewrite length_map. lia. }
  change (length (u :: un)) with (S (length un)). lia.
Qed.

(** X18. The pipeline writes at most one row for each transaction and
    watchlist entry: the number of output rows is at most the number of
    transactions times the number of watchlist entries (or 1 for an empty
    watchlist).  The bound is reached: one transaction of a user with two
    watchlist entries is written twice. *)
Theorem output_size_bound (strptime : string -> result Z)
    (raw_tx : list Tx.row) (watchlist : list Watch.row) (rows : list Out.row) :
  pipeline strptime raw_tx watchlist = Ok rows ->
  (length rows <= length raw_tx * Nat.max 1 (length watchlist))%nat.
Proof.
  intros Hp. apply pipeline_inv in Hp. destruct Hp as (trs & un & Htr & Hun & _ & ->).
  unfold transactions in Htr. apply mapM_inv, Forall2_length in Htr.
  unfold unpacked in Hun. apply mapM_inv, Forall2_length in Hun.
  rewrite length_map in Hun.
  pose proof (window_stats_length (map (fun r => Stream.mk r (spec_key r)) trs)) as Hw.
  rewrite length_map in Hw.
  pose proof (full_context_length un watchlist) as Hf.
  rewrite length_map. unfold alerts_trigger.
  pose proof (filter_length_le trigger
                (map (fun c => Full.mk c (Ctx.amount c) (Ctx.velocity_avg_1h c))
                   (full_context un watchlist))) as Hfl.
  rewrite length_map in Hfl. nia.
Qed.

Lemma output_size_bound_witness :
  exists rows,
    pipeline strptime_iso unflagged_tx duplicated_watchlist = Ok rows
    /\ length rows = 2%nat
    /\ (length rows <= length unflagged_tx
                       * Nat.max 1 (length duplicated_watchlist))%nat.
Proof.
  assert (E : exists rows,
            pipeline strptime_iso unflagged_tx duplicated_watchlist = Ok rows
            /\ length rows = 2%nat)
    by (vm_compute; eexists; split; reflexivity).
  destruct E as (rows & E & Hlen). exists rows.
  split; [exact E|]. split; [exact Hlen|].
  exact (output_size_bound strptime_iso unflagged_tx duplicated_watchlist rows E).
Defined.
